(** * Job selection and filtering engine of slurm_vscode

    A shallow embedding of the two job managers of the repository:

    - the VS Code extension ([SlurmJobProvider.ts], [JobsWebviewProvider.ts],
      [extension.ts]): the polled job list, the persistent selection, the
      regex highlight and bulk select, the three sections of the view and the
      kill confirmations;
    - the terminal manager ([slurm_manager.sh]): its regex highlight and its
      bulk select.

    JavaScript [Set] and [Map] values keep insertion order, which
    [Array.from] and [entries()] expose; they are modelled as ordered lists.
    The regular-expression engines ([RegExp] of JavaScript, [=~] of bash) and
    [String.prototype.localeCompare] are not code of the repository: the
    development is parametric in them, and a small concrete engine is given to
    run the code on concrete inputs. *)

From Stdlib Require Import String Ascii List ZArith Bool Lia Sorted Permutation.
From Stdlib Require Import DecimalString OrdersEx RelationClasses.
Import ListNotations.
Open Scope string_scope.
Open Scope list_scope.

(** ** Strings as the code uses them *)

Module Str.

(** A string of the extension is the UTF-8 text of the JavaScript string.
    The white space that [trim] removes is the [WhiteSpace] and
    [LineTerminator] of ECMAScript: in one byte TAB, LF, VT, FF, CR and the
    space; in two bytes U+00A0; in three bytes U+1680, U+2000 to U+200A,
    U+2028, U+2029, U+202F, U+205F, U+3000 and U+FEFF. *)
Definition isSpace (c : ascii) : bool :=
  let n := nat_of_ascii c in
  ((9 <=? n)%nat && (n <=? 13)%nat) || (n =? 32)%nat.

Definition isSpace2 (a b : ascii) : bool :=
  ((nat_of_ascii a =? 194) && (nat_of_ascii b =? 160))%nat.

Definition isSpace3 (a b c : ascii) : bool :=
  let x := nat_of_ascii a in
  let y := nat_of_ascii b in
  let z := nat_of_ascii c in
  (((x =? 225) && (y =? 154) && (z =? 128))
   || ((x =? 226) && (y =? 128)
       && (((128 <=? z) && (z <=? 138)) || (z =? 168) || (z =? 169) || (z =? 175)))
   || ((x =? 226) && (y =? 129) && (z =? 159))
   || ((x =? 227) && (y =? 128) && (z =? 128))
   || ((x =? 239) && (y =? 187) && (z =? 191)))%nat.

(** [s.trimStart()] *)
Fixpoint trimStart (s : string) : string :=
  match s with
  | EmptyString => EmptyString
  | String a s1 =>
      if isSpace a then trimStart s1
      else match s1 with
           | EmptyString => s
           | String b s2 =>
               if isSpace2 a b then trimStart s2
               else match s2 with
                    | EmptyString => s
                    | String c s3 => if isSpace3 a b c then trimStart s3 else s
                    end
           end
  end.

(** The string is white space from end to end. *)
Definition blank (s : string) : bool :=
  match trimStart s with
  | EmptyString => true
  | String _ _ => false
  end.

(** [s.trimEnd()]: the longest end of [s] that is white space is cut. *)
Fixpoint trimEnd (s : string) : string :=
  match s with
  | EmptyString => EmptyString
  | String c s' => if blank s then EmptyString else String c (trimEnd s')
  end.

(** [s.trim()] *)
Definition trim (s : string) : string := trimEnd (trimStart s).

(** [s.split(sep)] for a one-character separator: never the empty list. *)
Fixpoint split (sep : ascii) (s : string) : list string :=
  match s with
  | EmptyString => [EmptyString]
  | String c s' =>
      if Ascii.eqb c sep then EmptyString :: split sep s'
      else match split sep s' with
           | h :: t => String c h :: t
           | [] => [String c EmptyString]
           end
  end.

Definition lowerAscii (c : ascii) : ascii :=
  let n := nat_of_ascii c in
  if ((65 <=? n)%nat && (n <=? 90)%nat) then ascii_of_nat (n + 32) else c.

(** [s.toLowerCase()] on ASCII letters. *)
Fixpoint toLowerCase (s : string) : string :=
  match s with
  | EmptyString => EmptyString
  | String c s' => String (lowerAscii c) (toLowerCase s')
  end.

(** [ls.join(sep)] *)
Definition join (sep : string) (ls : list string) : string := String.concat sep ls.

(** JavaScript truthiness of a string: the empty string is falsy. *)
Definition truthy (s : string) : bool := negb (s =? "").

(** [hay] contains [needle] as a substring. *)
Definition includes (hay needle : string) : bool :=
  match String.index 0 needle hay with
  | Some _ => true
  | None => false
  end.

End Str.

(** ** JavaScript [Set<string>]: insertion-ordered, without duplicates *)

Module JsSet.

Definition t := list string.

Definition empty : t := [].

Definition has (s : t) (x : string) : bool := existsb (String.eqb x) s.

(** [s.add(x)]: a new element goes last, an old one keeps its place. *)
Definition add (x : string) (s : t) : t := if has s x then s else s ++ [x].

(** [s.delete(x)] *)
Definition delete (x : string) (s : t) : t :=
  filter (fun y => negb (String.eqb x y)) s.

(** [Array.from(s)] *)
Definition from (s : t) : list string := s.

(** [xs.forEach(x => s.add(x))] and [xs.forEach(x => s.delete(x))] *)
Definition addAll (xs : list string) (s : t) : t :=
  fold_left (fun acc x => add x acc) xs s.

Definition deleteAll (xs : list string) (s : t) : t :=
  fold_left (fun acc x => delete x acc) xs s.

End JsSet.

(** ** JavaScript [Map<string, V>]: insertion-ordered association list *)

Module JsMap.

Definition t (V : Type) := list (string * V).

Definition empty {V : Type} : t V := [].

Definition has {V : Type} (m : t V) (k : string) : bool :=
  existsb (fun kv => String.eqb k (fst kv)) m.

(** [m.set(k, v)]: an existing key keeps its place and takes the new value. *)
Fixpoint set {V : Type} (k : string) (v : V) (m : t V) : t V :=
  match m with
  | [] => [(k, v)]
  | (k', v') :: m' =>
      if String.eqb k k' then (k, v) :: m' else (k', v') :: set k v m'
  end.

(** [m.entries()] *)
Definition entries {V : Type} (m : t V) : list (string * V) := m.

End JsMap.

(** ** Jobs ([models/types.ts]) *)

Record Job := mkJob {
  name : string;
  jobId : string;
  status : string;
  nodelist : string;
  startTime : string;
  runningTime : string
}.

Definition withStatus (j : Job) (s : string) : Job :=
  mkJob (name j) (jobId j) s (nodelist j) (startTime j) (runningTime j).

(** The tree item built by [getChildren]: the job's fields and the
    [confirmKill] flag. *)
Record JobItem := mkJobItem {
  label : string;
  item_jobId : string;
  item_status : string;
  item_nodelist : string;
  item_runningTime : string;
  confirmKillFlag : bool
}.

(** ** The platform the code runs on

    What the code calls but the repository does not define. *)

(** JavaScript regular expressions. *)
Class RegExpEngine := {
  RegExp : Type;
  (** [new RegExp(pattern, flags)]; [None] when the constructor throws. *)
  RegExp_new : string -> string -> option RegExp;
  (** [regex.test(s)], for a regex without the [g] and [y] flags. *)
  RegExp_test : RegExp -> string -> bool
}.

(** [a.localeCompare(b)] *)
Class Collator := {
  localeCompare : string -> string -> Z
}.

(** [[[ $subject =~ $pattern ]]] of bash: [true] for exit status 0. *)
Class BashRegex := {
  regex_match : string -> string -> bool
}.

(** The answers of the scheduler during one [getSlurmJobs]: what
    [executeSlurmCommand] returns for [squeue --version], for the [squeue]
    listing and for [sacct -j <id>].  [executeSlurmCommand] returns the
    trimmed standard output, and the empty string when the command fails.
    [sacct_out id = None] stands for an exception raised inside the [try]
    block that asks for the final state of job [id]. *)
Record Slurm := mkSlurm {
  squeue_version : string;
  squeue_out : string;
  sacct_out : string -> option string
}.

(** What a message handler sees of the outside: the scheduler at its
    successive polls (a handler polls at most twice), the configured
    [jobHistorySize] and the workspace folder with its files. *)
Record Env := mkEnv {
  polls : nat -> Slurm;
  jobHistorySize : Z;
  workspaceFolder : bool;
  fileExists : string -> bool
}.

(** ** What the code does to the outside *)

(** One [.job] element written by [generateJobsHtml]. *)
Record JobRow := mkRow {
  row_job : Job;
  isSelected : bool;
  isHighlighted : bool;
  isConfirmingKill : bool;
  isMonitored : bool
}.

(** The page written by [updateView]: the three sections, with the expansion
    class of the two collapsible ones, and the choice of batch buttons. *)
Record View := mkView {
  confirmingKillAll : bool;
  runningJobs : list JobRow;
  scheduledExpanded : bool;
  scheduledJobs : list JobRow;
  pastExpanded : bool;
  pastJobs : list JobRow
}.

(** A section body carries the class [expanded] or is not displayed
    ([.section-content { display: none }]); the running section is always
    expanded.  The jobs on screen, top to bottom: *)
Definition displayedRows (v : View) : list JobRow :=
  runningJobs v
  ++ (if scheduledExpanded v then scheduledJobs v else [])
  ++ (if pastExpanded v then pastJobs v else []).

Inductive Effect :=
| ShowInformationMessage (message : string)
| ShowWarningMessage (message : string)
| ShowErrorMessage (message : string)
  (** the completion notice of [getSlurmJobs], a
      [showInformationMessage], with the job it is about *)
| JobNotification (id message : string)
| FireTreeDataChange
| SetHtml (v : View)
| TerminalSendText (terminal text : string)
| OpenFolder (uri : string)
| OutputChannel (channel text : string)
| OpenTextDocument (file : string)
| ExecuteCommand (command arg : string)
| Scancel (id : string).

(** ** State and effects: a state monad that logs effects

    Console logging is not recorded.  A computation of the monad is a
    stretch of code that runs without giving the control back. *)

Definition M (S A : Type) : Type := S -> A * S * list Effect.

Definition ret {S A : Type} (a : A) : M S A := fun s => (a, s, []).

Definition bind {S A B : Type} (c : M S A) (k : A -> M S B) : M S B :=
  fun s =>
    let '(a, s1, e1) := c s in
    let '(b, s2, e2) := k a s1 in
    (b, s2, e1 ++ e2).

Definition get {S : Type} : M S S := fun s => (s, s, []).

Definition modify {S : Type} (f : S -> S) : M S unit := fun s => (tt, f s, []).

Definition emit {S : Type} (e : Effect) : M S unit := fun s => (tt, s, [e]).

(** Run a computation on a component of the state. *)
Definition zoom {S T A : Type} (proj : S -> T) (upd : T -> S -> S)
  (c : M T A) : M S A :=
  fun s => let '(a, t, e) := c (proj s) in (a, upd t s, e).

Definition stateOf {S A : Type} (r : A * S * list Effect) : S := snd (fst r).
Definition valueOf {S A : Type} (r : A * S * list Effect) : A := fst (fst r).
Definition effectsOf {S A : Type} (r : A * S * list Effect) : list Effect := snd r.

Declare Scope monad_scope.
Delimit Scope monad_scope with monad.
Notation "x <- c1 ;; c2" := (bind c1 (fun x => c2))
  (at level 61, c1 at next level, right associativity) : monad_scope.
Notation "c1 ;; c2" := (bind c1 (fun _ => c2))
  (at level 61, right associativity) : monad_scope.
Open Scope monad_scope.

(** ** Sorting and slicing of JavaScript arrays *)

(** [Array.prototype.sort] is stable; for a comparator that is a total
    preorder on the elements its result is the stable sorted arrangement,
    which insertion from the right computes.  For any other comparator the
    language leaves the order to the implementation, and only that it is
    a permutation of the elements is to be relied on. *)
Fixpoint insert {A : Type} (cmp : A -> A -> Z) (x : A) (l : list A) : list A :=
  match l with
  | [] => [x]
  | y :: l' => if (cmp x y <=? 0)%Z then x :: l else y :: insert cmp x l'
  end.

Definition sort {A : Type} (cmp : A -> A -> Z) (l : list A) : list A :=
  fold_right (insert cmp) [] l.

(** [l.slice(0, e)] for an integer [e]: a negative [e] counts from the end. *)
Definition slice0 {A : Type} (e : Z) (l : list A) : list A :=
  let len := Z.of_nat (length l) in
  let final := if (e <? 0)%Z then Z.max (len + e) 0 else Z.min e len in
  firstn (Z.to_nat final) l.

Definition nl : string := String (ascii_of_nat 10) EmptyString.

(** ** Looking a status up in an object literal *)

(** The names that every object inherits from [Object.prototype]. *)
Definition inheritedNames : list string :=
  ["constructor"; "__defineGetter__"; "__defineSetter__"; "hasOwnProperty";
   "__lookupGetter__"; "__lookupSetter__"; "isPrototypeOf"; "propertyIsEnumerable";
   "toString"; "valueOf"; "__proto__"; "toLocaleString"].

(** The value of [table[key] ?? 999] for an object literal [table] with
    numbers under its own keys: the number under an own key; for an
    inherited name the member of [Object.prototype] of that name, a function
    or, under [__proto__], the prototype itself, which is not nullish and is
    not a number; 999 for any other key. *)
Inductive Looked :=
| Number (z : Z)
| Member (name : string).

Definition lookup999 (table : list (string * Z)) (key : string) : Looked :=
  match find (fun entry => fst entry =? key) table with
  | Some entry => Number (snd entry)
  | None => if existsb (String.eqb key) inheritedNames then Member key else Number 999
  end.

(** [x - y]: [None] is [NaN], the difference when one side is not a
    number. *)
Definition minus (x y : Looked) : option Z :=
  match x, y with
  | Number a, Number b => Some (a - b)%Z
  | _, _ => None
  end.

(** [x !== y]: two members of the prototype are the same value when they
    have the same name. *)
Definition differ (x y : Looked) : bool :=
  match x, y with
  | Number a, Number b => negb (a =? b)%Z
  | Member m, Member m' => negb (m =? m')
  | _, _ => true
  end.

(** What [sort] makes of the result of its comparator: [NaN] counts as 0. *)
Definition sortOrder (v : option Z) : Z :=
  match v with
  | Some z => z
  | None => 0%Z
  end.

(** ** [SlurmJobProvider.ts] *)

Section Provider.
Context {RE : RegExpEngine} {CO : Collator}.

(** The fields of the class; the refresh timer is left out. *)
Record SlurmJobProvider := mkProvider {
  jobsToConfirm : JsSet.t;
  filterRegex : option RegExp;
  lastKnownJobs : JsMap.t Job;
  notifiedJobs : JsSet.t
}.

Definition newProvider : SlurmJobProvider :=
  mkProvider JsSet.empty None JsMap.empty JsSet.empty.

Definition refresh : M SlurmJobProvider unit := emit FireTreeDataChange.

Definition refreshJob (id : string) : M SlurmJobProvider unit :=
  emit FireTreeDataChange.

Definition setJobToConfirm (id : string) : M SlurmJobProvider unit :=
  modify (fun p => mkProvider (JsSet.add id (jobsToConfirm p)) (filterRegex p)
                     (lastKnownJobs p) (notifiedJobs p)) ;;
  refreshJob id.

Definition clearJobToConfirm (id : string) : M SlurmJobProvider unit :=
  modify (fun p => mkProvider (JsSet.delete id (jobsToConfirm p)) (filterRegex p)
                     (lastKnownJobs p) (notifiedJobs p)) ;;
  refreshJob id.

Definition isJobToConfirm (p : SlurmJobProvider) (id : string) : bool :=
  JsSet.has (jobsToConfirm p) id.

Definition getJobsToConfirm (p : SlurmJobProvider) : list string :=
  JsSet.from (jobsToConfirm p).

(** [setFilter(pattern)]: [None] is [null]. *)
Definition setFilter (pattern : option string) : M SlurmJobProvider unit :=
  match pattern with
  | Some s =>
      if Str.truthy s then
        match RegExp_new s "i" with
        | Some r =>
            modify (fun p => mkProvider (jobsToConfirm p) (Some r)
                               (lastKnownJobs p) (notifiedJobs p)) ;;
            refresh
        | None => emit (ShowErrorMessage "Invalid regex pattern")
        end
      else
        modify (fun p => mkProvider (jobsToConfirm p) None
                           (lastKnownJobs p) (notifiedJobs p)) ;;
        refresh
  | None =>
      modify (fun p => mkProvider (jobsToConfirm p) None
                         (lastKnownJobs p) (notifiedJobs p)) ;;
      refresh
  end.

Definition parseJobTime (timeStr : string) : string :=
  match length (Str.split ":" timeStr) with
  | 3%nat => timeStr
  | 2%nat => ("00:" ++ timeStr)%string
  | _ => "00:00:00"
  end.

(** One line of the [squeue] listing: the key under which the job enters
    [currentJobs] (the first field as it stands) and the job.  A line with
    fewer than six fields makes [.trim()] fail on [undefined]. *)
Definition parseLine (line : string) : option (string * Job) :=
  match Str.split "|" line with
  | id :: nm :: st :: nodes :: running :: start :: _ =>
      Some (id,
            mkJob (Str.trim nm) (Str.trim id) (Str.trim st)
              (if Str.trim nodes =? "(None)" then "" else Str.trim nodes)
              (Str.trim start) (parseJobTime (Str.trim running)))
  | _ => None
  end.

Fixpoint parseLines (lines : list string) (currentJobs : JsMap.t Job)
  : option (list Job * JsMap.t Job) :=
  match lines with
  | [] => Some ([], currentJobs)
  | line :: rest =>
      match parseLine line with
      | None => None
      | Some (k, job) =>
          match parseLines rest (JsMap.set k job currentJobs) with
          | None => None
          | Some (jobs, m) => Some (job :: jobs, m)
          end
      end
  end.

Definition completionMessage (lastJob : Job) (id finalStatus : string) : string :=
  ("Job " ++ name lastJob ++ " (" ++ id ++ ") has "
     ++ Str.toLowerCase finalStatus)%string.

(** One turn of the loop over [lastKnownJobs.entries()]; the accumulator is
    the array [jobs], the set [notifiedJobs] and the effects so far. *)
Definition checkVanished (env : Slurm) (currentJobs : JsMap.t Job)
  (acc : list Job * JsSet.t * list Effect) (entry : string * Job)
  : list Job * JsSet.t * list Effect :=
  let '(jobs, notified, effs) := acc in
  let '(id, lastJob) := entry in
  if negb (JsMap.has currentJobs id) && negb (JsSet.has notified id) then
    if (status lastJob =? "RUNNING") || (status lastJob =? "PENDING") then
      match sacct_out env id with
      | Some sacctOutput =>
          if Str.truthy sacctOutput then
            let finalStatus := Str.trim (hd "" (Str.split (ascii_of_nat 10) sacctOutput)) in
            (jobs ++ [withStatus lastJob finalStatus],
             JsSet.add id notified,
             effs ++ [JobNotification id (completionMessage lastJob id finalStatus)])
          else (jobs, JsSet.add id notified, effs)
      | None => (jobs, JsSet.add id notified, effs)
      end
    else acc
  else acc.

Definition getSlurmJobs (env : Slurm) : M SlurmJobProvider (list Job) :=
  fun p =>
    if negb (Str.truthy (squeue_version env)) then ([], p, [])
    else if negb (Str.truthy (squeue_out env)) then ([], p, [])
    else
      let lines := filter (fun line => Str.truthy (Str.trim line))
                     (Str.split (ascii_of_nat 10) (squeue_out env)) in
      match parseLines lines JsMap.empty with
      | None => ([], p, [])
      | Some (jobs, currentJobs) =>
          let '(jobs', notified, effs) :=
            fold_left (checkVanished env currentJobs)
              (JsMap.entries (lastKnownJobs p)) (jobs, notifiedJobs p, []) in
          (jobs', mkProvider (jobsToConfirm p) (filterRegex p) currentJobs notified, effs)
      end.

(** *** A call of [getSlurmJobs] in flight

    [getSlurmJobs] is an async function: at each [await] of
    [executeSlurmCommand] it gives the control back, and whatever else is due
    runs before it is resumed with the answer.  A call is suspended before
    the answer to [squeue --version], before the listing, or in the loop
    before the answer of [sacct] about one job, with the array [jobs], the
    map [currentJobs] and the entries the loop has still to visit. *)
Inductive Poll :=
| AwaitsVersion
| AwaitsListing
| AwaitsSacct (jobs : list Job) (currentJobs : JsMap.t Job) (id : string) (lastJob : Job)
    (entries : list (string * Job))
| Returned (jobs : list Job).

(** The loop over the entries from one turn on, up to its next [await] or,
    past the last entry, to the end of the function. *)
Fixpoint scanEntries (currentJobs : JsMap.t Job) (jobs : list Job)
  (entries : list (string * Job)) : M SlurmJobProvider Poll :=
  match entries with
  | [] =>
      modify (fun p => mkProvider (jobsToConfirm p) (filterRegex p) currentJobs
                         (notifiedJobs p)) ;;
      ret (Returned jobs)
  | (id, lastJob) :: rest =>
      p <- get ;;
      if negb (JsMap.has currentJobs id) && negb (JsSet.has (notifiedJobs p) id) then
        if (status lastJob =? "RUNNING") || (status lastJob =? "PENDING")
        then ret (AwaitsSacct jobs currentJobs id lastJob rest)
        else scanEntries currentJobs jobs rest
      else scanEntries currentJobs jobs rest
  end.

Definition markNotified (id : string) : M SlurmJobProvider unit :=
  modify (fun p => mkProvider (jobsToConfirm p) (filterRegex p) (lastKnownJobs p)
                     (JsSet.add id (notifiedJobs p))).

(** The call resumed with the answer of the command it awaits, up to its
    next [await] or to its end. *)
Definition resume (env : Slurm) (poll : Poll) : M SlurmJobProvider Poll :=
  match poll with
  | AwaitsVersion =>
      if negb (Str.truthy (squeue_version env)) then ret (Returned [])
      else ret AwaitsListing
  | AwaitsListing =>
      if negb (Str.truthy (squeue_out env)) then ret (Returned [])
      else
        let lines := filter (fun line => Str.truthy (Str.trim line))
                       (Str.split (ascii_of_nat 10) (squeue_out env)) in
        match parseLines lines JsMap.empty with
        | None => ret (Returned [])
        | Some (jobs, currentJobs) =>
            p <- get ;;
            scanEntries currentJobs jobs (JsMap.entries (lastKnownJobs p))
        end
  | AwaitsSacct jobs currentJobs id lastJob rest =>
      match sacct_out env id with
      | Some sacctOutput =>
          if Str.truthy sacctOutput then
            let finalStatus := Str.trim (hd "" (Str.split (ascii_of_nat 10) sacctOutput)) in
            emit (JobNotification id (completionMessage lastJob id finalStatus)) ;;
            markNotified id ;;
            scanEntries currentJobs (jobs ++ [withStatus lastJob finalStatus]) rest
          else
            markNotified id ;;
            scanEntries currentJobs jobs rest
      | None =>
          markNotified id ;;
          scanEntries currentJobs jobs rest
      end
  | Returned jobs => ret (Returned jobs)
  end.

(** The call resumed with each answer as soon as it is awaited, nothing
    else running in between. *)
Fixpoint unbroken (env : Slurm) (fuel : nat) (poll : Poll)
  : M SlurmJobProvider (list Job) :=
  match poll with
  | Returned jobs => ret jobs
  | _ =>
      match fuel with
      | O => ret []
      | S fuel' => poll' <- resume env poll ;; unbroken env fuel' poll'
      end
  end.

(** The order of the tree view: [statusOrder[s] ?? 999]. *)
Definition statusOrder (s : string) : Looked :=
  lookup999 [("RUNNING", 0%Z); ("COMPLETING", 1%Z); ("PENDING", 2%Z); ("FAILED", 3%Z);
             ("FINISHED", 4%Z); ("COMPLETED", 4%Z)] s.

Definition compareItems (a b : JobItem) : option Z :=
  let statusA := statusOrder (item_status a) in
  let statusB := statusOrder (item_status b) in
  if differ statusA statusB then minus statusA statusB
  else Some (localeCompare (label a) (label b)).

(** [getChildren(element)] *)
Definition getChildren (env : Slurm) (element : option JobItem)
  : M SlurmJobProvider (list JobItem) :=
  match element with
  | Some _ => ret []
  | None =>
      jobs <- getSlurmJobs env ;;
      p <- get ;;
      let filteredJobs :=
        match filterRegex p with
        | Some r => filter (fun job => RegExp_test r (name job)) jobs
        | None => jobs
        end in
      let jobItems :=
        map (fun job => mkJobItem (name job) (jobId job) (status job)
                          (nodelist job) (runningTime job)
                          (isJobToConfirm p (jobId job))) filteredJobs in
      ret (sort (fun a b => sortOrder (compareItems a b)) jobItems)
  end.

(** *** The commands of [extension.ts] on the provider

    [scancel] is the outcome of [execAsync(`scancel <id>`)]: [None] when it
    succeeds, the error text when it fails. *)

Definition killJobCommand (job : JobItem) : M SlurmJobProvider unit :=
  setJobToConfirm (item_jobId job).

Definition confirmKillCommand (scancel : option string) (job : JobItem)
  : M SlurmJobProvider unit :=
  emit (Scancel (item_jobId job)) ;;
  match scancel with
  | None =>
      emit (ShowInformationMessage
              ("Successfully cancelled job " ++ item_jobId job)%string) ;;
      clearJobToConfirm (item_jobId job) ;;
      refresh
  | Some error =>
      emit (ShowErrorMessage ("Failed to kill job: " ++ error)%string) ;;
      clearJobToConfirm (item_jobId job)
  end.

Definition cancelKillCommand (job : JobItem) : M SlurmJobProvider unit :=
  clearJobToConfirm (item_jobId job).

End Provider.

(** ** [JobsWebviewProvider.ts] *)

Section Webview.
Context {RE : RegExpEngine} {CO : Collator}.

(** The fields of the class, with the provider it holds.  [resolved] says
    that [_view] is set.  [lastClickedJobId] is never read or written by the
    class and is left out. *)
Record JobsWebviewProvider := mkWebview {
  resolved : bool;
  selectedJobs : JsSet.t;
  monitoredJobs : JsSet.t;
  highlightRegex : option RegExp;
  isConfirmingKillAll : bool;
  isPastJobsExpanded : bool;
  isScheduledJobsExpanded : bool;
  slurmJobProvider : SlurmJobProvider
}.

Definition newWebview (p : SlurmJobProvider) : JobsWebviewProvider :=
  mkWebview false JsSet.empty JsSet.empty None false false false p.

Definition setResolved (b : bool) (w : JobsWebviewProvider) :=
  mkWebview b (selectedJobs w) (monitoredJobs w) (highlightRegex w)
    (isConfirmingKillAll w) (isPastJobsExpanded w) (isScheduledJobsExpanded w)
    (slurmJobProvider w).

Definition setSelectedJobs (s : JsSet.t) (w : JobsWebviewProvider) :=
  mkWebview (resolved w) s (monitoredJobs w) (highlightRegex w)
    (isConfirmingKillAll w) (isPastJobsExpanded w) (isScheduledJobsExpanded w)
    (slurmJobProvider w).

Definition setMonitoredJobs (s : JsSet.t) (w : JobsWebviewProvider) :=
  mkWebview (resolved w) (selectedJobs w) s (highlightRegex w)
    (isConfirmingKillAll w) (isPastJobsExpanded w) (isScheduledJobsExpanded w)
    (slurmJobProvider w).

Definition setHighlightRegex (r : option RegExp) (w : JobsWebviewProvider) :=
  mkWebview (resolved w) (selectedJobs w) (monitoredJobs w) r
    (isConfirmingKillAll w) (isPastJobsExpanded w) (isScheduledJobsExpanded w)
    (slurmJobProvider w).

Definition setConfirmingKillAll (b : bool) (w : JobsWebviewProvider) :=
  mkWebview (resolved w) (selectedJobs w) (monitoredJobs w) (highlightRegex w)
    b (isPastJobsExpanded w) (isScheduledJobsExpanded w) (slurmJobProvider w).

Definition setPastJobsExpanded (b : bool) (w : JobsWebviewProvider) :=
  mkWebview (resolved w) (selectedJobs w) (monitoredJobs w) (highlightRegex w)
    (isConfirmingKillAll w) b (isScheduledJobsExpanded w) (slurmJobProvider w).

Definition setScheduledJobsExpanded (b : bool) (w : JobsWebviewProvider) :=
  mkWebview (resolved w) (selectedJobs w) (monitoredJobs w) (highlightRegex w)
    (isConfirmingKillAll w) (isPastJobsExpanded w) b (slurmJobProvider w).

Definition setProvider (p : SlurmJobProvider) (w : JobsWebviewProvider) :=
  mkWebview (resolved w) (selectedJobs w) (monitoredJobs w) (highlightRegex w)
    (isConfirmingKillAll w) (isPastJobsExpanded w) (isScheduledJobsExpanded w) p.

(** A call of a method of [this.slurmJobProvider]. *)
Definition onProvider {A : Type} (c : M SlurmJobProvider A)
  : M JobsWebviewProvider A :=
  zoom slurmJobProvider setProvider c.

(** [getVisibleJobs(jobs)] *)
Definition getVisibleJobs (w : JobsWebviewProvider) (jobs : list Job) : list Job :=
  let runningJobs :=
    filter (fun job => (status job =? "RUNNING") || (status job =? "COMPLETING")) jobs in
  let scheduledJobs :=
    if isScheduledJobsExpanded w
    then filter (fun job => status job =? "PENDING") jobs else [] in
  let pastJobs :=
    if isPastJobsExpanded w
    then filter (fun job => existsb (String.eqb (status job)) ["COMPLETED"; "FAILED"]) jobs
    else [] in
  runningJobs ++ scheduledJobs ++ pastJobs.

(** The order of the webview: [statusPriority[s] ?? 999]. *)
Definition statusPriority (s : string) : Looked :=
  lookup999 [("RUNNING", 0%Z); ("PENDING", 1%Z); ("COMPLETING", 2%Z); ("FAILED", 3%Z)] s.

(** The comparator of [updateView]: a difference that is [NaN] is not 0 and
    is returned. *)
Definition compareJobs (a b : Job) : option Z :=
  let statusDiff := minus (statusPriority (status a)) (statusPriority (status b)) in
  match statusDiff with
  | Some 0%Z => Some (localeCompare (name a) (name b))
  | _ => statusDiff
  end.

Definition generateJobsHtml (w : JobsWebviewProvider) (jobs : list Job) : list JobRow :=
  map (fun job =>
         mkRow job
           (JsSet.has (selectedJobs w) (jobId job))
           (match highlightRegex w with
            | Some r => RegExp_test r (name job)
            | None => false
            end)
           (isJobToConfirm (slurmJobProvider w) (jobId job))
           (JsSet.has (monitoredJobs w) (jobId job)))
      jobs.

(** The three lists of [updateView], from the polled jobs. *)
Definition sortedJobs (jobs : list Job) : list Job :=
  sort (fun a b => sortOrder (compareJobs a b)) jobs.

Definition runningSection (jobs : list Job) : list Job :=
  filter (fun job => (status job =? "RUNNING") || (status job =? "COMPLETING"))
    (sortedJobs jobs).

Definition scheduledSection (jobs : list Job) : list Job :=
  filter (fun job => status job =? "PENDING") (sortedJobs jobs).

Definition pastSection (historySize : Z) (jobs : list Job) : list Job :=
  slice0 historySize
    (filter (fun job => negb (status job =? "RUNNING")
                        && negb (status job =? "PENDING")
                        && negb (status job =? "COMPLETING"))
       (sortedJobs jobs)).

Definition viewOf (historySize : Z) (w : JobsWebviewProvider) (jobs : list Job) : View :=
  mkView (isConfirmingKillAll w)
    (generateJobsHtml w (runningSection jobs))
    (isScheduledJobsExpanded w)
    (generateJobsHtml w (scheduledSection jobs))
    (isPastJobsExpanded w)
    (generateJobsHtml w (pastSection historySize jobs)).

(** [updateView()]; [k] numbers the poll within the handler. *)
Definition updateView (env : Env) (k : nat) : M JobsWebviewProvider unit :=
  w0 <- get ;;
  if negb (resolved w0) then ret tt
  else
    jobs <- onProvider (getSlurmJobs (polls env k)) ;;
    w <- get ;;
    emit (SetHtml (viewOf (jobHistorySize env) w jobs)).

(** The body of the [regexEnter] handler on the matching jobs. *)
Definition bulkToggle (matching : list string) (selected : JsSet.t) : JsSet.t :=
  if forallb (JsSet.has selected) matching
  then JsSet.deleteAll matching selected
  else JsSet.addAll matching selected.

Definition matchingJobs (regex : RegExp) (visibleJobs : list Job) : list Job :=
  filter (fun job => RegExp_test regex (name job)) visibleJobs.

(** [selectAll(forceSelect)] *)
Definition selectAll (env : Env) (forceSelect : bool) : M JobsWebviewProvider unit :=
  jobs <- onProvider (getSlurmJobs (polls env 0)) ;;
  (if forceSelect then
     modify (fun w =>
               setSelectedJobs
                 (JsSet.addAll (map jobId (getVisibleJobs w jobs)) (selectedJobs w)) w)
   else modify (setSelectedJobs JsSet.empty)) ;;
  updateView env 1.

(** [clearSelection()] *)
Definition clearSelection (env : Env) : M JobsWebviewProvider unit :=
  modify (setSelectedJobs JsSet.empty) ;;
  updateView env 0.

Inductive Action :=
| attach | ssh | peek | kill | confirmKill | cancelKill | monitor
| viewOutput | viewError
| otherAction.

Definition viewFile (env : Env) (file notFound : string) : M JobsWebviewProvider unit :=
  if negb (workspaceFolder env) then emit (ShowErrorMessage "No workspace folder found")
  else if fileExists env file then emit (OpenTextDocument file)
  else emit (ShowErrorMessage (notFound ++ file)%string).

(** [handleAction(action, jobId)] *)
Definition handleAction (env : Env) (a : Action) (id : string)
  : M JobsWebviewProvider unit :=
  jobs <- onProvider (getSlurmJobs (polls env 0)) ;;
  match find (fun j => jobId j =? id) jobs with
  | None => ret tt
  | Some job =>
      match a with
      | attach =>
          if negb (status job =? "RUNNING")
          then emit (ShowWarningMessage "Can only attach to running jobs")
          else emit (TerminalSendText ("Job " ++ jobId job ++ " Output")%string
                       ("sattach " ++ jobId job ++ ".0")%string)
      | ssh =>
          if negb (Str.truthy (nodelist job)) || (nodelist job =? "(None)")
          then emit (ShowWarningMessage "No nodes allocated for this job yet")
          else emit (OpenFolder ("vscode-remote://ssh-remote+"
                                   ++ hd "" (Str.split "," (nodelist job)) ++ "/")%string)
      | peek =>
          emit (OutputChannel ("Job " ++ jobId job)%string
                  ("JobId=" ++ jobId job ++ nl ++ "Name=" ++ name job ++ nl
                     ++ "Status=" ++ status job ++ nl ++ "Nodes=" ++ nodelist job)%string)
      | kill =>
          onProvider (setJobToConfirm (jobId job)) ;;
          updateView env 1
      | confirmKill =>
          emit (ShowInformationMessage ("[DEV] Would kill job " ++ jobId job)%string) ;;
          onProvider (clearJobToConfirm (jobId job)) ;;
          updateView env 1
      | cancelKill =>
          onProvider (clearJobToConfirm (jobId job)) ;;
          updateView env 1
      | monitor =>
          w <- get ;;
          (if JsSet.has (monitoredJobs w) id then
             modify (fun w => setMonitoredJobs (JsSet.delete id (monitoredJobs w)) w) ;;
             emit (ShowInformationMessage
                     ("Stopped monitoring job " ++ name job ++ " (" ++ id ++ ")")%string)
           else
             modify (fun w => setMonitoredJobs (JsSet.add id (monitoredJobs w)) w) ;;
             emit (ShowInformationMessage
                     ("Started monitoring job " ++ name job ++ " (" ++ id ++ ")")%string)) ;;
          updateView env 1
      | viewOutput =>
          viewFile env ("slurm-" ++ jobId job ++ ".out")%string "Output file not found: "
      | viewError =>
          viewFile env ("slurm-" ++ jobId job ++ ".err")%string "Error file not found: "
      | otherAction => ret tt
      end
  end.

(** The messages of the page. *)
Inductive Message :=
| regexEnter (value : string)
| regexChange (value : string)
| toggleSelection (id : string) (forceSelect : bool)
| selectAllMsg (forceSelect : bool)
| clearSelectionMsg
| killSelected
| confirmKillAll
| cancelKillAll
| monitorSelected
| actionMsg (a : Action) (id : string)
| togglePastJobs
| toggleScheduledJobs
| openSettings.

Definition nat_to_string (n : nat) : string :=
  NilEmpty.string_of_uint (Nat.to_uint n).

(** The listener installed by [resolveWebviewView]. *)
Definition onDidReceiveMessage (env : Env) (data : Message)
  : M JobsWebviewProvider unit :=
  match data with
  | regexEnter value =>
      if negb (Str.truthy value) then
        modify (setHighlightRegex None) ;;
        updateView env 0
      else
        match RegExp_new value "i" with
        | None => ret tt
        | Some regex =>
            jobs <- onProvider (getSlurmJobs (polls env 0)) ;;
            modify (fun w =>
                      let visibleJobs := getVisibleJobs w jobs in
                      setSelectedJobs
                        (bulkToggle (map jobId (matchingJobs regex visibleJobs))
                           (selectedJobs w)) w) ;;
            modify (setHighlightRegex None) ;;
            updateView env 1
        end
  | regexChange value =>
      if Str.truthy value then
        match RegExp_new value "i" with
        | None => ret tt
        | Some regex =>
            modify (setHighlightRegex (Some regex)) ;;
            updateView env 0
        end
      else
        modify (setHighlightRegex None) ;;
        updateView env 0
  | toggleSelection id forceSelect =>
      modify (fun w =>
                if forceSelect then setSelectedJobs (JsSet.add id (selectedJobs w)) w
                else if JsSet.has (selectedJobs w) id
                then setSelectedJobs (JsSet.delete id (selectedJobs w)) w
                else setSelectedJobs (JsSet.add id (selectedJobs w)) w) ;;
      updateView env 0
  | selectAllMsg forceSelect => selectAll env forceSelect
  | clearSelectionMsg => clearSelection env
  | killSelected =>
      w <- get ;;
      match JsSet.from (selectedJobs w) with
      | [] => emit (ShowWarningMessage "No jobs selected")
      | _ :: _ =>
          modify (setConfirmingKillAll true) ;;
          updateView env 0
      end
  | confirmKillAll =>
      w <- get ;;
      match JsSet.from (selectedJobs w) with
      | [] => emit (ShowWarningMessage "No jobs selected")
      | (_ :: _) as jobsToKill =>
          emit (ShowInformationMessage
                  ("[DEV] Would kill jobs " ++ Str.join " " jobsToKill)%string) ;;
          modify (setSelectedJobs JsSet.empty) ;;
          modify (setConfirmingKillAll false) ;;
          updateView env 0
      end
  | cancelKillAll =>
      modify (setConfirmingKillAll false) ;;
      updateView env 0
  | monitorSelected =>
      w <- get ;;
      match JsSet.from (selectedJobs w) with
      | [] => emit (ShowWarningMessage "No jobs selected")
      | (_ :: _) as selected =>
          (if forallb (JsSet.has (monitoredJobs w)) selected then
             modify (fun w => setMonitoredJobs
                                (JsSet.deleteAll selected (monitoredJobs w)) w) ;;
             emit (ShowInformationMessage
                     ("Stopped monitoring " ++ nat_to_string (length selected)
                        ++ " selected jobs")%string)
           else
             modify (fun w => setMonitoredJobs
                                (JsSet.addAll selected (monitoredJobs w)) w) ;;
             emit (ShowInformationMessage
                     ("Started monitoring " ++ nat_to_string (length selected)
                        ++ " selected jobs")%string)) ;;
          updateView env 0
      end
  | actionMsg a id => handleAction env a id
  | togglePastJobs =>
      modify (fun w => setPastJobsExpanded (negb (isPastJobsExpanded w)) w) ;;
      updateView env 0
  | toggleScheduledJobs =>
      modify (fun w => setScheduledJobsExpanded (negb (isScheduledJobsExpanded w)) w) ;;
      updateView env 0
  | openSettings =>
      emit (ExecuteCommand "workbench.action.openSettings" "@ext:slurm-job-manager")
  end.

(** [resolveWebviewView]: the view is stored and drawn. *)
Definition resolveWebviewView (env : Env) : M JobsWebviewProvider unit :=
  modify (setResolved true) ;;
  updateView env 0.

End Webview.

(** ** [extension.ts]: everything that can happen to the two objects

    [activate] creates one provider and one webview provider holding it, and
    registers the commands below; the page sends its messages to the
    listener.  The last two events are the public methods of the provider
    that no command of [extension.ts] calls. *)

Section Extension.
Context {RE : RegExpEngine} {CO : Collator}.

Inductive Event :=
| ViewResolved
| PageMessage (data : Message)
| SelectAllCommand
| ClearSelectionCommand
| RefreshCommand
| KillJobCommand (job : JobItem)
| ConfirmKillCommand (scancel : option string) (job : JobItem)
| CancelKillCommand (job : JobItem)
| SetFilter (pattern : option string)
| GetChildren (element : option JobItem).

Definition handle (env : Env) (ev : Event) : M JobsWebviewProvider unit :=
  match ev with
  | ViewResolved => resolveWebviewView env
  | PageMessage data => onDidReceiveMessage env data
  | SelectAllCommand => selectAll env true
  | ClearSelectionCommand => clearSelection env
  | RefreshCommand => onProvider refresh
  | KillJobCommand job => onProvider (killJobCommand job)
  | ConfirmKillCommand scancel job => onProvider (confirmKillCommand scancel job)
  | CancelKillCommand job => onProvider (cancelKillCommand job)
  | SetFilter pattern => onProvider (setFilter pattern)
  | GetChildren element =>
      _ <- onProvider (getChildren (polls env 0) element) ;; ret tt
  end.

(** A life of the extension without overlap: the events in the order they
    are handled, each handler having finished, with its polls and its
    redraw, when the next event is handled. *)
Fixpoint handleAll (evs : list (Env * Event)) : M JobsWebviewProvider unit :=
  match evs with
  | [] => ret tt
  | (env, ev) :: rest => handle env ev ;; handleAll rest
  end.

(** The state [activate] builds. *)
Definition activated : JobsWebviewProvider := newWebview newProvider.

(** *** Calls of [updateView] in flight

    The handlers of the listener call [this.updateView()] without [await]:
    the call runs up to the first [await] of its [getSlurmJobs] and the
    handler returns, so the next message is handled, and may call
    [updateView()] again, while the first call waits for its answer.  One
    turn of the event loop is here a message [toggleSelection], whose
    handler changes the selection and calls [updateView()], or the answer to
    the command that the [i]-th call of [updateView] in flight awaits; a
    call whose poll has returned draws the page and is no longer in
    flight. *)
Inductive Turn :=
| Toggle (id : string) (forceSelect : bool)
| Answer (i : nat) (env : Slurm).

Definition turn (historySize : Z) (tn : Turn) (inFlight : list Poll)
  : M JobsWebviewProvider (list Poll) :=
  match tn with
  | Toggle id forceSelect =>
      modify (fun w =>
                if forceSelect then setSelectedJobs (JsSet.add id (selectedJobs w)) w
                else if JsSet.has (selectedJobs w) id
                then setSelectedJobs (JsSet.delete id (selectedJobs w)) w
                else setSelectedJobs (JsSet.add id (selectedJobs w)) w) ;;
      w0 <- get ;;
      if negb (resolved w0) then ret inFlight
      else ret (inFlight ++ [AwaitsVersion])
  | Answer i env =>
      match nth_error inFlight i with
      | None => ret inFlight
      | Some poll =>
          poll' <- onProvider (resume env poll) ;;
          match poll' with
          | Returned jobs =>
              w <- get ;;
              emit (SetHtml (viewOf historySize w jobs)) ;;
              ret (firstn i inFlight ++ skipn (S i) inFlight)
          | _ => ret (firstn i inFlight ++ poll' :: skipn (S i) inFlight)
          end
      end
  end.

Fixpoint turns (historySize : Z) (tns : list Turn) (inFlight : list Poll)
  : M JobsWebviewProvider (list Poll) :=
  match tns with
  | [] => ret inFlight
  | tn :: rest => inFlight' <- turn historySize tn inFlight ;; turns historySize rest inFlight'
  end.

End Extension.

(** ** [slurm_manager.sh]: the regex mode of the terminal manager *)

Section Terminal.
Context {BR : BashRegex}.

(** The global variables of the script that the regex mode touches.  A row
    of [jobs_data] is the packed string
    [jobid|partition|name|status|time|timelimit|nodes|nodelist]. *)
Record Terminal := mkTerminal {
  selected_index : Z;
  jobs_data : list string;
  selected_jobs : list string;
  filter_mode : bool;
  filter_text : string;
  filtered_jobs : list string;
  cursor_pos : nat;
  entered_regex_with_down : bool
}.

(** [IFS='|' read -r jobid _ name _ ... <<< "$job"]: the fields read into
    [jobid] and [name]. *)
Definition row_jobid (job : string) : string := nth 0 (Str.split "|" job) "".
Definition row_name (job : string) : string := nth 2 (Str.split "|" job) "".

(** [[[ " ${selected_jobs[@]} " =~ " ${jobid} " ]]]: the quoted right-hand
    side is matched literally, as a substring of the space-joined list. *)
Definition is_selected (selected : list string) (id : string) : bool :=
  Str.includes (" " ++ Str.join " " selected ++ " ")%string (" " ++ id ++ " ")%string.

(** [apply_filter] *)
Definition apply_filter (t : Terminal) : Terminal :=
  let pattern := filter_text t in
  mkTerminal (selected_index t) (jobs_data t) (selected_jobs t) (filter_mode t)
    (filter_text t)
    (if pattern =? "" then jobs_data t
     else filter (fun job => regex_match job pattern) (jobs_data t))
    (cursor_pos t) (entered_regex_with_down t).

(** The selection box [draw_menu] prints in front of a job. *)
Inductive Box := BoxSelected | BoxMarked | BoxEmpty.

Definition draw_box (t : Terminal) (index : Z) (job : string) : Box :=
  if filter_mode t then
    if is_selected (selected_jobs t) (row_jobid job) then BoxSelected
    else if negb (filter_text t =? "") && regex_match (row_name job) (filter_text t)
         then BoxMarked
         else BoxEmpty
  else
    if is_selected (selected_jobs t) (row_jobid job) then BoxSelected
    else if (index =? selected_index t)%Z then BoxMarked
         else BoxEmpty.

(** One turn of the loop of the Enter key in regex mode. *)
Definition select_matching (pattern : string) (selected : list string) (job : string)
  : list string :=
  if regex_match (row_name job) pattern then
    if negb (is_selected selected (row_jobid job))
    then selected ++ [row_jobid job]
    else selected
  else selected.

(** The Enter key in regex mode. *)
Definition filter_enter (t : Terminal) : Terminal :=
  mkTerminal 0 (jobs_data t)
    (if negb (filter_text t =? "")
     then fold_left (select_matching (filter_text t)) (jobs_data t) (selected_jobs t)
     else selected_jobs t)
    false "" (filtered_jobs t) 0 false.

End Terminal.

(** ** [slurm_manager.sh]: selection, keys and the regex line

    The keys are those the two [case] statements of [main] tell apart.  The
    timing of the reads and the drawing are left out; lengths and positions
    count bytes. *)

Section TerminalKeys.
Context {BR : BashRegex}.

Definition setSelected (sel : list string) (t : Terminal) : Terminal :=
  mkTerminal (selected_index t) (jobs_data t) sel (filter_mode t) (filter_text t)
    (filtered_jobs t) (cursor_pos t) (entered_regex_with_down t).

Definition setIndex (i : Z) (t : Terminal) : Terminal :=
  mkTerminal i (jobs_data t) (selected_jobs t) (filter_mode t) (filter_text t)
    (filtered_jobs t) (cursor_pos t) (entered_regex_with_down t).

Definition setLine (text : string) (pos : nat) (t : Terminal) : Terminal :=
  mkTerminal (selected_index t) (jobs_data t) (selected_jobs t) (filter_mode t) text
    (filtered_jobs t) pos (entered_regex_with_down t).

(** [toggle_selection]: a selected identifier is taken out, with the empty
    elements; another one is appended. *)
Definition toggle_selection (id : string) (t : Terminal) : Terminal :=
  if is_selected (selected_jobs t) id then
    setSelected (filter (fun j => negb (j =? id) && negb (j =? "")) (selected_jobs t)) t
  else setSelected (selected_jobs t ++ [id]) t.

(** [select_all] *)
Definition select_all (t : Terminal) : Terminal :=
  setSelected (map row_jobid (jobs_data t)) t.

(** [are_all_jobs_selected]: the jobs whose identifier, between two spaces,
    occurs in the space-joined selection are counted. *)
Definition are_all_jobs_selected (t : Terminal) : bool :=
  let selected := Str.join " " (selected_jobs t) in
  let count :=
    length (filter (fun job => Str.includes selected (" " ++ row_jobid job ++ " ")%string)
              (jobs_data t)) in
  (count =? length (jobs_data t))%nat.

(** [${jobs_data[$index]}]: a negative index counts from the end, a missing
    element is the empty string. *)
Definition row_at (t : Terminal) (index : Z) : string :=
  let len := Z.of_nat (length (jobs_data t)) in
  if (0 <=? index)%Z then nth (Z.to_nat index) (jobs_data t) ""
  else if (0 <=? len + index)%Z then nth (Z.to_nat (len + index)) (jobs_data t) ""
  else "".

(** The part of [get_jobs] after the listing is read into [new_jobs]: the
    rows are replaced when their number or their space-joined text differs;
    the result says whether they were. *)
Definition get_jobs (new_jobs : list string) (t : Terminal) : Terminal * bool :=
  if negb (length new_jobs =? length (jobs_data t))%nat
     || negb (Str.join " " new_jobs =? Str.join " " (jobs_data t))
  then (mkTerminal (selected_index t) new_jobs (selected_jobs t) (filter_mode t)
          (filter_text t) (filtered_jobs t) (cursor_pos t) (entered_regex_with_down t),
        true)
  else (t, false).

(** The keys of normal mode that move the cursor or act on the selection. *)
Inductive NormalKey := NormalUp | NormalDown | NormalEnter | NormalSlash.

Definition normal_key (k : NormalKey) (t : Terminal) : Terminal :=
  match k with
  | NormalUp =>
      if (-1 <? selected_index t)%Z then setIndex (selected_index t - 1) t else t
  | NormalDown =>
      if (selected_index t <? Z.of_nat (length (jobs_data t)) - 1)%Z
      then setIndex (selected_index t + 1) t
      else mkTerminal (Z.of_nat (length (jobs_data t))) (jobs_data t) (selected_jobs t)
             true (filter_text t) (filtered_jobs t) (cursor_pos t) true
  | NormalEnter =>
      if (selected_index t =? -1)%Z then
        if are_all_jobs_selected t then setSelected [] t else select_all t
      else if (0 <? length (jobs_data t))%nat then
        toggle_selection (row_jobid (row_at t (selected_index t))) t
      else t
  | NormalSlash =>
      mkTerminal 0 (jobs_data t) (selected_jobs t) true (filter_text t)
        (filtered_jobs t) (cursor_pos t) false
  end.

(** The key [1] of normal mode, with the answer to the prompt of
    [confirm_action] and, for each cancelled job, the rows that the refresh
    of [run_command] reads after it: the state after, and the commands
    handed to [run_command], in order. *)
Definition cancel_step (refresh : string -> list string)
  (acc : Terminal * list string) (id : string) : Terminal * list string :=
  (fst (get_jobs (refresh id) (fst acc)), snd acc ++ [("scancel " ++ id)%string]).

Definition cancel_key (confirmed : bool) (refresh : string -> list string) (t : Terminal)
  : Terminal * list string :=
  if (0 <? length (selected_jobs t))%nat then
    if confirmed then
      let r := fold_left (cancel_step refresh) (selected_jobs t) (t, []) in
      (setSelected [] (fst r), snd r)
    else (t, [])
  else if (0 <? length (jobs_data t))%nat then
    if confirmed then
      cancel_step refresh (t, []) (row_jobid (row_at t (selected_index t)))
    else (t, [])
  else (t, []).

(** The keys of regex mode: the keys that the [case] names, and [KeyChar c]
    for the byte [c] typed on its own. *)
Inductive FilterKey :=
| KeyEscape | KeyCtrlC | KeyCtrlW
| KeyLeft | KeyRight | KeyUp | KeyDelete | KeyOtherSequence
| KeyBackspace | KeyEnter
| KeyChar (c : ascii).

(** [[[ $key =~ [[:print:]] ]]] on one byte. *)
Definition isPrint (c : ascii) : bool :=
  let n := nat_of_ascii c in ((32 <=? n) && (n <=? 126))%nat.

(** [read -rsn1 key] under the default [IFS]: a space, a tab or a newline
    that is typed is read as the empty key, which the [case] takes for
    Enter. *)
Definition readsEmpty (c : ascii) : bool :=
  let n := nat_of_ascii c in ((n =? 32) || (n =? 9) || (n =? 10))%nat.

(** [${text:$from}] *)
Definition from_pos (text : string) (from : nat) : string :=
  String.substring from (String.length text) text.

(** Leaving regex mode with Escape, Ctrl+C or Ctrl+W: the flag
    [entered_regex_with_down] is cleared before it is tested. *)
Definition leave_filter (t : Terminal) : Terminal :=
  let t1 := mkTerminal (selected_index t) (jobs_data t) (selected_jobs t) false ""
              (filtered_jobs t) 0 false in
  if entered_regex_with_down t1
  then setIndex (Z.of_nat (length (jobs_data t1)) - 1) t1
  else setIndex 0 t1.

(** The Backspace key. *)
Definition backspace (t : Terminal) : Terminal :=
  if (0 <? cursor_pos t)%nat
  then setLine (String.substring 0 (cursor_pos t - 1) (filter_text t)
                  ++ from_pos (filter_text t) (cursor_pos t))%string
         (cursor_pos t - 1) t
  else t.

(** The [case] of regex mode.  A byte typed on its own goes through the same
    [case] as it is read: a space, a tab or a newline as the empty key and a
    carriage return are taken for Enter, the byte 27 that nothing follows
    for Escape, 3 and 23 for Ctrl+C and Ctrl+W, 127 for Backspace; any other
    byte is inserted when it is printable. *)
Definition filter_key (k : FilterKey) (t : Terminal) : Terminal :=
  match k with
  | KeyEscape | KeyCtrlC | KeyCtrlW => leave_filter t
  | KeyLeft =>
      if (0 <? cursor_pos t)%nat then setLine (filter_text t) (cursor_pos t - 1) t else t
  | KeyRight =>
      if (cursor_pos t <? String.length (filter_text t))%nat
      then setLine (filter_text t) (cursor_pos t + 1) t else t
  | KeyUp =>
      if entered_regex_with_down t then
        mkTerminal (Z.of_nat (length (jobs_data t)) - 1) (jobs_data t) (selected_jobs t)
          false "" (filtered_jobs t) 0 false
      else t
  | KeyDelete =>
      if (cursor_pos t <? String.length (filter_text t))%nat
      then setLine (String.substring 0 (cursor_pos t) (filter_text t)
                      ++ from_pos (filter_text t) (cursor_pos t + 1))%string
             (cursor_pos t) t
      else t
  | KeyOtherSequence => t
  | KeyBackspace => backspace t
  | KeyEnter => filter_enter t
  | KeyChar c =>
      let n := nat_of_ascii c in
      if readsEmpty c || (n =? 13)%nat then filter_enter t
      else if ((n =? 27) || (n =? 3) || (n =? 23))%nat then leave_filter t
      else if (n =? 127)%nat then backspace t
      else if isPrint c
      then setLine (String.substring 0 (cursor_pos t) (filter_text t)
                      ++ String c (from_pos (filter_text t) (cursor_pos t)))%string
             (cursor_pos t + 1) t
      else t
  end.


(** The variables as the script sets them before the loop of [main]. *)
Definition terminal_start : Terminal := mkTerminal 0 [] [] false "" [] 0 false.

(** One turn of the loop of [main] that changes the variables: a refresh of
    the rows, a key of the mode the manager is in, or the key [1]. *)
Inductive step : Terminal -> Terminal -> Prop :=
| step_refresh (new_jobs : list string) (t : Terminal) :
    step t (fst (get_jobs new_jobs t))
| step_normal (k : NormalKey) (t : Terminal) :
    filter_mode t = false -> step t (normal_key k t)
| step_filter (k : FilterKey) (t : Terminal) :
    filter_mode t = true -> step t (filter_key k t)
| step_cancel (confirmed : bool) (refresh : string -> list string) (t : Terminal) :
    filter_mode t = false -> step t (fst (cancel_key confirmed refresh t)).

(** The states the manager can be in. *)
Inductive reachable : Terminal -> Prop :=
| reachable_start : reachable terminal_start
| reachable_step (t t' : Terminal) : reachable t -> step t t' -> reachable t'.

End TerminalKeys.

(** ** A concrete platform, to run the code

    A regular-expression engine for a fragment of the pattern language that
    JavaScript and bash share: literal characters, [.], the anchors [^] and
    [$], groups, [|], and one of [*], [+], [?] after an atom; a backslash
    makes a punctuation character literal.  Every other pattern is reported
    as a syntax error, so the instance is used on patterns of the fragment
    only.  An anchor is matched as a boundary mark around the subject. *)

Module Frag.

Inductive re :=
| Nul | Eps | Lit (c : ascii) | Dot | Bol | Eol | Any
| Cat (r1 r2 : re) | Alt (r1 r2 : re) | Star (r : re).

Inductive sym := Start | Stop | Ch (c : ascii).

Record flags := mkFlags { ignoreCase : bool; dotAll : bool }.

Fixpoint nullable (r : re) : bool :=
  match r with
  | Nul | Lit _ | Dot | Bol | Eol | Any => false
  | Eps | Star _ => true
  | Cat r1 r2 => nullable r1 && nullable r2
  | Alt r1 r2 => nullable r1 || nullable r2
  end.

Definition isLineTerminator (c : ascii) : bool :=
  (nat_of_ascii c =? 10)%nat || (nat_of_ascii c =? 13)%nat.

Definition litMatches (f : flags) (c d : ascii) : bool :=
  if ignoreCase f then Ascii.eqb (Str.lowerAscii c) (Str.lowerAscii d)
  else Ascii.eqb c d.

Fixpoint deriv (f : flags) (x : sym) (r : re) : re :=
  match r with
  | Nul | Eps => Nul
  | Lit c => match x with Ch d => if litMatches f c d then Eps else Nul | _ => Nul end
  | Dot => match x with
           | Ch d => if dotAll f || negb (isLineTerminator d) then Eps else Nul
           | _ => Nul
           end
  | Bol => match x with Start => Eps | _ => Nul end
  | Eol => match x with Stop => Eps | _ => Nul end
  | Any => Eps
  | Cat r1 r2 =>
      if nullable r1 then Alt (Cat (deriv f x r1) r2) (deriv f x r2)
      else Cat (deriv f x r1) r2
  | Alt r1 r2 => Alt (deriv f x r1) (deriv f x r2)
  | Star r1 => Cat (deriv f x r1) (Star r1)
  end.

Fixpoint chars (s : string) : list sym :=
  match s with
  | EmptyString => []
  | String c s' => Ch c :: chars s'
  end.

(** The pattern is searched anywhere in the subject. *)
Definition test (f : flags) (r : re) (s : string) : bool :=
  nullable (fold_left (fun q x => deriv f x q) (Start :: chars s ++ [Stop])
              (Cat (Star Any) (Cat r (Star Any)))).

Definition isSpecial (c : ascii) : bool :=
  existsb (Ascii.eqb c)
    ["("; ")"; "*"; "+"; "?"; "|"; "."; "^"; "$"; "\"; "["; "]"; "{"; "}"]%char.

Definition isAlnum (c : ascii) : bool :=
  let n := nat_of_ascii c in
  ((48 <=? n) && (n <=? 57) || (65 <=? n) && (n <=? 90) || (97 <=? n) && (n <=? 122))%nat.

Inductive level := Alternation | Sequence.

Definition quantified (r : re) (s : list ascii) : re * list ascii :=
  match s with
  | "*"%char :: s1 => (Star r, s1)
  | "+"%char :: s1 => (Cat r (Star r), s1)
  | "?"%char :: s1 => (Alt r Eps, s1)
  | _ => (r, s)
  end.

Fixpoint parse (fuel : nat) (l : level) (s : list ascii) : option (re * list ascii) :=
  match fuel with
  | O => None
  | S fuel' =>
      match l with
      | Alternation =>
          match parse fuel' Sequence s with
          | Some (r1, "|"%char :: s1) =>
              match parse fuel' Alternation s1 with
              | Some (r2, s2) => Some (Alt r1 r2, s2)
              | None => None
              end
          | other => other
          end
      | Sequence =>
          let atom :=
            match s with
            | [] => None
            | c :: s1 =>
                if Ascii.eqb c "(" then
                  match parse fuel' Alternation s1 with
                  | Some (r, ")"%char :: s2) => Some (r, s2)
                  | _ => None
                  end
                else if Ascii.eqb c "." then Some (Dot, s1)
                else if Ascii.eqb c "^" then Some (Bol, s1)
                else if Ascii.eqb c "$" then Some (Eol, s1)
                else if Ascii.eqb c "\" then
                  match s1 with
                  | d :: s2 => if isAlnum d then None else Some (Lit d, s2)
                  | [] => None
                  end
                else if isSpecial c then None
                else Some (Lit c, s1)
            end in
          match atom with
          | None => Some (Eps, s)
          | Some (r, s1) =>
              let '(r1, s2) := quantified r s1 in
              match parse fuel' Sequence s2 with
              | Some (r2, s3) => Some (Cat r1 r2, s3)
              | None => None
              end
          end
      end
  end.

Definition compile (pattern : string) : option re :=
  match parse (3 * String.length pattern + 3) Alternation (list_ascii_of_string pattern) with
  | Some (r, []) => Some r
  | _ => None
  end.

(** JavaScript: the flag [i] ignores case; [.] stops at line terminators. *)
Definition js : RegExpEngine :=
  {| RegExp := flags * re;
     RegExp_new := fun pattern fl =>
       if fl =? "i" then option_map (pair (mkFlags true false)) (compile pattern)
       else if fl =? "" then option_map (pair (mkFlags false false)) (compile pattern)
       else None;
     RegExp_test := fun r s => test (fst r) (snd r) s |}.

(** bash: case matters ([nocasematch] is off in a script that does not set
    it); a pattern that does not compile gives exit status 2. *)
Definition bash : BashRegex :=
  {| regex_match := fun subject pattern =>
       match compile pattern with
       | Some r => test (mkFlags false true) r subject
       | None => false
       end |}.

(** A collation: strings compared byte by byte. *)
Definition bytes : Collator :=
  {| localeCompare := fun a b =>
       match String_as_OT.compare a b with
       | Lt => (-1)%Z
       | Eq => 0%Z
       | Gt => 1%Z
       end |}.

End Frag.

(** ** Concrete inputs *)

Module Run.

(** A scheduler that lists the given lines and knows no final state. *)
Definition slurmOf (lines : list string) : Slurm :=
  mkSlurm "slurm 23.02.1" (Str.join nl lines) (fun _ => Some "").

Definition envOf (lines : list string) (historySize : Z) : Env :=
  mkEnv (fun _ => slurmOf lines) historySize true (fun _ => false).

(** The webview of the extension once its view is resolved. *)
Definition ready : @JobsWebviewProvider Frag.js :=
  @setResolved Frag.js true (@activated Frag.js).

Definition run (evs : list (Env * Event)) (w : @JobsWebviewProvider Frag.js) :=
  @handleAll Frag.js Frag.bytes evs w.

Definition twoRunning : Env :=
  envOf ["1|train|RUNNING|node1|1:00|2024-05-01T10:00:00";
         "2|test|RUNNING|node2|2:00|2024-05-01T10:00:00"] 25.

Definition trainAndEval : Env :=
  envOf ["1|train|RUNNING|node1|1:00|2024-05-01T10:00:00";
         "2|eval|PENDING|(None)|0:00|N/A"] 25.

Definition fiveCompleted : Env :=
  envOf ["1|a|COMPLETED|node1|1:00|2024-05-01T10:00:00";
         "2|b|COMPLETED|node1|1:00|2024-05-01T10:00:00";
         "3|c|COMPLETED|node1|1:00|2024-05-01T10:00:00";
         "4|d|COMPLETED|node1|1:00|2024-05-01T10:00:00";
         "5|e|COMPLETED|node1|1:00|2024-05-01T10:00:00"] 2.

Definition mixedPast : Env :=
  envOf ["1|a|CANCELLED|node1|1:00|2024-05-01T10:00:00";
         "2|b|COMPLETED|node1|1:00|2024-05-01T10:00:00";
         "3|c|FAILED|node1|1:00|2024-05-01T10:00:00"] 25.

(** Job 42 runs, then is gone from the queue while job 43 still runs;
    [sacct] reports it completed. *)
Definition with42 : Env :=
  envOf ["42|answer|RUNNING|node1|1:00|2024-05-01T10:00:00";
         "43|other|RUNNING|node2|1:00|2024-05-01T10:00:00"] 25.

Definition without42 : Env :=
  mkEnv (fun _ => mkSlurm "slurm 23.02.1"
                    "43|other|RUNNING|node2|2:00|2024-05-01T10:00:00"
                    (fun _ => Some "COMPLETED"))
    25 true (fun _ => false).

Definition pageOf (e : Effect) : list JobRow :=
  match e with
  | SetHtml v => displayedRows v
  | _ => []
  end.

Definition isPage (e : Effect) : bool :=
  match e with
  | SetHtml _ => true
  | _ => false
  end.

(** The terminal manager in regex mode over two running jobs whose names
    differ in case only, with [pattern] typed and nothing selected. *)
Definition trainRow : string := "1|gpu|train|RUNNING|1:00|1-00:00:00|1|node1".
Definition upperTrainRow : string := "2|gpu|TRAIN|RUNNING|1:00|1-00:00:00|1|node2".

Definition terminalWith (pattern : string) : Terminal :=
  mkTerminal 0 [trainRow; upperTrainRow] [] true pattern [] 0 false.

(** The same two jobs as the extension polls them. *)
Definition trainTwice : Env :=
  envOf ["1|train|RUNNING|node1|1:00|2024-05-01T10:00:00";
         "2|TRAIN|RUNNING|node2|1:00|2024-05-01T10:00:00"] 25.

End Run.

(** * The vocabulary of the properties *)

(** A computation leaves the part [f] of the state as it was. *)
Definition preserves {S A X : Type} (f : S -> X) (c : M S A) : Prop :=
  forall s, f (stateOf (c s)) = f s.

(** [x] is not after [y] for the comparator [cmp]. *)
Definition leq {A : Type} (cmp : A -> A -> Z) (x y : A) : Prop := (cmp x y <= 0)%Z.

(** The report of a batch kill. *)
Definition isKillAllMessage (e : Effect) : bool :=
  match e with
  | ShowInformationMessage m => String.prefix "[DEV] Would kill jobs " m
  | _ => false
  end.

(** A completion notice about job [id]. *)
Definition isNotificationOf (id : string) (e : Effect) : bool :=
  match e with
  | JobNotification id' _ => id' =? id
  | _ => false
  end.

(** The number of completion notices about job [id] among some effects. *)
Definition notifications (id : string) (effs : list Effect) : nat :=
  length (filter (isNotificationOf id) effs).

(** A stretch of execution that takes the notified set from [N] to [N'] with
    effects [D] is in order for job [id] when it notifies about [id] at most
    once, not at all if [id] was notified before, leaves [id] notified if it
    notified, and forgets no notified job. *)
Definition inOrder (id : string) (N : JsSet.t) (D : list Effect) (N' : JsSet.t) : Prop :=
  (notifications id D <= 1)%nat
  /\ (JsSet.has N id = true -> notifications id D = 0%nat)
  /\ (notifications id D = 1%nat -> JsSet.has N' id = true)
  /\ (forall x, JsSet.has N x = true -> JsSet.has N' x = true).

(** Every run of the computation is in order for job [id]; [nf] reads the
    notified set in the state. *)
Definition notifiesOnce {S A : Type} (nf : S -> JsSet.t) (id : string) (c : M S A) : Prop :=
  forall s, inOrder id (nf s) (effectsOf (c s)) (nf (stateOf (c s))).

Section Vocabulary.
Context {RE : RegExpEngine} {CO : Collator}.

(** The events by which the operator acts on the selection. *)
Definition selectionAction (ev : Event) : bool :=
  match ev with
  | PageMessage (regexEnter _)
  | PageMessage (toggleSelection _ _)
  | PageMessage (selectAllMsg _)
  | PageMessage clearSelectionMsg
  | PageMessage confirmKillAll
  | SelectAllCommand
  | ClearSelectionCommand => true
  | _ => false
  end.

(** The jobs a handler polls first. *)
Definition polled (env : Env) (w : JobsWebviewProvider) : list Job :=
  valueOf (getSlurmJobs (polls env 0) (slurmJobProvider w)).

(** The jobs that wait for the confirmation of their kill. *)
Definition pendingSet (w : JobsWebviewProvider) : JsSet.t :=
  jobsToConfirm (slurmJobProvider w).

(** The jobs whose completion was handled. *)
Definition notified (w : JobsWebviewProvider) : JsSet.t :=
  notifiedJobs (slurmJobProvider w).

(** [localeCompare] orders the strings: any two are comparable, and the
    order is transitive. *)
Definition collates : Prop :=
  (forall a b, (localeCompare a b <= 0)%Z \/ (localeCompare b a <= 0)%Z)
  /\ (forall a b c, (localeCompare a b <= 0)%Z -> (localeCompare b c <= 0)%Z ->
                    (localeCompare a c <= 0)%Z).

(** Job [a] is not after job [b] on the page. *)
Definition jobLe (a b : Job) : Prop := (sortOrder (compareJobs a b) <= 0)%Z.

(** Item [a] is not after item [b] in the tree. *)
Definition itemLe (a b : JobItem) : Prop := (sortOrder (compareItems a b) <= 0)%Z.

(** A status that is not a name inherited from [Object.prototype]: the
    tables give it a number. *)
Definition numbered (s : string) : bool :=
  negb (existsb (String.eqb s) inheritedNames).

(** The status priority of the specification: Running < Completing <
    Pending < Failed < Completed or Finished < every other status. *)
Definition claimedRank (s : string) : Z :=
  if s =? "RUNNING" then 0
  else if s =? "COMPLETING" then 1
  else if s =? "PENDING" then 2
  else if s =? "FAILED" then 3
  else if s =? "FINISHED" then 4
  else if s =? "COMPLETED" then 4
  else 999.

Definition claimedLe (a b : Job) : Prop :=
  (claimedRank (status a) <= claimedRank (status b))%Z.

(** The meaning of the flag [i]: a regex built with it does not tell apart
    two subjects that differ in the case of their letters. *)
Definition ignoresCase : Prop :=
  forall pattern regex,
    RegExp_new pattern "i" = Some regex ->
    forall s s', Str.toLowerCase s = Str.toLowerCase s' ->
                 RegExp_test regex s = RegExp_test regex s'.

(** A highlight regex is absent or was built with the flag [i]. *)
Definition builtWith_i (o : option RegExp) : Prop :=
  match o with
  | None => True
  | Some regex => exists pattern, RegExp_new pattern "i" = Some regex
  end.

End Vocabulary.

(** A computation keeps the property [P] of the state. *)
Definition keeps {S A : Type} (P : S -> Prop) (c : M S A) : Prop :=
  forall s, P s -> P (stateOf (c s)).

(** A string without the space that joins the selection of the terminal
    manager, and an identifier that is such a string and not empty. *)
Fixpoint spaceFree (s : string) : bool :=
  match s with
  | EmptyString => true
  | String c s' => negb (Ascii.eqb c " ") && spaceFree s'
  end.

Definition plainId (id : string) : Prop := id <> "" /\ spaceFree id = true.

(** The rows of the terminal manager carry plain identifiers, each once. *)
Definition plainRows (rows : list string) : Prop :=
  Forall plainId (map row_jobid rows) /\ NoDup (map row_jobid rows).

(** A job as [getSlurmJobs] builds it from a line: no white space around its
    fields, no [(None)] for its nodes, a time of three fields. *)
Definition tidy (job : Job) : Prop :=
  Str.trim (name job) = name job
  /\ Str.trim (jobId job) = jobId job
  /\ Str.trim (status job) = status job
  /\ Str.trim (nodelist job) = nodelist job
  /\ nodelist job <> "(None)"
  /\ Str.trim (startTime job) = startTime job
  /\ length (Str.split ":" (runningTime job)) = 3%nat.

(** The lines of the [squeue] listing that [getSlurmJobs] parses. *)
Definition listedLines (env : Slurm) : list string :=
  filter (fun line => Str.truthy (Str.trim line))
    (Str.split (ascii_of_nat 10) (squeue_out env)).

(** The first field of a line, under which its job is remembered. *)
Definition lineKey (line : string) : string := hd "" (Str.split "|" line).

(** The actions of the page that only look at a job. *)
Definition looksOnly (a : Action) : bool :=
  match a with
  | attach | ssh | peek | viewOutput | viewError | otherAction => true
  | kill | confirmKill | cancelKill | monitor => false
  end.

Definition isJobNotification (e : Effect) : bool :=
  match e with
  | JobNotification _ _ => true
  | _ => false
  end.

(** A visible character of ASCII: printable and not the space. *)
Definition isGraph (c : ascii) : bool :=
  let n := nat_of_ascii c in ((33 <=? n) && (n <=? 126))%nat.

(** The cursor of the regex line is within the text. *)
Definition cursorInText (t : Terminal) : Prop :=
  (cursor_pos t <= String.length (filter_text t))%nat.

(** The rest of a string behind the white-space character it begins with. *)
Definition stripSpace (s : string) : option string :=
  match s with
  | EmptyString => None
  | String a s1 =>
      if Str.isSpace a then Some s1
      else match s1 with
           | EmptyString => None
           | String b s2 =>
               if Str.isSpace2 a b then Some s2
               else match s2 with
                    | EmptyString => None
                    | String c s3 => if Str.isSpace3 a b c then Some s3 else None
                    end
           end
  end.

(** The selection with a space after each identifier. *)
Fixpoint spaced (sel : list string) : string :=
  match sel with
  | [] => ""
  | x :: rest => (x ++ " " ++ spaced rest)%string
  end.

(** What holds of the variables at every turn of the loop of [main]. *)
Definition managerInvariant (t : Terminal) : Prop :=
  (-1 <= selected_index t)%Z
  /\ cursorInText t
  /\ (filter_mode t = false ->
      filter_text t = "" /\ cursor_pos t = 0%nat /\ entered_regex_with_down t = false).

(** Two states of the manager that differ in the rows and the selection
    only. *)
Definition sameLine (t t' : Terminal) : Prop :=
  selected_index t' = selected_index t
  /\ filter_mode t' = filter_mode t
  /\ filter_text t' = filter_text t
  /\ filtered_jobs t' = filtered_jobs t
  /\ cursor_pos t' = cursor_pos t
  /\ entered_regex_with_down t' = entered_regex_with_down t.

Section Reports.
Context {RE : RegExpEngine} {CO : Collator}.

(** Every job the provider remembers is tidy. *)
Definition knownTidy (p : SlurmJobProvider) : Prop :=
  Forall tidy (map snd (JsMap.entries (lastKnownJobs p))).

(** Job [job] and effect [e] are the report of a job that is gone: a job
    last known, not listed now, not notified before, that was running or
    pending and for which [sacct] answered; [job] is that job with the final
    status and [e] the notice about it. *)
Definition reportedGone (env : Slurm) (p : SlurmJobProvider) (cur : JsMap.t Job)
  (job : Job) (e : Effect) : Prop :=
  exists id last out,
    In (id, last) (JsMap.entries (lastKnownJobs p))
    /\ JsMap.has cur id = false
    /\ JsSet.has (notifiedJobs p) id = false
    /\ (status last = "RUNNING" \/ status last = "PENDING")
    /\ sacct_out env id = Some out /\ out <> ""
    /\ job = withStatus last (Str.trim (hd "" (Str.split (ascii_of_nat 10) out)))
    /\ e = JobNotification id
             (completionMessage last id (Str.trim (hd "" (Str.split (ascii_of_nat 10) out)))).

End Reports.

(** ** More runs *)

Module Cases.
Import Run.

(** The provider after a poll that listed jobs 42 and 43. *)
Definition after42 : @SlurmJobProvider Frag.js :=
  stateOf (@getSlurmJobs Frag.js (polls with42 0) (@newProvider Frag.js)).

(** What the poll of [without42] lists, and the jobs it remembers. *)
Definition listed43 : list Job :=
  [mkJob "other" "43" "RUNNING" "node2" "2024-05-01T10:00:00" "00:2:00"].

Definition known43 : JsMap.t Job :=
  [("43", mkJob "other" "43" "RUNNING" "node2" "2024-05-01T10:00:00" "00:2:00")].

(** A listing with a line of three fields. *)
Definition shortListing : Slurm := slurmOf ["1|train|RUNNING"].

(** The terminal manager over the two jobs, in normal mode on the header
    line, with job 2 selected. *)
Definition onHeader : Terminal :=
  mkTerminal (-1) [trainRow; upperTrainRow] ["2"] false "" [] 0 false.

(** Regex mode entered with Down from the start, and one character typed. *)
Definition afterDownAndChar : Terminal :=
  @filter_key Frag.bash (KeyChar "a") (normal_key NormalDown terminal_start).

End Cases.


(** * Properties *)

(** ** Sets *)

Lemma has_app (s t : JsSet.t) (y : string) :
  JsSet.has (s ++ t) y = JsSet.has s y || JsSet.has t y.
Proof. unfold JsSet.has. apply existsb_app. Qed.

Lemma has_In (s : JsSet.t) (y : string) : JsSet.has s y = true <-> In y s.
Proof.
  unfold JsSet.has. rewrite existsb_exists. split.
  - intros [x [Hin Heq]]. apply String.eqb_eq in Heq. now subst.
  - intros Hin. exists y. split; [assumption | apply String.eqb_refl].
Qed.

Lemma has_add (x : string) (s : JsSet.t) (y : string) :
  JsSet.has (JsSet.add x s) y = JsSet.has s y || (x =? y).
Proof.
  unfold JsSet.add. destruct (JsSet.has s x) eqn:Hx.
  - destruct (String.eqb_spec x y) as [->|_].
    + now rewrite Hx.
    + now rewrite orb_false_r.
  - rewrite has_app. simpl. now rewrite orb_false_r, (String.eqb_sym y x).
Qed.

Lemma has_delete (x : string) (s : JsSet.t) (y : string) :
  JsSet.has (JsSet.delete x s) y = JsSet.has s y && negb (x =? y).
Proof.
  unfold JsSet.delete, JsSet.has. induction s as [|z s IH]; simpl.
  - reflexivity.
  - destruct (String.eqb_spec x z) as [->|Hxz]; simpl.
    + rewrite IH. destruct (String.eqb_spec y z) as [->|Hyz]; simpl.
      * rewrite String.eqb_refl. simpl. now rewrite andb_false_r.
      * reflexivity.
    + rewrite IH. destruct (String.eqb_spec y z) as [->|Hyz]; simpl.
      * destruct (String.eqb_spec x z); [contradiction | reflexivity].
      * reflexivity.
Qed.

Lemma has_addAll (xs : list string) (s : JsSet.t) (y : string) :
  JsSet.has (JsSet.addAll xs s) y = JsSet.has s y || JsSet.has xs y.
Proof.
  unfold JsSet.addAll. revert s. induction xs as [|x xs IH]; intros s; simpl.
  - now rewrite orb_false_r.
  - rewrite IH, has_add, (String.eqb_sym y x). now rewrite orb_assoc.
Qed.

Lemma has_deleteAll (xs : list string) (s : JsSet.t) (y : string) :
  JsSet.has (JsSet.deleteAll xs s) y = JsSet.has s y && negb (JsSet.has xs y).
Proof.
  unfold JsSet.deleteAll. revert s. induction xs as [|x xs IH]; intros s; simpl.
  - now rewrite andb_true_r.
  - rewrite IH, has_delete, (String.eqb_sym y x), negb_orb. now rewrite andb_assoc.
Qed.

Lemma add_present (x : string) (s : JsSet.t) :
  JsSet.has s x = true -> JsSet.add x s = s.
Proof. unfold JsSet.add. now intros ->. Qed.

Lemma all_selected_has (selected matching : list string) (x : string) :
  forallb (JsSet.has selected) matching = true ->
  JsSet.has matching x = true -> JsSet.has selected x = true.
Proof.
  intros Hall Hx. apply has_In in Hx.
  rewrite forallb_forall in Hall. now apply Hall.
Qed.

Lemma all_selected_after_add (selected matching : list string) :
  forallb (JsSet.has (JsSet.addAll matching selected)) matching = true.
Proof.
  apply forallb_forall. intros x Hx. rewrite has_addAll.
  apply has_In in Hx. rewrite Hx. apply orb_true_r.
Qed.

Lemma all_selected_after_delete (selected matching : list string) :
  forallb (JsSet.has (JsSet.deleteAll matching selected)) matching
  = match matching with [] => true | _ :: _ => false end.
Proof.
  destruct matching as [|m matching]; [reflexivity |].
  cbn [forallb]. rewrite has_deleteAll.
  replace (JsSet.has (m :: matching) m) with true.
  - now rewrite andb_false_r.
  - symmetry. apply has_In. now left.
Qed.

(** The effect of one bulk toggle on membership. *)
Lemma has_bulkToggle (matching : list string) (selected : JsSet.t) (x : string) :
  JsSet.has (bulkToggle matching selected) x
  = if forallb (JsSet.has selected) matching
    then JsSet.has selected x && negb (JsSet.has matching x)
    else JsSet.has selected x || JsSet.has matching x.
Proof.
  unfold bulkToggle. destruct (forallb (JsSet.has selected) matching).
  - apply has_deleteAll.
  - apply has_addAll.
Qed.

(** The effect of two bulk toggles in a row. *)
Lemma has_bulkToggle_twice (matching : list string) (selected : JsSet.t) (x : string) :
  JsSet.has (bulkToggle matching (bulkToggle matching selected)) x
  = if forallb (JsSet.has selected) matching
    then JsSet.has selected x
    else JsSet.has selected x && negb (JsSet.has matching x).
Proof.
  rewrite has_bulkToggle.
  destruct (forallb (JsSet.has selected) matching) eqn:Hall.
  - unfold bulkToggle at 1. rewrite Hall, all_selected_after_delete.
    destruct matching as [|m matching].
    + unfold bulkToggle. rewrite Hall. cbn. now rewrite andb_true_r.
    + rewrite has_bulkToggle, Hall.
      destruct (JsSet.has (m :: matching) x) eqn:Hx.
      * rewrite (all_selected_has _ _ _ Hall Hx). reflexivity.
      * now rewrite andb_true_r, orb_false_r.
  - unfold bulkToggle at 1. rewrite Hall, all_selected_after_add.
    rewrite has_bulkToggle, Hall.
    destruct (JsSet.has selected x), (JsSet.has matching x); reflexivity.
Qed.

(** ** What a computation leaves alone *)

Lemma preserves_ret {S A X : Type} (f : S -> X) (a : A) : preserves f (ret a).
Proof. intros s. reflexivity. Qed.

Lemma preserves_get {S X : Type} (f : S -> X) : preserves f get.
Proof. intros s. reflexivity. Qed.

Lemma preserves_emit {S X : Type} (f : S -> X) (e : Effect) : preserves f (emit e).
Proof. intros s. reflexivity. Qed.

Lemma preserves_modify {S X : Type} (f : S -> X) (g : S -> S) :
  (forall s, f (g s) = f s) -> preserves f (modify g).
Proof. intros H s. apply H. Qed.

Lemma preserves_bind {S A B X : Type} (f : S -> X) (c : M S A) (k : A -> M S B) :
  preserves f c -> (forall a, preserves f (k a)) -> preserves f (bind c k).
Proof.
  intros Hc Hk s. unfold bind, stateOf.
  specialize (Hc s). unfold stateOf in Hc.
  destruct (c s) as [[a s1] e1]. specialize (Hk a s1). unfold stateOf in Hk.
  destruct (k a s1) as [[b s2] e2]. simpl in *. congruence.
Qed.

Lemma stateOf_triple {S A : Type} (a : A) (s : S) (e : list Effect) :
  stateOf (a, s, e) = s.
Proof. reflexivity. Qed.

Lemma effectsOf_triple {S A : Type} (a : A) (s : S) (e : list Effect) :
  effectsOf (a, s, e) = e.
Proof. reflexivity. Qed.

Lemma modify_state {S : Type} (f : S -> S) (s : S) : stateOf (modify f s) = f s.
Proof. reflexivity. Qed.

Lemma bind_state {S A B : Type} (c : M S A) (k : A -> M S B) (s : S) :
  stateOf (bind c k s) = stateOf (k (valueOf (c s)) (stateOf (c s))).
Proof.
  unfold bind, stateOf, valueOf. destruct (c s) as [[a s1] e1].
  simpl. now destruct (k a s1) as [[b s2] e2].
Qed.

Lemma bind_effects {S A B : Type} (c : M S A) (k : A -> M S B) (s : S) :
  effectsOf (bind c k s)
  = effectsOf (c s) ++ effectsOf (k (valueOf (c s)) (stateOf (c s))).
Proof.
  unfold bind, stateOf, valueOf, effectsOf. destruct (c s) as [[a s1] e1].
  simpl. now destruct (k a s1) as [[b s2] e2].
Qed.

Ltac frame_step :=
  first
    [ apply preserves_ret
    | apply preserves_get
    | apply preserves_emit
    | apply preserves_bind; [| intros ?]
    | apply preserves_modify; intros ?;
      repeat match goal with |- context [if ?b then _ else _] => destruct b end;
      reflexivity
    | match goal with
      | |- preserves _ (if ?b then _ else _) => destruct b
      | |- preserves _ (match ?x with _ => _ end) => destruct x
      end ].

Section Frames.
Context {RE : RegExpEngine} {CO : Collator}.

(** A call on the provider touches no field of the webview provider but
    [slurmJobProvider]. *)
Lemma onProvider_state {A : Type} (c : M SlurmJobProvider A) (w : JobsWebviewProvider) :
  stateOf (onProvider c w) = setProvider (stateOf (c (slurmJobProvider w))) w.
Proof.
  unfold onProvider, zoom, stateOf.
  now destruct (c (slurmJobProvider w)) as [[a p] e].
Qed.

Lemma onProvider_value {A : Type} (c : M SlurmJobProvider A) (w : JobsWebviewProvider) :
  valueOf (onProvider c w) = valueOf (c (slurmJobProvider w)).
Proof.
  unfold onProvider, zoom, valueOf.
  now destruct (c (slurmJobProvider w)) as [[a p] e].
Qed.

Lemma onProvider_effects {A : Type} (c : M SlurmJobProvider A) (w : JobsWebviewProvider) :
  effectsOf (onProvider c w) = effectsOf (c (slurmJobProvider w)).
Proof.
  unfold onProvider, zoom, effectsOf.
  now destruct (c (slurmJobProvider w)) as [[a p] e].
Qed.

Lemma preserves_onProvider {A X : Type} (f : JobsWebviewProvider -> X)
  (c : M SlurmJobProvider A) :
  (forall p w, f (setProvider p w) = f w) -> preserves f (onProvider c).
Proof. intros H w. rewrite onProvider_state. apply H. Qed.

(** The fold of [getSlurmJobs] over the last known jobs, taken apart. *)
Lemma getSlurmJobs_cases (env : Slurm) (p : SlurmJobProvider) :
  getSlurmJobs env p = ([], p, [])
  \/ exists jobs currentJobs,
       let r := fold_left (checkVanished env currentJobs)
                  (JsMap.entries (lastKnownJobs p)) (jobs, notifiedJobs p, []) in
       getSlurmJobs env p
       = (fst (fst r),
          mkProvider (jobsToConfirm p) (filterRegex p) currentJobs (snd (fst r)),
          snd r).
Proof.
  unfold getSlurmJobs.
  destruct (negb (Str.truthy (squeue_version env))); [now left |].
  destruct (negb (Str.truthy (squeue_out env))); [now left |].
  destruct (parseLines _ _) as [[jobs currentJobs]|]; [| now left].
  right. exists jobs, currentJobs. cbv zeta.
  now destruct (fold_left _ _ _) as [[jobs' notified] effs].
Qed.

Lemma getSlurmJobs_jobsToConfirm (env : Slurm) : preserves jobsToConfirm (getSlurmJobs env).
Proof.
  intros p. destruct (getSlurmJobs_cases env p) as [-> | (jobs & cur & ->)]; reflexivity.
Qed.

(** [updateView] polls and writes the page; of the state it changes what
    the poll changes. *)
Lemma updateView_eq (env : Env) (k : nat) (w : JobsWebviewProvider) :
  updateView env k w
  = if negb (resolved w) then (tt, w, [])
    else
      let r := getSlurmJobs (polls env k) (slurmJobProvider w) in
      let w' := setProvider (stateOf r) w in
      (tt, w', effectsOf r ++ [SetHtml (viewOf (jobHistorySize env) w' (valueOf r))]).
Proof.
  unfold updateView, bind, get, ret, emit, onProvider, zoom, stateOf, valueOf, effectsOf.
  destruct (negb (resolved w)); [reflexivity |].
  destruct (getSlurmJobs (polls env k) (slurmJobProvider w)) as [[jobs p] e].
  reflexivity.
Qed.

Lemma preserves_updateView {X : Type} (f : JobsWebviewProvider -> X) (env : Env) (k : nat) :
  (forall p w, f (setProvider p w) = f w) -> preserves f (updateView env k).
Proof.
  intros H w. rewrite updateView_eq. destruct (negb (resolved w)); [reflexivity |].
  cbv zeta. unfold stateOf at 1. simpl. apply H.
Qed.

Lemma updateView_jobsToConfirm (env : Env) (k : nat) :
  preserves (fun w => jobsToConfirm (slurmJobProvider w)) (updateView env k).
Proof.
  intros w. rewrite updateView_eq. destruct (negb (resolved w)); [reflexivity |].
  cbv zeta. unfold stateOf at 1. simpl. apply getSlurmJobs_jobsToConfirm.
Qed.

End Frames.

Ltac frame :=
  repeat first
    [ frame_step
    | apply preserves_onProvider; intros ? ?; reflexivity
    | apply preserves_updateView; intros ? ?; reflexivity ].

(** ** The selection across polls *)

Section Selection.
Context {RE : RegExpEngine} {CO : Collator}.

Lemma handle_keeps_selection (env : Env) (ev : Event) :
  selectionAction ev = false -> preserves selectedJobs (handle env ev).
Proof.
  destruct ev as [ | data | | | | job | scancel job | job | pattern | element ];
    try destruct data; intros H; try discriminate H;
    unfold handle, onDidReceiveMessage, resolveWebviewView, handleAction, viewFile;
    frame.
Qed.

(** C9. Ingesting a new snapshot leaves the selection as it is: the poll
    ([getSlurmJobs]), the redraw that polls ([updateView]) and every event
    that is not an action of the operator on the selection keep
    [selectedJobs], whatever the scheduler answers. *)
Theorem C9_poll_keeps_selection :
  forall (s : Slurm) (env : Env) (k : nat) (ev : Event) (w : JobsWebviewProvider),
    selectedJobs (stateOf (onProvider (getSlurmJobs s) w)) = selectedJobs w
    /\ selectedJobs (stateOf (updateView env k w)) = selectedJobs w
    /\ (selectionAction ev = false ->
        selectedJobs (stateOf (handle env ev w)) = selectedJobs w).
Proof.
  intros s env k ev w. split; [| split].
  - now rewrite onProvider_state.
  - apply preserves_updateView. reflexivity.
  - intros H. now apply handle_keeps_selection.
Qed.

(** Arming the batch kill keeps no copy of the selection: whatever is in
    [selectedJobs] when [confirmKillAll] arrives is what is committed. *)
Lemma confirmKillAll_eq (env : Env) (w : JobsWebviewProvider) :
  onDidReceiveMessage env confirmKillAll w
  = match JsSet.from (selectedJobs w) with
    | [] => (tt, w, [ShowWarningMessage "No jobs selected"])
    | (_ :: _) as jobsToKill =>
        let w' := setConfirmingKillAll false (setSelectedJobs JsSet.empty w) in
        (tt, stateOf (updateView env 0 w'),
         ShowInformationMessage ("[DEV] Would kill jobs " ++ Str.join " " jobsToKill)%string
           :: effectsOf (updateView env 0 w'))
    end.
Proof.
  unfold onDidReceiveMessage, bind, get, emit, modify, stateOf, effectsOf.
  destruct (JsSet.from (selectedJobs w)) as [|j js]; [reflexivity |].
  destruct (updateView env 0 _) as [[[] w2] e2]. reflexivity.
Qed.

Lemma prefix_append (s x : string) : String.prefix s (s ++ x)%string = true.
Proof.
  induction s as [|a s IH]; simpl.
  - now destruct x.
  - destruct (ascii_dec a a); [exact IH | contradiction].
Qed.

Lemma getSlurmJobs_no_message (s : Slurm) (p : SlurmJobProvider) :
  forallb (fun e => negb (isKillAllMessage e)) (effectsOf (getSlurmJobs s p)) = true.
Proof.
  destruct (getSlurmJobs_cases s p) as [-> | (jobs & cur & ->)]; [reflexivity |].
  cbv zeta. unfold effectsOf. cbn [snd].
  assert (G : forall l acc,
             forallb (fun e => negb (isKillAllMessage e)) (snd acc) = true ->
             forallb (fun e => negb (isKillAllMessage e))
               (snd (fold_left (checkVanished s cur) l acc)) = true).
  { induction l as [|[id lastJob] l IH]; intros acc Hacc; [exact Hacc |].
    cbn [fold_left]. apply IH. destruct acc as [[js nf] effs]. cbn [snd] in *.
    unfold checkVanished.
    destruct (negb (JsMap.has cur id) && negb (JsSet.has nf id)); [| exact Hacc].
    destruct ((status lastJob =? "RUNNING") || (status lastJob =? "PENDING")); [| exact Hacc].
    destruct (sacct_out s id) as [out|]; [| exact Hacc].
    destruct (Str.truthy out); [| exact Hacc].
    cbn [snd]. rewrite forallb_app, Hacc. reflexivity. }
  apply G. reflexivity.
Qed.

Lemma updateView_no_message (env : Env) (k : nat) (w : JobsWebviewProvider) :
  forallb (fun e => negb (isKillAllMessage e)) (effectsOf (updateView env k w)) = true.
Proof.
  rewrite updateView_eq. destruct (negb (resolved w)); [reflexivity |].
  cbv zeta. unfold effectsOf at 1. cbn [snd].
  rewrite forallb_app, getSlurmJobs_no_message. reflexivity.
Qed.

(** C1, as the code has it. The batch commits the live selection: after
    [killSelected] armed the batch (which leaves [selectedJobs] as it was),
    and after any events in between, [confirmKillAll] reports the kill of
    exactly the identifiers in [selectedJobs] at that moment, in one message,
    then empties the selection and disarms; with nothing selected at that
    moment it only warns and changes nothing. *)
Theorem C1_confirmKillAll_commits_live_selection :
  forall (env0 env1 : Env) (evs : list (Env * Event)) (w0 : JobsWebviewProvider),
    let armed := stateOf (handle env0 (PageMessage killSelected) w0) in
    let w := stateOf (handleAll evs armed) in
    let r := handle env1 (PageMessage confirmKillAll) w in
    selectedJobs armed = selectedJobs w0
    /\ match JsSet.from (selectedJobs w) with
       | [] => r = (tt, w, [ShowWarningMessage "No jobs selected"])
       | (_ :: _) as live =>
           filter isKillAllMessage (effectsOf r)
           = [ShowInformationMessage ("[DEV] Would kill jobs " ++ Str.join " " live)%string]
           /\ selectedJobs (stateOf r) = JsSet.empty
           /\ isConfirmingKillAll (stateOf r) = false
       end.
Proof.
  intros env0 env1 evs w0 armed w r. split.
  - apply (handle_keeps_selection env0 (PageMessage killSelected)). reflexivity.
  - subst r. cbn [handle]. rewrite confirmKillAll_eq.
    destruct (JsSet.from (selectedJobs w)) as [|j js] eqn:Hsel; [reflexivity |].
    cbv zeta. rewrite stateOf_triple, effectsOf_triple.
    repeat split.
    + cbn [filter isKillAllMessage].
      assert (Hnone : forall l, forallb (fun e => negb (isKillAllMessage e)) l = true ->
                                filter isKillAllMessage l = []).
      { induction l as [|e l IH]; [reflexivity |]. cbn. intros H.
        apply andb_true_iff in H. destruct H as [He Hl].
        destruct (isKillAllMessage e); [discriminate | now apply IH]. }
      rewrite (Hnone _ (updateView_no_message env1 0 _)).
      now rewrite (prefix_append "[DEV] Would kill jobs ").
    + now rewrite (preserves_updateView selectedJobs env1 0 (fun _ _ => eq_refl)).
    + now rewrite (preserves_updateView isConfirmingKillAll env1 0 (fun _ _ => eq_refl)).
Qed.

End Selection.

(** ** The visible set and the bulk toggle *)

Section Visible.
Context {RE : RegExpEngine} {CO : Collator}.

Lemma truthy_nonempty (s : string) : s <> "" -> Str.truthy s = true.
Proof. intros H. unfold Str.truthy. apply String.eqb_neq in H. now rewrite H. Qed.

Lemma regexEnter_selection (env : Env) (value : string) (regex : RegExp)
  (w : JobsWebviewProvider) :
  value <> "" -> RegExp_new value "i" = Some regex ->
  selectedJobs (stateOf (onDidReceiveMessage env (regexEnter value) w))
  = bulkToggle (map jobId (matchingJobs regex (getVisibleJobs w (polled env w))))
      (selectedJobs w).
Proof.
  intros Hv Hre. unfold onDidReceiveMessage, polled.
  rewrite (truthy_nonempty _ Hv), Hre. cbn [negb].
  rewrite bind_state, onProvider_value, onProvider_state.
  rewrite bind_state, modify_state, bind_state, modify_state.
  rewrite (preserves_updateView selectedJobs env 1 (fun _ _ => eq_refl)).
  reflexivity.
Qed.

Lemma selectAll_selection (env : Env) (w : JobsWebviewProvider) :
  selectedJobs (stateOf (selectAll env true w))
  = JsSet.addAll (map jobId (getVisibleJobs w (polled env w))) (selectedJobs w).
Proof.
  unfold selectAll, polled.
  rewrite bind_state, onProvider_value, onProvider_state.
  rewrite bind_state, modify_state.
  rewrite (preserves_updateView selectedJobs env 1 (fun _ _ => eq_refl)).
  reflexivity.
Qed.

(** C6, as the code has it. One bulk toggle removes the matching
    identifiers from the selection when all of them are selected and adds
    them all otherwise.  Two in a row leave the selection with its members
    when all matching identifiers were selected, and without the matching
    ones otherwise; so they restore the members of the selection exactly when
    the matching identifiers were all selected or none of them was.  The
    [regexEnter] handler applies this toggle to the visible jobs whose name
    the pattern matches. *)
Theorem C6_bulkToggle_twice :
  forall (matching : list string) (selected : JsSet.t),
    (forall x,
        JsSet.has (bulkToggle matching selected) x
        = if forallb (JsSet.has selected) matching
          then JsSet.has selected x && negb (JsSet.has matching x)
          else JsSet.has selected x || JsSet.has matching x)
    /\ (forall x,
           JsSet.has (bulkToggle matching (bulkToggle matching selected)) x
           = if forallb (JsSet.has selected) matching
             then JsSet.has selected x
             else JsSet.has selected x && negb (JsSet.has matching x))
    /\ ((forall x, JsSet.has (bulkToggle matching (bulkToggle matching selected)) x
                   = JsSet.has selected x)
        <-> (forallb (JsSet.has selected) matching = true
             \/ forall x, JsSet.has matching x = true -> JsSet.has selected x = false))
    /\ (forall (env : Env) (value : string) (regex : RegExp) (w : JobsWebviewProvider),
           value <> "" -> RegExp_new value "i" = Some regex -> selectedJobs w = selected ->
           map jobId (matchingJobs regex (getVisibleJobs w (polled env w))) = matching ->
           selectedJobs (stateOf (onDidReceiveMessage env (regexEnter value) w))
           = bulkToggle matching selected).
Proof.
  intros matching selected. split; [| split; [| split]].
  - intros x. apply has_bulkToggle.
  - intros x. apply has_bulkToggle_twice.
  - split.
    + intros H. destruct (forallb (JsSet.has selected) matching) eqn:Hall; [now left |].
      right. intros x Hx. specialize (H x).
      rewrite has_bulkToggle_twice, Hall, Hx in H.
      rewrite andb_false_r in H. now symmetry.
    + intros [Hall | Hnone] x; rewrite has_bulkToggle_twice.
      * now rewrite Hall.
      * destruct (forallb (JsSet.has selected) matching); [reflexivity |].
        destruct (JsSet.has matching x) eqn:Hx.
        -- rewrite (Hnone x Hx). reflexivity.
        -- now rewrite andb_true_r.
  - intros env value regex w Hv Hre <- <-. now apply regexEnter_selection.
Qed.

Lemma In_getVisibleJobs (w : JobsWebviewProvider) (jobs : list Job) (job : Job) :
  In job (getVisibleJobs w jobs)
  <-> In job jobs
      /\ (status job = "RUNNING" \/ status job = "COMPLETING"
          \/ (status job = "PENDING" /\ isScheduledJobsExpanded w = true)
          \/ ((status job = "COMPLETED" \/ status job = "FAILED")
              /\ isPastJobsExpanded w = true)).
Proof.
  unfold getVisibleJobs. rewrite !in_app_iff.
  assert (Hpast : existsb (String.eqb (status job)) ["COMPLETED"; "FAILED"] = true
                  <-> status job = "COMPLETED" \/ status job = "FAILED").
  { cbn [existsb]. rewrite orb_false_r, orb_true_iff, !String.eqb_eq. tauto. }
  split.
  - intros [H | [H | H]].
    + apply filter_In in H. destruct H as [Hin H].
      apply orb_true_iff in H. rewrite !String.eqb_eq in H. tauto.
    + destruct (isScheduledJobsExpanded w); [| contradiction].
      apply filter_In in H. destruct H as [Hin H]. apply String.eqb_eq in H. tauto.
    + destruct (isPastJobsExpanded w); [| contradiction].
      apply filter_In in H. destruct H as [Hin H]. apply Hpast in H. tauto.
  - intros [Hin [H | [H | [[H He] | [H He]]]]].
    + left. apply filter_In. split; [assumption |]. rewrite H. reflexivity.
    + left. apply filter_In. split; [assumption |]. rewrite H. reflexivity.
    + right. left. rewrite He. apply filter_In. split; [assumption |].
      rewrite H. reflexivity.
    + right. right. rewrite He. apply filter_In. split; [assumption |].
      now apply Hpast.
Qed.

Lemma has_map_jobId (jobs : list Job) (id : string) :
  JsSet.has (map jobId jobs) id = true <-> exists job, In job jobs /\ jobId job = id.
Proof.
  rewrite has_In, in_map_iff. split; intros [job H]; exists job; tauto.
Qed.

(** X22. The visible set of [getVisibleJobs] is a function of the polled
    jobs and the two expansion flags only: it holds the running and
    completing jobs, the pending jobs exactly when the scheduled section is
    expanded, and the completed and failed jobs exactly when the past section
    is expanded; a job of any other status is never in it.  The bulk toggle
    and select-all work on the visible set of the snapshot they poll: an
    identifier they add is that of a visible job, and a matching job of a
    collapsed section is not among the matching jobs. *)
Theorem getVisibleJobs_by_status :
  forall (env : Env) (w : JobsWebviewProvider) (jobs : list Job),
    (forall w', isScheduledJobsExpanded w' = isScheduledJobsExpanded w ->
                isPastJobsExpanded w' = isPastJobsExpanded w ->
                getVisibleJobs w' jobs = getVisibleJobs w jobs)
    /\ (forall job,
           In job (getVisibleJobs w jobs)
           <-> In job jobs
               /\ (status job = "RUNNING" \/ status job = "COMPLETING"
                   \/ (status job = "PENDING" /\ isScheduledJobsExpanded w = true)
                   \/ ((status job = "COMPLETED" \/ status job = "FAILED")
                       /\ isPastJobsExpanded w = true)))
    /\ (forall regex job,
           In job (matchingJobs regex (getVisibleJobs w jobs)) ->
           In job (getVisibleJobs w jobs))
    /\ (forall value regex id,
           value <> "" -> RegExp_new value "i" = Some regex ->
           JsSet.has (selectedJobs (stateOf (onDidReceiveMessage env (regexEnter value) w))) id = true ->
           JsSet.has (selectedJobs w) id = true
           \/ exists job, In job (getVisibleJobs w (polled env w)) /\ jobId job = id)
    /\ (forall id,
           JsSet.has (selectedJobs (stateOf (selectAll env true w))) id = true ->
           JsSet.has (selectedJobs w) id = true
           \/ exists job, In job (getVisibleJobs w (polled env w)) /\ jobId job = id).
Proof.
  intros env w jobs. split; [| split; [| split; [| split]]].
  - intros w' Hs Hp. unfold getVisibleJobs. now rewrite Hs, Hp.
  - intros job. apply In_getVisibleJobs.
  - intros regex job H. unfold matchingJobs in H. now apply filter_In in H.
  - intros value regex id Hv Hre H.
    rewrite (regexEnter_selection env value regex w Hv Hre), has_bulkToggle in H.
    destruct (forallb _ _).
    + apply andb_true_iff in H. now left.
    + apply orb_true_iff in H. destruct H as [H | H]; [now left | right].
      apply has_map_jobId in H. destruct H as [job [Hin Hid]].
      exists job. split; [| assumption].
      unfold matchingJobs in Hin. now apply filter_In in Hin.
  - intros id H. rewrite selectAll_selection, has_addAll in H.
    apply orb_true_iff in H. destruct H as [H | H]; [now left | right].
    now apply has_map_jobId.
Qed.

End Visible.

(** ** Kill confirmation of one job, and invalid patterns *)

Section Confirmation.
Context {RE : RegExpEngine} {CO : Collator}.

Lemma setJobToConfirm_state (id : string) (p : SlurmJobProvider) :
  jobsToConfirm (stateOf (setJobToConfirm id p)) = JsSet.add id (jobsToConfirm p).
Proof. reflexivity. Qed.

Lemma clearJobToConfirm_state (id : string) (p : SlurmJobProvider) :
  jobsToConfirm (stateOf (clearJobToConfirm id p)) = JsSet.delete id (jobsToConfirm p).
Proof. reflexivity. Qed.

Lemma then_updateView_pending (env : Env) (c : M SlurmJobProvider unit)
  (w : JobsWebviewProvider) :
  pendingSet (stateOf ((onProvider c ;; updateView env 1) w))
  = jobsToConfirm (stateOf (c (slurmJobProvider w))).
Proof.
  rewrite bind_state. unfold pendingSet.
  rewrite (updateView_jobsToConfirm env 1), onProvider_state. reflexivity.
Qed.

Lemma polled_pending (env : Env) (w : JobsWebviewProvider) :
  pendingSet (stateOf (onProvider (getSlurmJobs (polls env 0)) w)) = pendingSet w.
Proof.
  unfold pendingSet. rewrite onProvider_state. cbn [slurmJobProvider setProvider].
  apply getSlurmJobs_jobsToConfirm.
Qed.

Lemma has_delete_same (id : string) (s : JsSet.t) : JsSet.has (JsSet.delete id s) id = false.
Proof. rewrite has_delete, String.eqb_refl. apply andb_false_r. Qed.

Lemma has_add_same (id : string) (s : JsSet.t) : JsSet.has (JsSet.add id s) id = true.
Proof. rewrite has_add, String.eqb_refl. apply orb_true_r. Qed.

(** C8, as the code has it. No handler checks that a job is pending before
    it commits the kill.  For a job of the polled snapshot, [confirmKill]
    reports the kill and leaves the job not pending, whether a [kill] came
    before or not; [kill] makes the job pending and changes nothing of the
    pending set when it already was; [cancelKill] leaves it not pending.  For
    an identifier that is not in the polled snapshot the three actions do
    nothing.  The [confirmKill] command of the tree view runs [scancel] in
    every state. *)
Theorem C8_confirmKill_without_request :
  forall (env : Env) (id : string) (w : JobsWebviewProvider)
         (scancel : option string) (item : JobItem) (p : SlurmJobProvider),
    match find (fun j => jobId j =? id) (polled env w) with
    | Some job =>
        In (ShowInformationMessage ("[DEV] Would kill job " ++ id)%string)
          (effectsOf (handleAction env confirmKill id w))
        /\ JsSet.has (pendingSet (stateOf (handleAction env confirmKill id w))) id = false
        /\ JsSet.has (pendingSet (stateOf (handleAction env kill id w))) id = true
        /\ (JsSet.has (pendingSet w) id = true ->
            pendingSet (stateOf (handleAction env kill id w)) = pendingSet w)
        /\ JsSet.has (pendingSet (stateOf (handleAction env cancelKill id w))) id = false
    | None =>
        forall a,
          pendingSet (stateOf (handleAction env a id w)) = pendingSet w
          /\ effectsOf (handleAction env a id w)
             = effectsOf (getSlurmJobs (polls env 0) (slurmJobProvider w))
    end
    /\ In (Scancel (item_jobId item)) (effectsOf (confirmKillCommand scancel item p))
    /\ isJobToConfirm (stateOf (confirmKillCommand scancel item p)) (item_jobId item) = false.
Proof.
  intros env id w scancel item p. split; [| split].
  - unfold polled.
    destruct (find _ _) as [job|] eqn:Hfind.
    + assert (Hid : jobId job = id).
      { apply find_some in Hfind. now apply String.eqb_eq. }
      assert (Hstate : forall a,
                 stateOf (handleAction env a id w)
                 = stateOf (match a with
                            | kill => onProvider (setJobToConfirm id) ;; updateView env 1
                            | cancelKill => onProvider (clearJobToConfirm id) ;; updateView env 1
                            | confirmKill =>
                                emit (ShowInformationMessage ("[DEV] Would kill job " ++ id)%string) ;;
                                onProvider (clearJobToConfirm id) ;; updateView env 1
                            | _ => handleAction env a id
                            end
                              (match a with
                               | kill | cancelKill | confirmKill =>
                                   stateOf (onProvider (getSlurmJobs (polls env 0)) w)
                               | _ => w
                               end))).
      { intros a. destruct a; try reflexivity;
          unfold handleAction; rewrite bind_state, onProvider_value, Hfind, Hid;
          reflexivity. }
      repeat split.
      * unfold handleAction. rewrite bind_effects, onProvider_value, Hfind, Hid.
        apply in_or_app. right. rewrite bind_effects. now left.
      * rewrite (Hstate confirmKill), bind_state.
        change (stateOf (emit ?e ?s)) with s.
        rewrite then_updateView_pending, clearJobToConfirm_state. apply has_delete_same.
      * rewrite (Hstate kill), then_updateView_pending, setJobToConfirm_state.
        apply has_add_same.
      * intros Hp. rewrite (Hstate kill), then_updateView_pending, setJobToConfirm_state.
        fold (pendingSet (stateOf (onProvider (getSlurmJobs (polls env 0)) w))).
        rewrite polled_pending. now apply add_present.
      * rewrite (Hstate cancelKill), then_updateView_pending, clearJobToConfirm_state.
        apply has_delete_same.
    + intros a. unfold handleAction.
      rewrite bind_state, bind_effects, onProvider_value, Hfind, onProvider_effects.
      split.
      * apply polled_pending.
      * apply app_nil_r.
  - unfold confirmKillCommand. rewrite bind_effects. now left.
  - unfold confirmKillCommand, isJobToConfirm. rewrite bind_state.
    change (stateOf (emit ?e ?s)) with s.
    destruct scancel as [error|]; rewrite bind_state;
      change (stateOf (emit ?e ?s)) with s.
    + rewrite clearJobToConfirm_state. apply has_delete_same.
    + rewrite bind_state. unfold refresh.
      change (stateOf (emit ?e ?s)) with s.
      rewrite clearJobToConfirm_state. apply has_delete_same.
Qed.

(** C3, as the code has it. A pattern the regex constructor rejects
    changes nothing: the two handlers of the page return without a change of
    state, and without any effect, so without a message; [setFilter] of the
    provider leaves its state as it was and shows the error message
    [Invalid regex pattern]. *)
Theorem C3_invalid_pattern :
  forall (env : Env) (value : string) (w : JobsWebviewProvider) (p : SlurmJobProvider),
    value <> "" ->
    RegExp_new value "i" = None ->
    onDidReceiveMessage env (regexChange value) w = (tt, w, [])
    /\ onDidReceiveMessage env (regexEnter value) w = (tt, w, [])
    /\ setFilter (Some value) p = (tt, p, [ShowErrorMessage "Invalid regex pattern"]).
Proof.
  intros env value w p Hv Hre. unfold onDidReceiveMessage, setFilter.
  rewrite (truthy_nonempty _ Hv), Hre. repeat split.
Qed.

End Confirmation.

(** ** Completion notices *)

Lemma notifications_app (id : string) (e1 e2 : list Effect) :
  notifications id (e1 ++ e2) = (notifications id e1 + notifications id e2)%nat.
Proof. unfold notifications. now rewrite filter_app, length_app. Qed.

Lemma inOrder_quiet (id : string) (N : JsSet.t) (D : list Effect) :
  notifications id D = 0%nat -> inOrder id N D N.
Proof. intros H. unfold inOrder. rewrite H. repeat split; auto; discriminate. Qed.

Lemma inOrder_trans (id : string) (N N1 N2 : JsSet.t) (D1 D2 : list Effect) :
  inOrder id N D1 N1 -> inOrder id N1 D2 N2 -> inOrder id N (D1 ++ D2) N2.
Proof.
  intros (Hle1 & Hz1 & Ho1 & Hm1) (Hle2 & Hz2 & Ho2 & Hm2).
  unfold inOrder. rewrite notifications_app. repeat split.
  - destruct (notifications id D1) as [|[|n]] eqn:E1; [lia | | lia].
    rewrite (Hz2 (Ho1 eq_refl)). lia.
  - intros H. rewrite (Hz1 H), (Hz2 (Hm1 _ H)). reflexivity.
  - intros H. destruct (notifications id D1) as [|[|n]] eqn:E1.
    + apply Ho2. lia.
    + apply Hm2, Ho1. reflexivity.
    + lia.
  - intros x H. apply Hm2, Hm1, H.
Qed.

Lemma once_ret {S A : Type} (nf : S -> JsSet.t) (id : string) (a : A) :
  notifiesOnce nf id (ret a).
Proof. intros s. now apply inOrder_quiet. Qed.

Lemma once_get {S : Type} (nf : S -> JsSet.t) (id : string) : notifiesOnce nf id get.
Proof. intros s. now apply inOrder_quiet. Qed.

Lemma once_emit {S : Type} (nf : S -> JsSet.t) (id : string) (e : Effect) :
  isNotificationOf id e = false -> notifiesOnce nf id (emit e).
Proof.
  intros H s. apply inOrder_quiet. unfold emit, effectsOf, notifications. cbn.
  now rewrite H.
Qed.

Lemma once_modify {S : Type} (nf : S -> JsSet.t) (id : string) (g : S -> S) :
  (forall s, nf (g s) = nf s) -> notifiesOnce nf id (modify g).
Proof.
  intros H s. rewrite modify_state, H. now apply inOrder_quiet.
Qed.

Lemma once_bind {S A B : Type} (nf : S -> JsSet.t) (id : string)
  (c : M S A) (k : A -> M S B) :
  notifiesOnce nf id c -> (forall a, notifiesOnce nf id (k a)) ->
  notifiesOnce nf id (bind c k).
Proof.
  intros Hc Hk s. rewrite bind_effects, bind_state.
  eapply inOrder_trans; [apply Hc | apply Hk].
Qed.

Ltac once_step :=
  first
    [ apply once_ret
    | apply once_get
    | apply once_emit; reflexivity
    | apply once_bind; [| intros ?]
    | apply once_modify; intros ?;
      repeat match goal with |- context [if ?b then _ else _] => destruct b end;
      reflexivity
    | match goal with
      | |- notifiesOnce _ _ (if ?b then _ else _) => destruct b
      | |- notifiesOnce _ _ (match ?x with _ => _ end) => destruct x
      end ].

Section Notices.
Context {RE : RegExpEngine} {CO : Collator}.

(** One turn of the loop over the last known jobs. *)
Lemma checkVanished_inOrder (id : string) (env : Slurm) (cur : JsMap.t Job)
  (jobs : list Job) (N : JsSet.t) (E : list Effect) (entry : string * Job) :
  exists D,
    snd (checkVanished env cur (jobs, N, E) entry) = E ++ D
    /\ inOrder id N D (snd (fst (checkVanished env cur (jobs, N, E) entry))).
Proof.
  destruct entry as [id0 lastJob]. unfold checkVanished.
  assert (Hsame : exists D, E = E ++ D /\ inOrder id N D N).
  { exists []. split; [now rewrite app_nil_r | now apply inOrder_quiet]. }
  assert (Hadd : exists D, E = E ++ D /\ inOrder id N D (JsSet.add id0 N)).
  { exists []. split; [now rewrite app_nil_r |].
    unfold inOrder. cbn. repeat split; auto; try discriminate.
    intros x Hx. rewrite has_add, Hx. reflexivity. }
  destruct (JsMap.has cur id0); [exact Hsame |].
  destruct (JsSet.has N id0) eqn:Hnot; [exact Hsame |]. cbn [negb andb].
  destruct ((status lastJob =? "RUNNING") || (status lastJob =? "PENDING")); [| exact Hsame].
  destruct (sacct_out env id0) as [out|]; [| exact Hadd].
  destruct (Str.truthy out); [| exact Hadd].
  cbn [fst snd]. eexists. split; [reflexivity |].
  unfold inOrder, notifications. cbn [filter isNotificationOf].
  destruct (String.eqb_spec id0 id) as [->|Hne]; cbn [length]; repeat split.
  - lia.
  - intros H. congruence.
  - intros _. apply has_add_same.
  - intros x Hx. rewrite has_add, Hx. reflexivity.
  - lia.
  - discriminate.
  - intros x Hx. rewrite has_add, Hx. reflexivity.
Qed.

Lemma vanished_loop_inOrder (id : string) (env : Slurm) (cur : JsMap.t Job)
  (l : list (string * Job)) :
  forall (jobs : list Job) (N : JsSet.t) (E : list Effect),
  exists D,
    snd (fold_left (checkVanished env cur) l (jobs, N, E)) = E ++ D
    /\ inOrder id N D (snd (fst (fold_left (checkVanished env cur) l (jobs, N, E)))).
Proof.
  induction l as [|entry l IH]; intros jobs N E.
  - exists []. split; [cbn; now rewrite app_nil_r | now apply inOrder_quiet].
  - cbn [fold_left].
    destruct (checkVanished_inOrder id env cur jobs N E entry) as (D1 & HE1 & H1).
    destruct (checkVanished env cur (jobs, N, E) entry) as [[jobs1 N1] E1].
    cbn [fst snd] in HE1, H1. subst E1.
    destruct (IH jobs1 N1 (E ++ D1)) as (D2 & HE2 & H2).
    exists (D1 ++ D2). split.
    + now rewrite HE2, app_assoc.
    + eapply inOrder_trans; eassumption.
Qed.

Lemma once_getSlurmJobs (id : string) (env : Slurm) :
  notifiesOnce notifiedJobs id (getSlurmJobs env).
Proof.
  intros p. destruct (getSlurmJobs_cases env p) as [-> | (jobs & cur & ->)].
  - now apply inOrder_quiet.
  - cbv zeta. rewrite effectsOf_triple, stateOf_triple. cbn [notifiedJobs].
    destruct (vanished_loop_inOrder id env cur (JsMap.entries (lastKnownJobs p))
                jobs (notifiedJobs p) []) as (D & HE & H).
    rewrite HE. exact H.
Qed.

Lemma once_onProvider {A : Type} (id : string) (c : M SlurmJobProvider A) :
  notifiesOnce notifiedJobs id c -> notifiesOnce notified id (onProvider c).
Proof.
  intros H w. rewrite onProvider_effects, onProvider_state. apply H.
Qed.

Lemma once_updateView (id : string) (env : Env) (k : nat) :
  notifiesOnce notified id (updateView env k).
Proof.
  unfold updateView. repeat once_step.
  apply once_onProvider, once_getSlurmJobs.
Qed.

Ltac notices :=
  repeat first
    [ once_step
    | apply once_updateView
    | apply once_onProvider
    | apply once_getSlurmJobs ].

Lemma once_handle (id : string) (env : Env) (ev : Event) :
  notifiesOnce notified id (handle env ev).
Proof.
  destruct ev as [ | data | | | | job | scancel job | job | pattern | element ];
    try destruct data;
    unfold handle, onDidReceiveMessage, resolveWebviewView, handleAction, viewFile,
      selectAll, clearSelection, refresh, killJobCommand, confirmKillCommand,
      cancelKillCommand, setFilter, getChildren, setJobToConfirm, clearJobToConfirm,
      refreshJob, refresh;
    notices.
Qed.

Lemma once_handleAll (id : string) (evs : list (Env * Event)) :
  notifiesOnce notified id (handleAll evs).
Proof.
  induction evs as [|[env ev] evs IH]; cbn [handleAll].
  - apply once_ret.
  - apply once_bind; [apply once_handle | intros _; exact IH].
Qed.

(** X23. Over a life of the extension without overlap, in which each
    handler has finished with its polls when the next event is handled,
    whatever the events and the answers of the scheduler, job [id] gets at
    most one completion notice, and none if it is in the notified set at the
    start; no event takes an identifier out of the notified set.  In the loop
    of [getSlurmJobs], a job that left the queue, is not yet notified and was
    running or pending is in the notified set after its turn, whether [sacct]
    answered, answered nothing or failed. *)
Theorem notifies_once_without_overlap :
  forall (id : string) (evs : list (Env * Event)) (w : JobsWebviewProvider)
         (env : Slurm) (cur : JsMap.t Job) (jobs : list Job) (N : JsSet.t)
         (E : list Effect) (lastJob : Job),
    (notifications id (effectsOf (handleAll evs w)) <= 1)%nat
    /\ (JsSet.has (notified w) id = true ->
        notifications id (effectsOf (handleAll evs w)) = 0%nat)
    /\ (forall x, JsSet.has (notified w) x = true ->
                  JsSet.has (notified (stateOf (handleAll evs w))) x = true)
    /\ (notifications id (snd (checkVanished env cur (jobs, N, E) (id, lastJob)))
        <> notifications id E ->
        JsSet.has N id = false)
    /\ (JsMap.has cur id = false -> JsSet.has N id = false ->
        (status lastJob =? "RUNNING") || (status lastJob =? "PENDING") = true ->
        JsSet.has (snd (fst (checkVanished env cur (jobs, N, E) (id, lastJob)))) id = true).
Proof.
  intros id evs w env cur jobs N E lastJob.
  destruct (once_handleAll id evs w) as (Hle & Hz & _ & Hm).
  repeat split; try assumption.
  - intros Hdiff. destruct (JsSet.has N id) eqn:HN; [| reflexivity].
    exfalso. apply Hdiff. unfold checkVanished. rewrite HN.
    now rewrite andb_false_r.
  - intros Hcur HN Hst. unfold checkVanished. rewrite Hcur, HN, Hst. cbn [negb andb].
    destruct (sacct_out env id) as [out|]; [destruct (Str.truthy out) |];
      cbn [fst snd]; apply has_add_same.
Qed.

End Notices.

(** ** Polls in flight *)

Section Flight.
Context {RE : RegExpEngine} {CO : Collator}.

Lemma checkVanished_prefix (env : Slurm) (cur : JsMap.t Job) (jobs : list Job)
  (N : JsSet.t) (E : list Effect) (entry : string * Job) :
  checkVanished env cur (jobs, N, E) entry
  = (fst (fst (checkVanished env cur (jobs, N, []) entry)),
     snd (fst (checkVanished env cur (jobs, N, []) entry)),
     E ++ snd (checkVanished env cur (jobs, N, []) entry)).
Proof.
  destruct entry as [id lastJob]. unfold checkVanished.
  destruct (negb (JsMap.has cur id) && negb (JsSet.has N id));
    [| cbn; now rewrite app_nil_r].
  destruct ((status lastJob =? "RUNNING") || (status lastJob =? "PENDING"));
    [| cbn; now rewrite app_nil_r].
  destruct (sacct_out env id) as [out|]; [| cbn; now rewrite app_nil_r].
  destruct (Str.truthy out); cbn; [reflexivity | now rewrite app_nil_r].
Qed.

Lemma checkVanished_step (env : Slurm) (cur : JsMap.t Job) (jobs : list Job)
  (N : JsSet.t) (id : string) (lastJob : Job) :
  checkVanished env cur (jobs, N, []) (id, lastJob)
  = if negb (JsMap.has cur id) && negb (JsSet.has N id) then
      if (status lastJob =? "RUNNING") || (status lastJob =? "PENDING") then
        match sacct_out env id with
        | Some sacctOutput =>
            if Str.truthy sacctOutput then
              (jobs ++ [withStatus lastJob
                          (Str.trim (hd "" (Str.split (ascii_of_nat 10) sacctOutput)))],
               JsSet.add id N,
               [JobNotification id
                  (completionMessage lastJob id
                     (Str.trim (hd "" (Str.split (ascii_of_nat 10) sacctOutput))))])
            else (jobs, JsSet.add id N, [])
        | None => (jobs, JsSet.add id N, [])
        end
      else (jobs, N, [])
    else (jobs, N, []).
Proof. reflexivity. Qed.

Lemma vanished_loop_prefix (env : Slurm) (cur : JsMap.t Job) (entries : list (string * Job)) :
  forall (jobs : list Job) (N : JsSet.t) (E : list Effect),
    fold_left (checkVanished env cur) entries (jobs, N, E)
    = (fst (fst (fold_left (checkVanished env cur) entries (jobs, N, []))),
       snd (fst (fold_left (checkVanished env cur) entries (jobs, N, []))),
       E ++ snd (fold_left (checkVanished env cur) entries (jobs, N, []))).
Proof.
  induction entries as [|entry entries IH]; intros jobs N E; cbn [fold_left].
  - cbn. now rewrite app_nil_r.
  - rewrite (checkVanished_prefix env cur jobs N E entry).
    destruct (checkVanished env cur (jobs, N, []) entry) as [[j1 N1] E1]. cbn [fst snd].
    rewrite (IH j1 N1 (E ++ E1)), (IH j1 N1 E1). cbn [fst snd].
    now rewrite app_assoc.
Qed.

Lemma bind_ret_l {S A B : Type} (a : A) (k : A -> M S B) (s : S) :
  (x <- ret a ;; k x) s = k a s.
Proof. unfold bind, ret. destruct (k a s) as [[b s'] e]. reflexivity. Qed.

Lemma scanEntries_cons {B : Type} (cur : JsMap.t Job) (jobs : list Job) (id : string)
  (lastJob : Job) (rest : list (string * Job)) (k : Poll -> M SlurmJobProvider B)
  (q : SlurmJobProvider) :
  (poll <- scanEntries cur jobs ((id, lastJob) :: rest) ;; k poll) q
  = if negb (JsMap.has cur id) && negb (JsSet.has (notifiedJobs q) id)
    then if (status lastJob =? "RUNNING") || (status lastJob =? "PENDING")
         then k (AwaitsSacct jobs cur id lastJob rest) q
         else (poll <- scanEntries cur jobs rest ;; k poll) q
    else (poll <- scanEntries cur jobs rest ;; k poll) q.
Proof.
  cbn [scanEntries]. unfold bind at 1 2. unfold get.
  destruct (negb (JsMap.has cur id) && negb (JsSet.has (notifiedJobs q) id)).
  - destruct ((status lastJob =? "RUNNING") || (status lastJob =? "PENDING")).
    + unfold ret. destruct (k _ q) as [[b s'] e]. reflexivity.
    + unfold bind. destruct (scanEntries cur jobs rest q) as [[poll s1] e1].
      destruct (k poll s1) as [[b s2] e2]. reflexivity.
  - unfold bind. destruct (scanEntries cur jobs rest q) as [[poll s1] e1].
    destruct (k poll s1) as [[b s2] e2]. reflexivity.
Qed.

Lemma after_marking {B : Type} (id : string) (c : M SlurmJobProvider B)
  (q : SlurmJobProvider) :
  (markNotified id ;; c) q
  = c (mkProvider (jobsToConfirm q) (filterRegex q) (lastKnownJobs q)
         (JsSet.add id (notifiedJobs q))).
Proof.
  unfold bind, markNotified, modify. destruct (c _) as [[b s] e]. reflexivity.
Qed.

Lemma bind_assoc {S A B C : Type} (c : M S A) (k : A -> M S B) (h : B -> M S C) (s : S) :
  (y <- (x <- c ;; k x) ;; h y) s = (x <- c ;; (y <- k x ;; h y)) s.
Proof.
  unfold bind. destruct (c s) as [[a s1] e1]. destruct (k a s1) as [[b s2] e2].
  destruct (h b s2) as [[d s3] e3]. now rewrite app_assoc.
Qed.

(** The loop resumed without a break is the loop of [getSlurmJobs]. *)
Lemma scanEntries_unbroken (env : Slurm) (cur : JsMap.t Job) (entries : list (string * Job)) :
  forall (fuel : nat) (jobs : list Job) (q : SlurmJobProvider),
    (length entries <= fuel)%nat ->
    (poll <- scanEntries cur jobs entries ;; unbroken env fuel poll) q
    = (fst (fst (fold_left (checkVanished env cur) entries (jobs, notifiedJobs q, []))),
       mkProvider (jobsToConfirm q) (filterRegex q) cur
         (snd (fst (fold_left (checkVanished env cur) entries (jobs, notifiedJobs q, [])))),
       snd (fold_left (checkVanished env cur) entries (jobs, notifiedJobs q, []))).
Proof.
  induction entries as [|[id lastJob] rest IH]; intros fuel jobs q Hfuel.
  - destruct fuel; reflexivity.
  - cbn [length] in Hfuel. destruct fuel as [|fuel]; [lia |].
    assert (Hrest : (length rest <= S fuel)%nat) by lia.
    assert (Hrest' : (length rest <= fuel)%nat) by lia.
    rewrite scanEntries_cons. cbn [fold_left].
    rewrite (checkVanished_step env cur jobs (notifiedJobs q) id lastJob).
    destruct (negb (JsMap.has cur id) && negb (JsSet.has (notifiedJobs q) id));
      [| exact (IH (S fuel) jobs q Hrest)].
    destruct ((status lastJob =? "RUNNING") || (status lastJob =? "PENDING"));
      [| exact (IH (S fuel) jobs q Hrest)].
    cbn [unbroken resume].
    destruct (sacct_out env id) as [out|].
    + destruct (Str.truthy out).
      * rewrite (vanished_loop_prefix env cur rest _ _ [_]). cbn [fst snd].
        rewrite !bind_assoc. unfold bind at 1. unfold emit at 1.
        rewrite bind_assoc, after_marking, IH by exact Hrest'. reflexivity.
      * rewrite bind_assoc, after_marking, IH by exact Hrest'. reflexivity.
    + rewrite bind_assoc, after_marking, IH by exact Hrest'. reflexivity.
Qed.

Lemma unbroken_returned (env : Slurm) (fuel : nat) (jobs : list Job) :
  unbroken env fuel (Returned jobs) = ret jobs.
Proof. destruct fuel; reflexivity. Qed.

(** A call of [getSlurmJobs] that nothing interrupts is [getSlurmJobs]. *)
Lemma unbroken_getSlurmJobs (env : Slurm) (p : SlurmJobProvider) (fuel : nat) :
  (length (JsMap.entries (lastKnownJobs p)) + 2 <= fuel)%nat ->
  unbroken env fuel AwaitsVersion p = getSlurmJobs env p.
Proof.
  intros Hfuel. destruct fuel as [|[|fuel]]; try lia.
  unfold getSlurmJobs.
  change (unbroken env (S (S fuel)) AwaitsVersion)
    with (poll' <- resume env AwaitsVersion ;; unbroken env (S fuel) poll').
  unfold resume at 1.
  destruct (negb (Str.truthy (squeue_version env))); rewrite bind_ret_l; [reflexivity |].
  change (unbroken env (S fuel) AwaitsListing)
    with (poll' <- resume env AwaitsListing ;; unbroken env fuel poll').
  unfold resume at 1.
  destruct (negb (Str.truthy (squeue_out env)));
    [rewrite bind_ret_l; now rewrite unbroken_returned |].
  cbv zeta.
  destruct (parseLines _ JsMap.empty) as [[jobs cur]|];
    [| rewrite bind_ret_l; now rewrite unbroken_returned].
  assert (H : (length (JsMap.entries (lastKnownJobs p)) <= fuel)%nat) by lia.
  rewrite bind_assoc. unfold bind at 1. unfold get at 1.
  rewrite (scanEntries_unbroken env cur (JsMap.entries (lastKnownJobs p)) fuel jobs p H).
  destruct (fold_left (checkVanished env cur) (JsMap.entries (lastKnownJobs p))
              (jobs, notifiedJobs p, [])) as [[j N] E].
  reflexivity.
Qed.

End Flight.

(** ** The order of the lists *)

Section Sorting.
Variable A : Type.
Variable cmp : A -> A -> Z.

(** The elements on which the comparator is an order. *)
Variable ok : A -> bool.

Hypothesis leq_total :
  forall x y, ok x = true -> ok y = true -> leq cmp x y \/ leq cmp y x.
Hypothesis leq_trans :
  forall x y z, ok x = true -> ok y = true -> ok z = true ->
                leq cmp x y -> leq cmp y z -> leq cmp x z.

Lemma insert_perm (x : A) (l : list A) : Permutation (insert cmp x l) (x :: l).
Proof.
  induction l as [|y l IH]; cbn [insert].
  - reflexivity.
  - destruct (cmp x y <=? 0)%Z.
    + reflexivity.
    + rewrite IH. apply perm_swap.
Qed.

Lemma sort_perm (l : list A) : Permutation (sort cmp l) l.
Proof.
  induction l as [|x l IH]; cbn [sort fold_right].
  - reflexivity.
  - fold (sort cmp l). rewrite insert_perm. now apply perm_skip.
Qed.

Lemma insert_sorted (x : A) (l : list A) :
  ok x = true -> forallb ok l = true ->
  StronglySorted (leq cmp) l -> StronglySorted (leq cmp) (insert cmp x l).
Proof.
  intros Hx. induction l as [|y l IH]; cbn [insert forallb]; intros Hok Hl.
  - constructor; constructor.
  - apply andb_true_iff in Hok. destruct Hok as [Hy Hok].
    apply StronglySorted_inv in Hl. destruct Hl as [Hl Hall].
    destruct (Z.leb_spec (cmp x y) 0) as [Hxy | Hxy].
    + constructor.
      * now constructor.
      * constructor; [exact Hxy |].
        rewrite Forall_forall in *. intros z Hz.
        apply (leq_trans x y z Hx Hy); [| exact Hxy | now apply Hall].
        rewrite forallb_forall in Hok. now apply Hok.
    + constructor.
      * now apply IH.
      * apply (Permutation_Forall (Permutation_sym (insert_perm x l))).
        constructor; [| exact Hall].
        destruct (leq_total x y Hx Hy) as [H | H]; [unfold leq in H; lia | exact H].
Qed.

Lemma sort_ok (l : list A) : forallb ok l = true -> forallb ok (sort cmp l) = true.
Proof.
  intros H. apply forallb_forall. intros x Hx.
  rewrite forallb_forall in H. apply H.
  now apply (Permutation_in x (sort_perm l)).
Qed.

Lemma sort_sorted (l : list A) :
  forallb ok l = true -> StronglySorted (leq cmp) (sort cmp l).
Proof.
  induction l as [|x l IH]; cbn [sort fold_right forallb]; intros H.
  - constructor.
  - apply andb_true_iff in H. destruct H as [Hx Hl].
    apply insert_sorted; [exact Hx | now apply sort_ok | now apply IH].
Qed.

End Sorting.

Lemma sorted_filter {A : Type} (R : A -> A -> Prop) (f : A -> bool) (l : list A) :
  StronglySorted R l -> StronglySorted R (filter f l).
Proof.
  induction 1 as [|a l Hl IH Ha]; cbn [filter].
  - constructor.
  - destruct (f a); [| exact IH].
    constructor; [exact IH |].
    rewrite Forall_forall in *. intros x Hx. apply filter_In in Hx. now apply Ha.
Qed.

Lemma sorted_firstn {A : Type} (R : A -> A -> Prop) (n : nat) (l : list A) :
  StronglySorted R l -> StronglySorted R (firstn n l).
Proof.
  intros Hl. revert n. induction Hl as [|a l Hl IH Ha]; intros [|n]; cbn [firstn];
    try constructor.
  - apply IH.
  - rewrite Forall_forall in *. intros x Hx. apply Ha.
    rewrite <- (firstn_skipn n l). apply in_or_app. now left.
Qed.

Lemma filter_perm {A : Type} (f : A -> bool) (l l' : list A) :
  Permutation l l' -> Permutation (filter f l) (filter f l').
Proof.
  induction 1 as [| x l l' H IH | x y l | l l' l'' H1 IH1 H2 IH2]; cbn [filter].
  - constructor.
  - destruct (f x); [now apply perm_skip | exact IH].
  - destruct (f x), (f y); try reflexivity. apply perm_swap.
  - now transitivity (filter f l').
Qed.

Section Order.
Context {RE : RegExpEngine} {CO : Collator}.

Lemma lookup999_numbered (table : list (string * Z)) (s : string) :
  numbered s = true -> exists z, lookup999 table s = Number z.
Proof.
  intros H. unfold lookup999. destruct (find _ table) as [entry|].
  - now exists (snd entry).
  - unfold numbered in H. apply negb_true_iff in H. rewrite H. now exists 999%Z.
Qed.

Lemma statusPriority_numbered (s : string) :
  numbered s = true -> exists z, statusPriority s = Number z.
Proof. apply lookup999_numbered. Qed.

Lemma statusOrder_numbered (s : string) :
  numbered s = true -> exists z, statusOrder s = Number z.
Proof. apply lookup999_numbered. Qed.

Lemma jobLe_iff (a b : Job) (x y : Z) :
  statusPriority (status a) = Number x -> statusPriority (status b) = Number y ->
  jobLe a b
  <-> (x < y)%Z \/ (x = y /\ (localeCompare (name a) (name b) <= 0)%Z).
Proof.
  intros Ha Hb. unfold jobLe, compareJobs. cbv zeta. rewrite Ha, Hb. cbn [minus].
  destruct (Z.eq_dec (x - y) 0) as [E | E].
  - rewrite E. cbn [sortOrder]. lia.
  - destruct (x - y)%Z eqn:D; [contradiction | cbn [sortOrder]; lia ..].
Qed.

Lemma itemLe_iff (a b : JobItem) (x y : Z) :
  statusOrder (item_status a) = Number x -> statusOrder (item_status b) = Number y ->
  itemLe a b
  <-> (x < y)%Z \/ (x = y /\ (localeCompare (label a) (label b) <= 0)%Z).
Proof.
  intros Ha Hb. unfold itemLe, compareItems. cbv zeta. rewrite Ha, Hb.
  cbn [differ minus]. destruct (Z.eqb_spec x y); cbn [negb sortOrder]; lia.
Qed.

Lemma jobLe_total :
  collates ->
  forall a b, numbered (status a) = true -> numbered (status b) = true ->
              jobLe a b \/ jobLe b a.
Proof.
  intros [Htot _] a b Ha Hb.
  destruct (statusPriority_numbered _ Ha) as [x Hx].
  destruct (statusPriority_numbered _ Hb) as [y Hy].
  rewrite (jobLe_iff a b x y Hx Hy), (jobLe_iff b a y x Hy Hx).
  destruct (Htot (name a) (name b)); lia.
Qed.

Lemma jobLe_trans :
  collates ->
  forall a b c, numbered (status a) = true -> numbered (status b) = true ->
                numbered (status c) = true ->
                jobLe a b -> jobLe b c -> jobLe a c.
Proof.
  intros [_ Htr] a b c Ha Hb Hc.
  destruct (statusPriority_numbered _ Ha) as [x Hx].
  destruct (statusPriority_numbered _ Hb) as [y Hy].
  destruct (statusPriority_numbered _ Hc) as [z Hz].
  rewrite (jobLe_iff a b x y Hx Hy), (jobLe_iff b c y z Hy Hz), (jobLe_iff a c x z Hx Hz).
  intros [H1 | [H1 L1]] [H2 | [H2 L2]]; try lia.
  right. split; [lia |]. now apply (Htr _ (name b)).
Qed.

Lemma itemLe_total :
  collates ->
  forall a b, numbered (item_status a) = true -> numbered (item_status b) = true ->
              itemLe a b \/ itemLe b a.
Proof.
  intros [Htot _] a b Ha Hb.
  destruct (statusOrder_numbered _ Ha) as [x Hx].
  destruct (statusOrder_numbered _ Hb) as [y Hy].
  rewrite (itemLe_iff a b x y Hx Hy), (itemLe_iff b a y x Hy Hx).
  destruct (Htot (label a) (label b)); lia.
Qed.

Lemma itemLe_trans :
  collates ->
  forall a b c, numbered (item_status a) = true -> numbered (item_status b) = true ->
                numbered (item_status c) = true ->
                itemLe a b -> itemLe b c -> itemLe a c.
Proof.
  intros [_ Htr] a b c Ha Hb Hc.
  destruct (statusOrder_numbered _ Ha) as [x Hx].
  destruct (statusOrder_numbered _ Hb) as [y Hy].
  destruct (statusOrder_numbered _ Hc) as [z Hz].
  rewrite (itemLe_iff a b x y Hx Hy), (itemLe_iff b c y z Hy Hz), (itemLe_iff a c x z Hx Hz).
  intros [H1 | [H1 L1]] [H2 | [H2 L2]]; try lia.
  right. split; [lia |]. now apply (Htr _ (label b)).
Qed.

Lemma sortedJobs_sorted :
  collates ->
  forall jobs, forallb (fun job => numbered (status job)) jobs = true ->
               StronglySorted jobLe (sortedJobs jobs).
Proof.
  intros H jobs Hjobs.
  apply (sort_sorted Job (fun a b => sortOrder (compareJobs a b))
           (fun job => numbered (status job)) (jobLe_total H) (jobLe_trans H) jobs Hjobs).
Qed.

Lemma rows_jobs (w : JobsWebviewProvider) (jobs : list Job) :
  map row_job (generateJobsHtml w jobs) = jobs.
Proof.
  unfold generateJobsHtml. rewrite map_map. cbn [row_job]. apply map_id.
Qed.

Lemma getChildren_value (env : Slurm) (p : SlurmJobProvider) :
  exists items,
    valueOf (getChildren env None p) = sort (fun a b => sortOrder (compareItems a b)) items
    /\ forall it, In it items ->
          exists job, In job (valueOf (getSlurmJobs env p)) /\ item_status it = status job.
Proof.
  unfold getChildren, bind, get, ret, valueOf.
  destruct (getSlurmJobs env p) as [[jobs p'] e]. cbn. eexists. split; [reflexivity |].
  intros it Hit. apply in_map_iff in Hit. destruct Hit as [job [<- Hjob]].
  exists job. split; [| reflexivity].
  destruct (filterRegex p'); [now apply filter_In in Hjob | exact Hjob].
Qed.

(** C4, as the code has it. The page lists the running section, then the
    scheduled section if it is expanded, then the past section if it is
    expanded.  The running section holds the running and completing jobs of
    the snapshot, the scheduled section the pending jobs, the past section
    the first [jobHistorySize] of all the other jobs.  The table of the page
    ranks Running 0, Pending 1, Completing 2, Failed 3 and every other status
    that is not a name inherited from [Object.prototype] 999, Completed,
    Finished and Cancelled among them; the table of the tree view ranks
    Running 0, Completing 1, Pending 2, Failed 3, Finished and Completed 4,
    and every other such status 999.  When no status of the snapshot is an
    inherited name, each section is in the order of the page, by rank and
    then by name ascending, and the items of the tree view, which has no
    sections, are in the order of the tree, by rank and then by name
    ascending. *)
Theorem C4_sections_in_order :
  collates ->
  forall (historySize : Z) (w : JobsWebviewProvider) (jobs : list Job)
         (env : Slurm) (p : SlurmJobProvider),
    forallb (fun job => numbered (status job)) jobs = true ->
    forallb (fun job => numbered (status job)) (valueOf (getSlurmJobs env p)) = true ->
    let v := viewOf historySize w jobs in
    displayedRows v
    = runningJobs v
        ++ (if isScheduledJobsExpanded w then scheduledJobs v else [])
        ++ (if isPastJobsExpanded w then pastJobs v else [])
    /\ Permutation (map row_job (runningJobs v))
         (filter (fun job => (status job =? "RUNNING") || (status job =? "COMPLETING")) jobs)
    /\ Permutation (map row_job (scheduledJobs v))
         (filter (fun job => status job =? "PENDING") jobs)
    /\ map row_job (pastJobs v)
       = slice0 historySize
           (filter (fun job => negb (status job =? "RUNNING")
                               && negb (status job =? "PENDING")
                               && negb (status job =? "COMPLETING"))
              (sortedJobs jobs))
    /\ StronglySorted jobLe (map row_job (runningJobs v))
    /\ StronglySorted jobLe (map row_job (scheduledJobs v))
    /\ StronglySorted jobLe (map row_job (pastJobs v))
    /\ (statusPriority "RUNNING" = Number 0 /\ statusPriority "PENDING" = Number 1
        /\ statusPriority "COMPLETING" = Number 2 /\ statusPriority "FAILED" = Number 3
        /\ forall s, numbered s = true ->
                     s <> "RUNNING" -> s <> "PENDING" -> s <> "COMPLETING" -> s <> "FAILED" ->
                     statusPriority s = Number 999)
    /\ (forall a b x y,
           statusPriority (status a) = Number x -> statusPriority (status b) = Number y ->
           jobLe a b
           <-> (x < y)%Z \/ (x = y /\ (localeCompare (name a) (name b) <= 0)%Z))
    /\ StronglySorted itemLe (valueOf (getChildren env None p))
    /\ (statusOrder "RUNNING" = Number 0 /\ statusOrder "COMPLETING" = Number 1
        /\ statusOrder "PENDING" = Number 2 /\ statusOrder "FAILED" = Number 3
        /\ statusOrder "FINISHED" = Number 4 /\ statusOrder "COMPLETED" = Number 4
        /\ forall s, numbered s = true ->
                     s <> "RUNNING" -> s <> "COMPLETING" -> s <> "PENDING" -> s <> "FAILED" ->
                     s <> "FINISHED" -> s <> "COMPLETED" ->
                     statusOrder s = Number 999)
    /\ (forall a b x y,
           statusOrder (item_status a) = Number x -> statusOrder (item_status b) = Number y ->
           itemLe a b
           <-> (x < y)%Z \/ (x = y /\ (localeCompare (label a) (label b) <= 0)%Z)).
Proof.
  intros H historySize w jobs env p Hjobs Hpolled v. subst v.
  unfold viewOf, displayedRows.
  cbn [runningJobs scheduledJobs pastJobs scheduledExpanded pastExpanded].
  rewrite !rows_jobs.
  pose proof (sortedJobs_sorted H jobs Hjobs) as Hsorted.
  repeat match goal with |- _ /\ _ => split end; try reflexivity.
  - unfold runningSection. apply filter_perm, sort_perm.
  - unfold scheduledSection. apply filter_perm, sort_perm.
  - unfold runningSection. now apply sorted_filter.
  - unfold scheduledSection. now apply sorted_filter.
  - unfold pastSection, slice0. now apply sorted_firstn, sorted_filter.
  - intros s Hs H1 H2 H3 H4. unfold statusPriority, lookup999. cbn [find fst snd].
    apply String.eqb_neq in H1, H2, H3, H4.
    rewrite (String.eqb_sym "RUNNING"), H1, (String.eqb_sym "PENDING"), H2,
      (String.eqb_sym "COMPLETING"), H3, (String.eqb_sym "FAILED"), H4.
    unfold numbered in Hs. apply negb_true_iff in Hs. now rewrite Hs.
  - apply jobLe_iff.
  - destruct (getChildren_value env p) as [items [-> Hitems]].
    apply (sort_sorted JobItem (fun a b => sortOrder (compareItems a b))
             (fun it => numbered (item_status it)) (itemLe_total H) (itemLe_trans H)).
    apply forallb_forall. intros it Hit. destruct (Hitems it Hit) as [job [Hjob ->]].
    rewrite forallb_forall in Hpolled. now apply Hpolled.
  - intros s Hs H1 H2 H3 H4 H5 H6. unfold statusOrder, lookup999. cbn [find fst snd].
    apply String.eqb_neq in H1, H2, H3, H4, H5, H6.
    rewrite (String.eqb_sym "RUNNING"), H1, (String.eqb_sym "COMPLETING"), H2,
      (String.eqb_sym "PENDING"), H3, (String.eqb_sym "FAILED"), H4,
      (String.eqb_sym "FINISHED"), H5, (String.eqb_sym "COMPLETED"), H6.
    unfold numbered in Hs. apply negb_true_iff in Hs. now rewrite Hs.
  - apply itemLe_iff.
Qed.

End Order.

(** ** What the patterns are matched against *)

Section Matching.
Context {RE : RegExpEngine} {CO : Collator} {BR : BashRegex}.

Lemma handle_keeps_highlight (env : Env) (ev : Event) :
  (forall value, ev <> PageMessage (regexEnter value)) ->
  (forall value, ev <> PageMessage (regexChange value)) ->
  preserves highlightRegex (handle env ev).
Proof.
  intros H1 H2.
  destruct ev as [ | data | | | | job | scancel job | job | pattern | element ];
    try destruct data;
    try (exfalso; eapply H1; reflexivity); try (exfalso; eapply H2; reflexivity);
    unfold handle, onDidReceiveMessage, resolveWebviewView, handleAction, viewFile,
      selectAll, clearSelection;
    frame.
Qed.

Lemma regexChange_highlight (env : Env) (value : string) (w : JobsWebviewProvider) :
  highlightRegex (stateOf (onDidReceiveMessage env (regexChange value) w))
  = if Str.truthy value
    then match RegExp_new value "i" with
         | Some regex => Some regex
         | None => highlightRegex w
         end
    else None.
Proof.
  unfold onDidReceiveMessage. destruct (Str.truthy value).
  - destruct (RegExp_new value "i"); [| reflexivity].
    rewrite bind_state, modify_state.
    now rewrite (preserves_updateView highlightRegex env 0 (fun _ _ => eq_refl)).
  - rewrite bind_state, modify_state.
    now rewrite (preserves_updateView highlightRegex env 0 (fun _ _ => eq_refl)).
Qed.

Lemma regexEnter_highlight (env : Env) (value : string) (w : JobsWebviewProvider) :
  highlightRegex (stateOf (onDidReceiveMessage env (regexEnter value) w))
  = if Str.truthy value
    then match RegExp_new value "i" with
         | Some regex => None
         | None => highlightRegex w
         end
    else None.
Proof.
  unfold onDidReceiveMessage. destruct (Str.truthy value); cbn [negb].
  - destruct (RegExp_new value "i"); [| reflexivity].
    rewrite bind_state, bind_state, bind_state, modify_state.
    now rewrite (preserves_updateView highlightRegex env 1 (fun _ _ => eq_refl)).
  - rewrite bind_state, modify_state.
    now rewrite (preserves_updateView highlightRegex env 0 (fun _ _ => eq_refl)).
Qed.

(** Every highlight regex of a life of the extension was built with [i]. *)
Lemma handle_builtWith_i (env : Env) (ev : Event) (w : JobsWebviewProvider) :
  builtWith_i (highlightRegex w) ->
  builtWith_i (highlightRegex (stateOf (handle env ev w))).
Proof.
  intros Hw.
  assert (Hdec : (exists value, ev = PageMessage (regexEnter value))
                 \/ (exists value, ev = PageMessage (regexChange value))
                 \/ ((forall value, ev <> PageMessage (regexEnter value))
                     /\ (forall value, ev <> PageMessage (regexChange value)))).
  { destruct ev as [ | data | | | | | | | | ]; try (right; right; split; discriminate).
    destruct data; try (right; right; split; discriminate).
    - left. eexists. reflexivity.
    - right. left. eexists. reflexivity. }
  destruct Hdec as [[value ->] | [[value ->] | [H1 H2]]].
  - cbn [handle]. rewrite regexEnter_highlight.
    destruct (Str.truthy value); [| exact I].
    destruct (RegExp_new value "i"); [exact I | exact Hw].
  - cbn [handle]. rewrite regexChange_highlight.
    destruct (Str.truthy value); [| exact I].
    destruct (RegExp_new value "i") eqn:Hre; [| exact Hw].
    exists value. exact Hre.
  - now rewrite (handle_keeps_highlight env ev H1 H2).
Qed.

Lemma handleAll_builtWith_i (evs : list (Env * Event)) (w : JobsWebviewProvider) :
  builtWith_i (highlightRegex w) ->
  builtWith_i (highlightRegex (stateOf (handleAll evs w))).
Proof.
  revert w. induction evs as [|[env ev] evs IH]; intros w Hw; cbn [handleAll].
  - exact Hw.
  - rewrite bind_state. apply IH. now apply handle_builtWith_i.
Qed.

(** C2, as the code has it. In the webview, at any point [w] of a life of
    the extension that began with [activate], the highlight of a row and the
    choice of the matching jobs of a bulk select test the name of the job
    and nothing else, with a regex built with the flag [i]: two jobs whose
    names differ in case only are highlighted alike and matched alike.  In
    the terminal manager, the box drawn in front of a row and the bulk
    select of the Enter key depend on the row through its identifier and its
    name only, and a row whose name the pattern does not match is neither
    marked nor added; the test is the [=~] of bash.  What [apply_filter]
    computes from the whole row is read by neither. *)
Theorem C2_matching_on_name :
  ignoresCase ->
  forall (evs : list (Env * Event)) (value : string) (regex : RegExp)
         (visible : list Job) (t : Terminal) (index : Z) (pattern : string)
         (selected : list string),
    let w := stateOf (handleAll evs activated) in
    RegExp_new value "i" = Some regex ->
    (forall jobs,
        map isHighlighted (generateJobsHtml w jobs)
        = map (fun job => match highlightRegex w with
                          | Some r => RegExp_test r (name job)
                          | None => false
                          end) jobs)
    /\ (forall job job',
           Str.toLowerCase (name job) = Str.toLowerCase (name job') ->
           map isHighlighted (generateJobsHtml w [job])
           = map isHighlighted (generateJobsHtml w [job']))
    /\ (forall job,
           In job (matchingJobs regex visible)
           <-> In job visible /\ RegExp_test regex (name job) = true)
    /\ (forall job job',
           Str.toLowerCase (name job) = Str.toLowerCase (name job') ->
           RegExp_test regex (name job) = RegExp_test regex (name job'))
    /\ (forall job job',
           row_jobid job = row_jobid job' -> row_name job = row_name job' ->
           draw_box t index job = draw_box t index job'
           /\ select_matching pattern selected job = select_matching pattern selected job')
    /\ (forall job,
           regex_match (row_name job) pattern = false ->
           select_matching pattern selected job = selected)
    /\ (forall job,
           filter_mode t = true ->
           regex_match (row_name job) (filter_text t) = false ->
           draw_box t index job <> BoxMarked)
    /\ (forall job,
           draw_box (apply_filter t) index job = draw_box t index job
           /\ selected_jobs (filter_enter (apply_filter t)) = selected_jobs (filter_enter t)).
Proof.
  intros Hi evs value regex visible t index pattern selected w Hre.
  assert (Hw : builtWith_i (highlightRegex w)).
  { apply handleAll_builtWith_i. exact I. }
  repeat match goal with |- _ /\ _ => split end.
  - intros jobs. unfold generateJobsHtml. rewrite map_map. reflexivity.
  - intros job job' Hn. cbn. destruct (highlightRegex w) as [r|]; [| reflexivity].
    destruct Hw as [p Hp]. now rewrite (Hi p r Hp _ _ Hn).
  - intros job. unfold matchingJobs. apply filter_In.
  - intros job job' Hn. now apply (Hi value regex Hre).
  - intros job job' Hid Hn. unfold draw_box, select_matching. now rewrite Hid, Hn.
  - intros job Hno. unfold select_matching. now rewrite Hno.
  - intros job Hmode Hno. unfold draw_box. rewrite Hmode, Hno, andb_false_r.
    destruct (is_selected _ _); discriminate.
  - intros job. split; reflexivity.
Qed.

End Matching.

(** ** The concrete platform meets the assumptions *)

Lemma lowerAscii_idem (c : ascii) : Str.lowerAscii (Str.lowerAscii c) = Str.lowerAscii c.
Proof. destruct c as [[] [] [] [] [] [] [] []]; reflexivity. Qed.

Lemma isLineTerminator_lower (c : ascii) :
  Frag.isLineTerminator (Str.lowerAscii c) = Frag.isLineTerminator c.
Proof. destruct c as [[] [] [] [] [] [] [] []]; reflexivity. Qed.

Lemma deriv_lower (f : Frag.flags) (c : ascii) (r : Frag.re) :
  Frag.ignoreCase f = true ->
  Frag.deriv f (Frag.Ch (Str.lowerAscii c)) r = Frag.deriv f (Frag.Ch c) r.
Proof.
  intros Hf. induction r; cbn [Frag.deriv]; try reflexivity.
  - unfold Frag.litMatches. now rewrite Hf, lowerAscii_idem.
  - now rewrite isLineTerminator_lower.
  - now rewrite IHr1, IHr2.
  - now rewrite IHr1, IHr2.
  - now rewrite IHr.
Qed.

Lemma derivs_lower (f : Frag.flags) (s : string) (tl : list Frag.sym) (q : Frag.re) :
  Frag.ignoreCase f = true ->
  fold_left (fun q x => Frag.deriv f x q) (Frag.chars (Str.toLowerCase s) ++ tl) q
  = fold_left (fun q x => Frag.deriv f x q) (Frag.chars s ++ tl) q.
Proof.
  intros Hf. revert q. induction s as [|c s IH]; intros q; cbn.
  - reflexivity.
  - now rewrite IH, deriv_lower.
Qed.

Lemma test_lower (f : Frag.flags) (r : Frag.re) (s : string) :
  Frag.ignoreCase f = true -> Frag.test f r (Str.toLowerCase s) = Frag.test f r s.
Proof.
  intros Hf. unfold Frag.test. cbn [fold_left]. now rewrite derivs_lower.
Qed.

Lemma js_ignoresCase : @ignoresCase Frag.js.
Proof.
  intros pattern regex Hre s s' Hs. cbn in Hre.
  destruct (Frag.compile pattern) as [r|]; [| discriminate].
  injection Hre as <-. cbn [RegExp_test Frag.js fst snd].
  rewrite <- (test_lower (Frag.mkFlags true false) r s eq_refl).
  rewrite <- (test_lower (Frag.mkFlags true false) r s' eq_refl).
  now rewrite Hs.
Qed.

Lemma bytes_collates : @collates Frag.bytes.
Proof.
  assert (Hle : forall a b, (@localeCompare Frag.bytes a b <= 0)%Z
                            <-> a = b \/ String_as_OT.lt a b).
  { intros a b. cbn. destruct (String_as_OT.compare_spec a b) as [H | H | H].
    - split; [now left | lia].
    - split; [now right | lia].
    - split; [lia |]. intros [-> | H'].
      + exfalso. now apply (StrictOrder_Irreflexive b).
      + exfalso. apply (StrictOrder_Irreflexive a). now transitivity b. }
  split.
  - intros a b. rewrite !Hle.
    destruct (String_as_OT.compare_spec a b) as [H | H | H]; auto.
  - intros a b c. rewrite !Hle. intros [-> | H1] [-> | H2]; auto.
    right. now transitivity b.
Qed.

(** ** Runs on concrete inputs *)

Section Runs.
Import Run.
Local Existing Instance Frag.js.
Local Existing Instance Frag.bytes.
Local Existing Instance Frag.bash.

(** Against C1 as stated. The selection is changed after the batch was
    armed: job 1 is selected when [killSelected] arms the batch, job 2 is
    added, and the confirmation commits both. *)
Lemma C1_selection_changed_after_arming :
  let armed := stateOf (run [(twoRunning, PageMessage (toggleSelection "1" false));
                             (twoRunning, PageMessage killSelected)] ready) in
  let r := run [(twoRunning, PageMessage (toggleSelection "2" false));
                (twoRunning, PageMessage confirmKillAll)] armed in
  isConfirmingKillAll armed = true
  /\ JsSet.from (selectedJobs armed) = ["1"]
  /\ filter isKillAllMessage (effectsOf r)
     = [ShowInformationMessage "[DEV] Would kill jobs 1 2"]
  /\ filter isKillAllMessage (effectsOf r)
     <> [ShowInformationMessage
           ("[DEV] Would kill jobs " ++ Str.join " " (JsSet.from (selectedJobs armed)))%string].
Proof. vm_compute. repeat split; discriminate. Qed.

(** Against C2 as stated. In the terminal manager the pattern [train]
    marks and selects the job named [train] and not the job named [TRAIN];
    the webview selects both. *)
Lemma C2_terminal_matches_case :
  Str.toLowerCase "TRAIN" = Str.toLowerCase "train"
  /\ selected_jobs (filter_enter (terminalWith "train")) = ["1"]
  /\ draw_box (terminalWith "train") 0 trainRow = BoxMarked
  /\ draw_box (terminalWith "train") 1 upperTrainRow = BoxEmpty
  /\ selectedJobs (stateOf (run [(trainTwice, PageMessage (regexEnter "train"))] ready))
     = ["1"; "2"].
Proof. vm_compute. repeat split. Qed.

(** Against C3 as stated. The page sends the invalid pattern of the
    specification: nothing is shown, no message and no redraw. *)
Lemma C3_page_ignores_invalid_pattern :
  RegExp_new "(" "i" = None
  /\ effectsOf (run [(twoRunning, PageMessage (regexChange "("))] ready) = []
  /\ effectsOf (run [(twoRunning, PageMessage (regexEnter "("))] ready) = [].
Proof. vm_compute. repeat split. Qed.

(** Against C4 as stated. A cancelled job named [a] is listed before a
    completed job named [b]. *)
Lemma C4_completed_after_cancelled :
  let r := run [(mixedPast, PageMessage togglePastJobs)] ready in
  let shown := map row_job (concat (map pageOf (effectsOf r))) in
  map (fun job => (name job, status job)) shown
  = [("c", "FAILED"); ("a", "CANCELLED"); ("b", "COMPLETED")]
  /\ ~ StronglySorted claimedLe shown.
Proof.
  cbv zeta. split; [vm_compute; reflexivity |].
  intros H.
  assert (Hs : map status (map row_job (concat (map pageOf
                 (effectsOf (run [(mixedPast, PageMessage togglePastJobs)] ready)))))
               = ["FAILED"; "CANCELLED"; "COMPLETED"]) by (vm_compute; reflexivity).
  remember (map row_job _) as shown eqn:Hshown. clear Hshown.
  destruct shown as [|x [|y [|z [|]]]]; try discriminate Hs.
  injection Hs as Hx Hy Hz.
  apply StronglySorted_inv in H. destruct H as [H _].
  apply StronglySorted_inv in H. destruct H as [_ H].
  apply Forall_inv in H. unfold claimedLe in H. rewrite Hy, Hz in H.
  vm_compute in H. now apply H.
Qed.

(** C5. With a history size of 2, five completed jobs and the past section
    expanded, the page shows two of them, and select-all selects the five:
    [getVisibleJobs] does not apply the cap that [updateView] applies. *)
Theorem C5_selectAll_beyond_history_size :
  let r := run [(fiveCompleted, PageMessage togglePastJobs);
                (fiveCompleted, PageMessage (selectAllMsg true))] ready in
  jobHistorySize fiveCompleted = 2%Z
  /\ map (fun e => map (fun row => jobId (row_job row)) (pageOf e))
       (filter isPage (effectsOf r))
     = [["1"; "2"]; ["1"; "2"]]
  /\ JsSet.from (selectedJobs (stateOf r)) = ["1"; "2"; "3"; "4"; "5"]
  /\ map jobId (getVisibleJobs (stateOf r) (polled fiveCompleted (stateOf r)))
     = ["1"; "2"; "3"; "4"; "5"].
Proof. vm_compute. repeat split. Qed.

(** C7. With the past section expanded, the page lists the cancelled job 1
    among the past jobs, but the visible set of [getVisibleJobs] holds the
    completed job 2 and the failed job 3 only: select-all leaves job 1, which
    is on the page, unselected. *)
Theorem C7_cancelled_job_shown_not_visible :
  let r := run [(mixedPast, PageMessage togglePastJobs);
                (mixedPast, PageMessage (selectAllMsg true))] ready in
  isPastJobsExpanded (stateOf r) = true
  /\ map (fun e => map (fun row => (jobId (row_job row), status (row_job row),
                                    isSelected row)) (pageOf e))
       (filter isPage (effectsOf r))
     = [[("3", "FAILED", false); ("1", "CANCELLED", false); ("2", "COMPLETED", false)];
        [("3", "FAILED", true); ("1", "CANCELLED", false); ("2", "COMPLETED", true)]]
  /\ map jobId (getVisibleJobs (stateOf r) (polled mixedPast (stateOf r))) = ["2"; "3"]
  /\ JsSet.from (selectedJobs (stateOf r)) = ["2"; "3"].
Proof. vm_compute. repeat split. Qed.

(** C10. Two calls of [updateView] in flight at once notify twice.  Jobs 42
    and 43 are known as running; job 42 leaves the queue and [sacct] reports
    it completed.  The page sends [toggleSelection] twice; neither handler
    awaits its [updateView()], so the two polls are in flight together: both
    find job 42 gone and not yet notified before either has the answer of
    [sacct], and each shows the notice.  The same two messages handled one
    after the other, the first poll finished before the second message,
    show it once. *)
Theorem C10_overlapping_polls_notify_twice :
  let known := stateOf (run [(with42, ViewResolved)] activated) in
  let gone := polls without42 0 in
  let overlapped :=
    turns 25 [Toggle "43" false; Toggle "43" false;
              Answer 0 gone; Answer 1 gone; Answer 0 gone; Answer 1 gone;
              Answer 0 gone; Answer 0 gone] [] known in
  let oneByOne := run [(without42, PageMessage (toggleSelection "43" false));
                       (without42, PageMessage (toggleSelection "43" false))] known in
  JsSet.has (notified known) "42" = false
  /\ filter isJobNotification (effectsOf overlapped)
     = [JobNotification "42" "Job answer (42) has completed";
        JobNotification "42" "Job answer (42) has completed"]
  /\ notifications "42" (effectsOf overlapped) = 2%nat
  /\ valueOf overlapped = []
  /\ notifications "42" (effectsOf oneByOne) = 1%nat.
Proof. vm_compute. repeat split. Qed.

(** Against C6 as stated. Job 1 of two matching jobs is selected: two bulk
    toggles in a row leave nothing selected. *)
Lemma C6_partly_selected_not_restored :
  let w := stateOf (run [(twoRunning, PageMessage (toggleSelection "1" false))] ready) in
  let once := stateOf (run [(twoRunning, PageMessage (regexEnter "t"))] w) in
  let twice := stateOf (run [(twoRunning, PageMessage (regexEnter "t"))] once) in
  selectedJobs w = ["1"]
  /\ selectedJobs once = ["1"; "2"]
  /\ selectedJobs twice = []
  /\ selectedJobs twice <> selectedJobs w.
Proof. vm_compute. repeat split; discriminate. Qed.

(** Against C8 as stated. No kill was requested for job 1: the page's
    [confirmKill] reports the kill, and the [confirmKill] command runs
    [scancel]. *)
Lemma C8_confirm_without_request :
  let item := mkJobItem "train" "1" "RUNNING" "node1" "1:00" false in
  pendingSet ready = []
  /\ filter (fun e => negb (isPage e))
       (effectsOf (run [(twoRunning, PageMessage (actionMsg confirmKill "1"))] ready))
     = [ShowInformationMessage "[DEV] Would kill job 1"; FireTreeDataChange]
  /\ effectsOf (run [(twoRunning, ConfirmKillCommand None item)] activated)
     = [Scancel "1"; ShowInformationMessage "Successfully cancelled job 1";
        FireTreeDataChange; FireTreeDataChange].
Proof. vm_compute. repeat split. Qed.

(** [apply_filter] tests the whole packed row: the pattern [RUNNING]
    matches no name and keeps both rows. *)
Example apply_filter_whole_row :
  filtered_jobs (apply_filter (terminalWith "RUNNING")) = [trainRow; upperTrainRow]
  /\ selected_jobs (filter_enter (terminalWith "RUNNING")) = [].
Proof. vm_compute. repeat split. Qed.

(** The scenarios of the specification that the code meets. *)

Example visible_by_default :
  selectedJobs (stateOf (run [(trainAndEval, PageMessage (regexEnter "^tr"))] ready)) = ["1"]
  /\ selectedJobs (stateOf (run [(trainAndEval, PageMessage (regexEnter "."))] ready)) = ["1"]
  /\ selectedJobs (stateOf (run [(trainAndEval, PageMessage toggleScheduledJobs);
                                 (trainAndEval, PageMessage (regexEnter "."))] ready))
     = ["1"; "2"].
Proof. vm_compute. repeat split. Qed.

Example selected_42_outlives_its_job :
  let r := run [(with42, PageMessage (toggleSelection "42" false));
                (without42, PageMessage cancelKillAll);
                (without42, PageMessage cancelKillAll)] ready in
  selectedJobs (stateOf r) = ["42"]
  /\ filter (fun e => negb (isPage e)) (effectsOf r)
     = [JobNotification "42" "Job answer (42) has completed"]
  /\ notified (stateOf r) = ["42"].
Proof. vm_compute. repeat split. Qed.

(** The assumptions of the theorems hold on the concrete platform. *)

Lemma C3_invalid_pattern_witness :
  "(" <> ""
  /\ RegExp_new "(" "i" = None
  /\ onDidReceiveMessage twoRunning (regexChange "(") ready = (tt, ready, [])
  /\ onDidReceiveMessage twoRunning (regexEnter "(") ready = (tt, ready, [])
  /\ setFilter (Some "(") newProvider
     = (tt, newProvider, [ShowErrorMessage "Invalid regex pattern"]).
Proof.
  split; [discriminate |]. split; [reflexivity |].
  apply (C3_invalid_pattern twoRunning "(" ready newProvider);
    [discriminate | reflexivity].
Defined.

Lemma C4_sections_in_order_witness :
  collates
  /\ forallb (fun job => numbered (status job)) (polled mixedPast ready) = true
  /\ forallb (fun job => numbered (status job))
       (valueOf (getSlurmJobs (polls mixedPast 0) newProvider)) = true
  /\ StronglySorted jobLe
       (map row_job (pastJobs (viewOf 25 ready (polled mixedPast ready))))
  /\ StronglySorted itemLe (valueOf (getChildren (polls mixedPast 0) None newProvider)).
Proof.
  split; [exact bytes_collates |]. split; [reflexivity |]. split; [reflexivity |].
  pose proof (C4_sections_in_order bytes_collates 25 ready (polled mixedPast ready)
                (polls mixedPast 0) newProvider eq_refl eq_refl) as H.
  cbv zeta in H. split; [apply H | apply H].
Defined.

Lemma C2_matching_on_name_witness :
  ignoresCase
  /\ RegExp_new "train" "i" = Some (Frag.mkFlags true false,
                                    Frag.Cat (Frag.Lit "t") (Frag.Cat (Frag.Lit "r")
                                      (Frag.Cat (Frag.Lit "a") (Frag.Cat (Frag.Lit "i")
                                        (Frag.Cat (Frag.Lit "n") Frag.Eps)))))
  /\ forall job job',
       Str.toLowerCase (name job) = Str.toLowerCase (name job') ->
       map isHighlighted
         (generateJobsHtml
            (stateOf (handleAll [(trainTwice, PageMessage (regexChange "train"))] activated))
            [job])
       = map isHighlighted
           (generateJobsHtml
              (stateOf (handleAll [(trainTwice, PageMessage (regexChange "train"))] activated))
              [job']).
Proof.
  split; [exact js_ignoresCase |]. split; [reflexivity |].
  apply (C2_matching_on_name js_ignoresCase
           [(trainTwice, PageMessage (regexChange "train"))] "train" _ []
           (terminalWith "train") 0 "train" [] eq_refl).
Defined.

End Runs.

(** * Further properties *)

(** ** The selection of the webview *)

Section MoreSelection.
Context {RE : RegExpEngine} {CO : Collator}.

Lemma toggleSelection_state (env : Env) (id : string) (force : bool)
  (w : JobsWebviewProvider) :
  selectedJobs (stateOf (onDidReceiveMessage env (toggleSelection id force) w))
  = if force then JsSet.add id (selectedJobs w)
    else if JsSet.has (selectedJobs w) id then JsSet.delete id (selectedJobs w)
         else JsSet.add id (selectedJobs w).
Proof.
  unfold onDidReceiveMessage. rewrite bind_state, modify_state.
  rewrite (preserves_updateView selectedJobs env 0 (fun _ _ => eq_refl)).
  destruct force; [reflexivity |].
  destruct (JsSet.has (selectedJobs w) id); reflexivity.
Qed.

(** X1. A click on a job flips its membership in the selection and leaves
    the other jobs as they are; a second click restores the membership of
    every job, whatever was polled in between.  A forced selection (a
    shift-click range) adds the job, and doing it again changes nothing. *)
Theorem toggleSelection_flips :
  forall (env1 env2 : Env) (id x : string) (w : JobsWebviewProvider),
    let once := stateOf (onDidReceiveMessage env1 (toggleSelection id false) w) in
    let twice := stateOf (onDidReceiveMessage env2 (toggleSelection id false) once) in
    let forced := stateOf (onDidReceiveMessage env1 (toggleSelection id true) w) in
    JsSet.has (selectedJobs once) x
    = (if x =? id then negb (JsSet.has (selectedJobs w) x) else JsSet.has (selectedJobs w) x)
    /\ JsSet.has (selectedJobs twice) x = JsSet.has (selectedJobs w) x
    /\ JsSet.has (selectedJobs forced) x = JsSet.has (selectedJobs w) x || (x =? id)
    /\ selectedJobs (stateOf (onDidReceiveMessage env2 (toggleSelection id true) forced))
       = selectedJobs forced.
Proof.
  intros env1 env2 id x w once twice forced.
  assert (Honce : JsSet.has (selectedJobs once) x
                  = (if x =? id then negb (JsSet.has (selectedJobs w) x)
                     else JsSet.has (selectedJobs w) x)).
  { subst once. rewrite toggleSelection_state.
    destruct (JsSet.has (selectedJobs w) id) eqn:Hid.
    - rewrite has_delete, (String.eqb_sym id x).
      destruct (String.eqb_spec x id) as [->|_].
      + now rewrite Hid.
      + apply andb_true_r.
    - rewrite has_add, (String.eqb_sym id x).
      destruct (String.eqb_spec x id) as [->|_].
      + now rewrite Hid.
      + apply orb_false_r. }
  assert (Hid1 : JsSet.has (selectedJobs once) id = negb (JsSet.has (selectedJobs w) id)).
  { subst once. rewrite toggleSelection_state.
    destruct (JsSet.has (selectedJobs w) id) eqn:Hid.
    - cbn [negb]. apply has_delete_same.
    - cbn [negb]. apply has_add_same. }
  repeat split.
  - exact Honce.
  - subst twice. rewrite toggleSelection_state, Hid1.
    destruct (JsSet.has (selectedJobs w) id) eqn:Hid; cbn [negb].
    + rewrite has_add, Honce, (String.eqb_sym id x).
      destruct (String.eqb_spec x id) as [->|_].
      * rewrite Hid. reflexivity.
      * apply orb_false_r.
    + rewrite has_delete, Honce, (String.eqb_sym id x).
      destruct (String.eqb_spec x id) as [->|_].
      * rewrite Hid. reflexivity.
      * apply andb_true_r.
  - subst forced. rewrite toggleSelection_state, has_add, (String.eqb_sym id x).
    reflexivity.
  - subst forced. rewrite !toggleSelection_state. apply add_present, has_add_same.
Qed.

Lemma selection_after_clear (env : Env) (w : JobsWebviewProvider) :
  selectedJobs (stateOf (clearSelection env w)) = JsSet.empty.
Proof.
  unfold clearSelection. rewrite bind_state, modify_state.
  now rewrite (preserves_updateView selectedJobs env 0 (fun _ _ => eq_refl)).
Qed.

Lemma selection_after_deselectAll (env : Env) (w : JobsWebviewProvider) :
  selectedJobs (stateOf (selectAll env false w)) = JsSet.empty.
Proof.
  unfold selectAll. rewrite bind_state, bind_state, modify_state.
  now rewrite (preserves_updateView selectedJobs env 1 (fun _ _ => eq_refl)).
Qed.

(** X2. Select-all leaves every job of the visible set of the polled
    snapshot selected and keeps what was selected before, so also the jobs
    that are no longer visible or no longer exist; deselect-all and
    [clearSelection] empty the selection, whatever is visible, and leave an
    armed batch kill armed. *)
Theorem selectAll_covers_visible :
  forall (env : Env) (w : JobsWebviewProvider),
    let w' := stateOf (selectAll env true w) in
    forallb (fun job => JsSet.has (selectedJobs w') (jobId job))
      (getVisibleJobs w (polled env w)) = true
    /\ (forall x, JsSet.has (selectedJobs w) x = true -> JsSet.has (selectedJobs w') x = true)
    /\ selectedJobs (stateOf (selectAll env false w)) = JsSet.empty
    /\ selectedJobs (stateOf (clearSelection env w)) = JsSet.empty
    /\ isConfirmingKillAll (stateOf (selectAll env false w)) = isConfirmingKillAll w
    /\ isConfirmingKillAll (stateOf (clearSelection env w)) = isConfirmingKillAll w.
Proof.
  intros env w w'. subst w'. repeat split.
  - apply forallb_forall. intros job Hjob.
    rewrite selectAll_selection, has_addAll.
    replace (JsSet.has (map jobId _) (jobId job)) with true; [apply orb_true_r |].
    symmetry. apply has_In. now apply in_map.
  - intros x Hx. now rewrite selectAll_selection, has_addAll, Hx.
  - apply selection_after_deselectAll.
  - apply selection_after_clear.
  - assert (H : preserves isConfirmingKillAll (selectAll env false))
      by (unfold selectAll; frame).
    apply H.
  - assert (H : preserves isConfirmingKillAll (clearSelection env))
      by (unfold clearSelection; frame).
    apply H.
Qed.

End MoreSelection.

(** ** Monitoring, sections and the batch kill *)

Section MorePage.
Context {RE : RegExpEngine} {CO : Collator}.

Lemma monitorSelected_state (env : Env) (w : JobsWebviewProvider) :
  monitoredJobs (stateOf (onDidReceiveMessage env monitorSelected w))
  = match JsSet.from (selectedJobs w) with
    | [] => monitoredJobs w
    | (_ :: _) as selected =>
        if forallb (JsSet.has (monitoredJobs w)) selected
        then JsSet.deleteAll selected (monitoredJobs w)
        else JsSet.addAll selected (monitoredJobs w)
    end.
Proof.
  unfold onDidReceiveMessage. rewrite bind_state. cbn [get valueOf stateOf fst snd].
  destruct (JsSet.from (selectedJobs w)) as [|j js] eqn:Hsel; [reflexivity |].
  rewrite bind_state.
  rewrite (preserves_updateView monitoredJobs env 0 (fun _ _ => eq_refl)).
  destruct (forallb (JsSet.has (monitoredJobs w)) (j :: js));
    rewrite bind_state, modify_state; reflexivity.
Qed.

(** X3. The monitor button of the selection is all-or-nothing: after it,
    the selected jobs are all monitored, or none of them is when all were
    monitored before; the jobs outside the selection keep their monitoring
    and the selection is as before.  With nothing selected nothing changes
    but a warning. *)
Theorem monitorSelected_all_or_nothing :
  forall (env : Env) (w : JobsWebviewProvider),
    let w' := stateOf (onDidReceiveMessage env monitorSelected w) in
    let selected := JsSet.from (selectedJobs w) in
    (forall x, JsSet.has selected x = true ->
               JsSet.has (monitoredJobs w') x
               = negb (forallb (JsSet.has (monitoredJobs w)) selected))
    /\ (forall x, JsSet.has selected x = false ->
                  JsSet.has (monitoredJobs w') x = JsSet.has (monitoredJobs w) x)
    /\ selectedJobs w' = selectedJobs w
    /\ (selected = [] ->
        onDidReceiveMessage env monitorSelected w
        = (tt, w, [ShowWarningMessage "No jobs selected"])).
Proof.
  intros env w w' selected. subst w' selected. repeat split.
  - intros x Hx. rewrite monitorSelected_state.
    destruct (JsSet.from (selectedJobs w)) as [|j js] eqn:Hsel; [discriminate Hx |].
    cbv iota beta zeta.
    destruct (forallb (JsSet.has (monitoredJobs w)) (j :: js)) eqn:Hall; cbn [negb].
    + rewrite has_deleteAll, Hx. apply andb_false_r.
    + rewrite has_addAll, Hx. apply orb_true_r.
  - intros x Hx. rewrite monitorSelected_state.
    destruct (JsSet.from (selectedJobs w)) as [|j js] eqn:Hsel; [reflexivity |].
    cbv iota beta zeta.
    destruct (forallb (JsSet.has (monitoredJobs w)) (j :: js)).
    + rewrite has_deleteAll, Hx. apply andb_true_r.
    + rewrite has_addAll, Hx. apply orb_false_r.
  - apply (handle_keeps_selection env (PageMessage monitorSelected)). reflexivity.
  - intros Hsel. unfold onDidReceiveMessage, bind, get, emit. now rewrite Hsel.
Qed.

Lemma filter_filter {A : Type} (f g : A -> bool) (l : list A) :
  filter f (filter g l) = filter (fun x => g x && f x) l.
Proof.
  induction l as [|x l IH]; cbn; [reflexivity |].
  destruct (g x); cbn; [destruct (f x) |]; now rewrite IH.
Qed.

Lemma filter_none {A : Type} (f : A -> bool) (l : list A) :
  (forall x, f x = false) -> filter f l = [].
Proof.
  intros H. induction l as [|x l IH]; cbn; [reflexivity |]. now rewrite H.
Qed.

(** X4. The visible set with a section collapsed is the visible set with
    that section expanded, without the jobs of the section and in the same
    order; the running and completing jobs come first in either case.  The
    message that toggles a section flips its flag and leaves the other flag
    and the selection alone, so a selected job of a collapsed section stays
    selected. *)
Theorem collapse_removes_section :
  forall (env : Env) (w : JobsWebviewProvider) (jobs : list Job),
    getVisibleJobs (setScheduledJobsExpanded false w) jobs
    = filter (fun job => negb (status job =? "PENDING"))
        (getVisibleJobs (setScheduledJobsExpanded true w) jobs)
    /\ getVisibleJobs (setPastJobsExpanded false w) jobs
       = filter (fun job => negb ((status job =? "COMPLETED") || (status job =? "FAILED")))
           (getVisibleJobs (setPastJobsExpanded true w) jobs)
    /\ (exists rest,
           getVisibleJobs w jobs
           = filter (fun job => (status job =? "RUNNING") || (status job =? "COMPLETING")) jobs
               ++ rest)
    /\ (let w' := stateOf (onDidReceiveMessage env toggleScheduledJobs w) in
        isScheduledJobsExpanded w' = negb (isScheduledJobsExpanded w)
        /\ isPastJobsExpanded w' = isPastJobsExpanded w
        /\ selectedJobs w' = selectedJobs w)
    /\ (let w' := stateOf (onDidReceiveMessage env togglePastJobs w) in
        isPastJobsExpanded w' = negb (isPastJobsExpanded w)
        /\ isScheduledJobsExpanded w' = isScheduledJobsExpanded w
        /\ selectedJobs w' = selectedJobs w).
Proof.
  intros env w jobs.
  assert (Hpast : forall job,
             existsb (String.eqb (status job)) ["COMPLETED"; "FAILED"]
             = (status job =? "COMPLETED") || (status job =? "FAILED")).
  { intros job. cbn. now rewrite orb_false_r. }
  repeat split.
  - unfold getVisibleJobs.
    cbn [isScheduledJobsExpanded isPastJobsExpanded setScheduledJobsExpanded].
    rewrite !filter_app, !filter_filter.
    rewrite (filter_none (fun x => (status x =? "PENDING") && negb (status x =? "PENDING")))
      by (intros x; apply andb_negb_r).
    f_equal.
    + apply filter_ext. intros job.
      destruct (String.eqb_spec (status job) "PENDING") as [->|_]; [reflexivity |].
      now rewrite andb_true_r.
    + cbn [app]. destruct (isPastJobsExpanded w); [| reflexivity].
      rewrite filter_filter. apply filter_ext. intros job. rewrite Hpast.
      destruct (String.eqb_spec (status job) "PENDING") as [->|_]; [reflexivity |].
      now rewrite andb_true_r.
  - unfold getVisibleJobs.
    cbn [isScheduledJobsExpanded isPastJobsExpanded setPastJobsExpanded].
    rewrite !filter_app, !filter_filter.
    rewrite (filter_none
               (fun x => existsb (String.eqb (status x)) ["COMPLETED"; "FAILED"]
                         && negb ((status x =? "COMPLETED") || (status x =? "FAILED"))))
      by (intros x; rewrite Hpast; apply andb_negb_r).
    rewrite !app_nil_r. f_equal.
    + apply filter_ext. intros job.
      destruct (String.eqb_spec (status job) "RUNNING") as [->|_]; [reflexivity |].
      destruct (String.eqb_spec (status job) "COMPLETING") as [->|_]; reflexivity.
    + destruct (isScheduledJobsExpanded w); [| reflexivity].
      rewrite filter_filter. apply filter_ext. intros job.
      destruct (String.eqb_spec (status job) "PENDING") as [->|_]; reflexivity.
  - unfold getVisibleJobs. eexists. reflexivity.
  - unfold onDidReceiveMessage. rewrite bind_state, modify_state.
    now rewrite (preserves_updateView isScheduledJobsExpanded env 0 (fun _ _ => eq_refl)).
  - unfold onDidReceiveMessage. rewrite bind_state, modify_state.
    now rewrite (preserves_updateView isPastJobsExpanded env 0 (fun _ _ => eq_refl)).
  - apply (handle_keeps_selection env (PageMessage toggleScheduledJobs)). reflexivity.
  - unfold onDidReceiveMessage. rewrite bind_state, modify_state.
    now rewrite (preserves_updateView isPastJobsExpanded env 0 (fun _ _ => eq_refl)).
  - unfold onDidReceiveMessage. rewrite bind_state, modify_state.
    now rewrite (preserves_updateView isScheduledJobsExpanded env 0 (fun _ _ => eq_refl)).
  - apply (handle_keeps_selection env (PageMessage togglePastJobs)). reflexivity.
Qed.

End MorePage.

Section MoreActions.
Context {RE : RegExpEngine} {CO : Collator}.

Lemma checkVanished_only_notices (env : Slurm) (cur : JsMap.t Job)
  (acc : list Job * JsSet.t * list Effect) (entry : string * Job) :
  forallb isJobNotification (snd acc) = true ->
  forallb isJobNotification (snd (checkVanished env cur acc entry)) = true.
Proof.
  destruct acc as [[jobs N] E], entry as [id lastJob]. cbn [snd]. intros HE.
  unfold checkVanished.
  destruct (negb (JsMap.has cur id) && negb (JsSet.has N id)); [| exact HE].
  destruct ((status lastJob =? "RUNNING") || (status lastJob =? "PENDING")); [| exact HE].
  destruct (sacct_out env id) as [out|]; [| exact HE].
  destruct (Str.truthy out); [| exact HE].
  cbn [snd]. rewrite forallb_app, HE. reflexivity.
Qed.

(** A poll shows nothing but completion notices. *)
Lemma getSlurmJobs_only_notices (env : Slurm) (p : SlurmJobProvider) :
  forallb isJobNotification (effectsOf (getSlurmJobs env p)) = true.
Proof.
  destruct (getSlurmJobs_cases env p) as [-> | (jobs & cur & ->)]; [reflexivity |].
  cbv zeta. rewrite effectsOf_triple.
  generalize (JsMap.entries (lastKnownJobs p)).
  assert (G : forall l acc, forallb isJobNotification (snd acc) = true ->
                            forallb isJobNotification
                              (snd (fold_left (checkVanished env cur) l acc)) = true).
  { induction l as [|entry l IH]; intros acc Hacc; [exact Hacc |].
    cbn [fold_left]. apply IH. now apply checkVanished_only_notices. }
  intros l. now apply G.
Qed.

Lemma notice_not_in (e : list Effect) (x : Effect) :
  forallb isJobNotification e = true -> isJobNotification x = false -> ~ In x e.
Proof.
  intros He Hx Hin. rewrite forallb_forall in He. rewrite (He x Hin) in Hx. discriminate.
Qed.

(** X5. The actions that only look at a job ([attach], [ssh], [peek],
    [viewOutput], [viewError], and an unknown action) change nothing but what
    their poll changes and never redraw the page.  A terminal is sent
    [sattach <id>.0] only by [attach] on a job of the polled snapshot that is
    running, and a remote window is opened only by [ssh] on a job with nodes,
    on the first of them. *)
Theorem looking_actions_change_nothing :
  forall (env : Env) (a : Action) (id : string) (w : JobsWebviewProvider),
    looksOnly a = true ->
    let r := handleAction env a id w in
    stateOf r = stateOf (onProvider (getSlurmJobs (polls env 0)) w)
    /\ (forall v, ~ In (SetHtml v) (effectsOf r))
    /\ (forall term text,
           In (TerminalSendText term text) (effectsOf r) ->
           a = attach
           /\ exists job,
                find (fun j => jobId j =? id) (polled env w) = Some job
                /\ status job = "RUNNING"
                /\ text = ("sattach " ++ id ++ ".0")%string)
    /\ (forall uri,
           In (OpenFolder uri) (effectsOf r) ->
           a = ssh
           /\ exists job,
                find (fun j => jobId j =? id) (polled env w) = Some job
                /\ nodelist job <> "" /\ nodelist job <> "(None)"
                /\ uri = ("vscode-remote://ssh-remote+"
                            ++ hd "" (Str.split "," (nodelist job)) ++ "/")%string).
Proof.
  intros env a id w Ha r. subst r.
  pose proof (getSlurmJobs_only_notices (polls env 0) (slurmJobProvider w)) as He.
  unfold handleAction, polled, bind, onProvider, zoom, stateOf, effectsOf, valueOf in *.
  destruct (getSlurmJobs (polls env 0) (slurmJobProvider w)) as [[jobs p] e].
  cbn [fst snd] in *.
  destruct (find (fun j => jobId j =? id) jobs) as [job|] eqn:Hfind.
  2:{ cbn [ret fst snd]. rewrite app_nil_r. repeat split.
      - intros v Hin. now apply (notice_not_in e _ He) in Hin.
      - exfalso. now apply (notice_not_in e _ He) in H.
      - exfalso. now apply (notice_not_in e _ He) in H.
      - exfalso. now apply (notice_not_in e _ He) in H.
      - exfalso. now apply (notice_not_in e _ He) in H. }
  assert (Hid : jobId job = id).
  { apply find_some in Hfind. now apply String.eqb_eq. }
  assert (Hone : forall x : Effect,
             (forall v, x <> SetHtml v) ->
             (forall term text, x = TerminalSendText term text ->
                a = attach /\ status job = "RUNNING"
                /\ text = ("sattach " ++ id ++ ".0")%string) ->
             (forall uri, x = OpenFolder uri ->
                a = ssh /\ nodelist job <> "" /\ nodelist job <> "(None)"
                /\ uri = ("vscode-remote://ssh-remote+"
                            ++ hd "" (Str.split "," (nodelist job)) ++ "/")%string) ->
             (forall v, ~ In (SetHtml v) (e ++ [x]))
             /\ (forall term text, In (TerminalSendText term text) (e ++ [x]) ->
                   a = attach /\ exists job0,
                     Some job = Some job0 /\ status job0 = "RUNNING"
                     /\ text = ("sattach " ++ id ++ ".0")%string)
             /\ (forall uri, In (OpenFolder uri) (e ++ [x]) ->
                   a = ssh /\ exists job0,
                     Some job = Some job0
                     /\ nodelist job0 <> "" /\ nodelist job0 <> "(None)"
                     /\ uri = ("vscode-remote://ssh-remote+"
                                 ++ hd "" (Str.split "," (nodelist job0)) ++ "/")%string)).
  { intros x Hv Ht Hu. split; [| split].
    - intros v Hin. apply in_app_or in Hin. destruct Hin as [Hin | [Hin | []]].
      + now apply (notice_not_in e _ He) in Hin.
      + now apply (Hv v).
    - intros term text Hin. apply in_app_or in Hin. destruct Hin as [Hin | [Hin | []]].
      + now apply (notice_not_in e _ He) in Hin.
      + destruct (Ht term text Hin) as (Ha' & Hs & Htx).
        split; [exact Ha' |]. exists job. auto.
    - intros uri Hin. apply in_app_or in Hin. destruct Hin as [Hin | [Hin | []]].
      + now apply (notice_not_in e _ He) in Hin.
      + destruct (Hu uri Hin) as (Ha' & Hn1 & Hn2 & Huri).
        split; [exact Ha' |]. exists job. auto. }
  destruct a; try discriminate Ha; cbn [ret emit fst snd].
  - (* attach *)
    destruct (String.eqb_spec (status job) "RUNNING") as [Hr | Hr]; cbn [negb fst snd];
      (split; [reflexivity |]); apply Hone; try discriminate.
    intros term text H. injection H as _ <-. rewrite Hid. auto.
  - (* ssh *)
    destruct (Str.truthy (nodelist job)) eqn:Ht; cbn [negb orb fst snd].
    + destruct (String.eqb_spec (nodelist job) "(None)") as [Hn | Hn]; cbn [fst snd];
        (split; [reflexivity |]); apply Hone; try discriminate.
      intros uri H. injection H as <-. repeat split; try assumption.
      intros He'. rewrite He' in Ht. discriminate Ht.
    + split; [reflexivity |]. apply Hone; discriminate.
  - (* peek *)
    split; [reflexivity |]. apply Hone; discriminate.
  - (* viewOutput *)
    unfold viewFile. destruct (negb (workspaceFolder env)); cbn [emit fst snd].
    + split; [reflexivity |]. apply Hone; discriminate.
    + destruct (fileExists env _); cbn [emit fst snd];
        (split; [reflexivity |]); apply Hone; discriminate.
  - (* viewError *)
    unfold viewFile. destruct (negb (workspaceFolder env)); cbn [emit fst snd].
    + split; [reflexivity |]. apply Hone; discriminate.
    + destruct (fileExists env _); cbn [emit fst snd];
        (split; [reflexivity |]); apply Hone; discriminate.
  - (* another action *)
    cbn [ret fst snd]. rewrite app_nil_r. repeat split.
    + intros v Hin. now apply (notice_not_in e _ He) in Hin.
    + exfalso. now apply (notice_not_in e _ He) in H.
    + exfalso. now apply (notice_not_in e _ He) in H.
    + exfalso. now apply (notice_not_in e _ He) in H.
    + exfalso. now apply (notice_not_in e _ He) in H.
Qed.

End MoreActions.

Section MoreBatch.
Context {RE : RegExpEngine} {CO : Collator}.

Lemma filter_kill_none (l : list Effect) :
  forallb (fun e => negb (isKillAllMessage e)) l = true -> filter isKillAllMessage l = [].
Proof.
  induction l as [|e l IH]; [reflexivity |]. cbn. intros H.
  apply andb_true_iff in H. destruct H as [He Hl].
  destruct (isKillAllMessage e); [discriminate | now apply IH].
Qed.

(** X6. [killSelected] arms the batch kill exactly when something is
    selected, and otherwise only warns; [cancelKillAll] disarms it, reports
    no kill and keeps the selection.  [confirmKillAll] does not look at the
    armed flag: it shows the same effects whether the batch was armed or
    not. *)
Theorem batch_kill_arming :
  forall (env : Env) (b : bool) (w : JobsWebviewProvider),
    isConfirmingKillAll (stateOf (onDidReceiveMessage env killSelected w))
    = isConfirmingKillAll w
      || match JsSet.from (selectedJobs w) with [] => false | _ :: _ => true end
    /\ (JsSet.from (selectedJobs w) = [] ->
        onDidReceiveMessage env killSelected w
        = (tt, w, [ShowWarningMessage "No jobs selected"]))
    /\ isConfirmingKillAll (stateOf (onDidReceiveMessage env cancelKillAll w)) = false
    /\ selectedJobs (stateOf (onDidReceiveMessage env cancelKillAll w)) = selectedJobs w
    /\ filter isKillAllMessage (effectsOf (onDidReceiveMessage env cancelKillAll w)) = []
    /\ effectsOf (onDidReceiveMessage env confirmKillAll (setConfirmingKillAll b w))
       = effectsOf (onDidReceiveMessage env confirmKillAll w).
Proof.
  intros env b w. repeat split.
  - unfold onDidReceiveMessage. rewrite bind_state. cbn [get valueOf stateOf fst snd].
    destruct (JsSet.from (selectedJobs w)) as [|j js].
    + cbn. now rewrite orb_false_r.
    + rewrite bind_state, modify_state.
      rewrite (preserves_updateView isConfirmingKillAll env 0 (fun _ _ => eq_refl)).
      cbn. now rewrite orb_true_r.
  - intros Hsel. unfold onDidReceiveMessage, bind, get, emit. now rewrite Hsel.
  - unfold onDidReceiveMessage. rewrite bind_state, modify_state.
    now rewrite (preserves_updateView isConfirmingKillAll env 0 (fun _ _ => eq_refl)).
  - apply (handle_keeps_selection env (PageMessage cancelKillAll)). reflexivity.
  - unfold onDidReceiveMessage. rewrite bind_effects. cbn [modify effectsOf snd app].
    apply filter_kill_none, updateView_no_message.
  - rewrite !confirmKillAll_eq. cbn [selectedJobs setConfirmingKillAll].
    destruct (JsSet.from (selectedJobs w)) as [|j js]; reflexivity.
Qed.

End MoreBatch.

(** ** Parsing the listing *)


Lemma trimStart_eq (s : string) :
  Str.trimStart s = match stripSpace s with
                    | Some r => Str.trimStart r
                    | None => s
                    end.
Proof.
  destruct s as [|a s1]; [reflexivity |]. cbn [Str.trimStart stripSpace].
  destruct (Str.isSpace a); [reflexivity |].
  destruct s1 as [|b s2]; [reflexivity |].
  destruct (Str.isSpace2 a b); [reflexivity |].
  destruct s2 as [|c s3]; [reflexivity |].
  destruct (Str.isSpace3 a b c); reflexivity.
Qed.

Lemma stripSpace_shorter (s r : string) :
  stripSpace s = Some r -> (String.length r < String.length s)%nat.
Proof.
  destruct s as [|a [|b [|c s3]]]; cbn [stripSpace];
    repeat match goal with |- context [if ?b then _ else _] => destruct b end;
    intros H; inversion H; subst; cbn; lia.
Qed.

Lemma stripSpace_app (a r b : string) :
  stripSpace a = Some r -> stripSpace (a ++ b) = Some (r ++ b)%string.
Proof.
  destruct a as [|x [|y [|z a3]]]; cbn [stripSpace append].
  - discriminate.
  - destruct (Str.isSpace x); [| discriminate].
    intros H; inversion H; subst. reflexivity.
  - destruct (Str.isSpace x).
    + intros H; inversion H; subst. reflexivity.
    + destruct (Str.isSpace2 x y); [| discriminate].
      intros H; inversion H; subst. reflexivity.
  - destruct (Str.isSpace x).
    + intros H; inversion H; subst. reflexivity.
    + destruct (Str.isSpace2 x y).
      * intros H; inversion H; subst. reflexivity.
      * destruct (Str.isSpace3 x y z); [| discriminate].
        intros H; inversion H; subst. reflexivity.
Qed.

Lemma trimStart_stripped (s : string) : stripSpace (Str.trimStart s) = None.
Proof.
  remember (String.length s) as n eqn:Hn. revert s Hn.
  induction n as [n IH] using lt_wf_ind. intros s Hn.
  rewrite trimStart_eq. destruct (stripSpace s) as [r|] eqn:E.
  - apply (IH (String.length r)); [| reflexivity].
    subst n. now apply stripSpace_shorter.
  - exact E.
Qed.

Lemma trimStart_fixed (s : string) : stripSpace s = None -> Str.trimStart s = s.
Proof. intros H. now rewrite trimStart_eq, H. Qed.

Lemma blank_app (a b : string) :
  Str.blank a = true -> Str.trimStart (a ++ b) = Str.trimStart b.
Proof.
  remember (String.length a) as n eqn:Hn. revert a Hn.
  induction n as [n IH] using lt_wf_ind. intros a Hn Ha.
  destruct a as [|x a']; [reflexivity |].
  unfold Str.blank in Ha. rewrite trimStart_eq in Ha.
  destruct (stripSpace (String x a')) as [r|] eqn:E; [| discriminate Ha].
  rewrite trimStart_eq, (stripSpace_app _ r b E).
  apply (IH (String.length r)).
  - subst n. now apply stripSpace_shorter.
  - reflexivity.
  - exact Ha.
Qed.

Lemma trimEnd_split (s : string) :
  exists w, s = (Str.trimEnd s ++ w)%string /\ Str.blank w = true.
Proof.
  induction s as [|c s [w [Hs Hw]]].
  - exists "". split; reflexivity.
  - cbn [Str.trimEnd]. destruct (Str.blank (String c s)) eqn:E.
    + exists (String c s). split; [reflexivity | exact E].
    + exists w. split; [cbn [append]; now rewrite <- Hs | exact Hw].
Qed.

Lemma blank_both (a w : string) :
  Str.blank a = true -> Str.blank w = true -> Str.blank (a ++ w) = true.
Proof.
  intros Ha Hw. unfold Str.blank. rewrite (blank_app a w Ha). exact Hw.
Qed.

Lemma trimEnd_idem (s : string) : Str.trimEnd (Str.trimEnd s) = Str.trimEnd s.
Proof.
  induction s as [|c s IH]; [reflexivity |].
  cbn [Str.trimEnd]. destruct (Str.blank (String c s)) eqn:E; [reflexivity |].
  cbn [Str.trimEnd].
  destruct (Str.blank (String c (Str.trimEnd s))) eqn:E'.
  - exfalso. destruct (trimEnd_split s) as [w [Hs Hw]].
    pose proof (blank_both _ w E' Hw) as H. cbn [append] in H.
    rewrite <- Hs in H. congruence.
  - now rewrite IH.
Qed.

Lemma trimEnd_stripped (s : string) :
  stripSpace s = None -> stripSpace (Str.trimEnd s) = None.
Proof.
  intros H. destruct (stripSpace (Str.trimEnd s)) as [r|] eqn:E; [| reflexivity].
  destruct (trimEnd_split s) as [w [Hs _]].
  rewrite Hs, (stripSpace_app _ r w E) in H. discriminate H.
Qed.

Lemma trim_idem (s : string) : Str.trim (Str.trim s) = Str.trim s.
Proof.
  unfold Str.trim.
  rewrite (trimStart_fixed (Str.trimEnd (Str.trimStart s))).
  - apply trimEnd_idem.
  - apply trimEnd_stripped, trimStart_stripped.
Qed.

Lemma split_nonempty (sep : ascii) (s : string) : Str.split sep s <> [].
Proof.
  destruct s as [|c s]; cbn; [discriminate |].
  destruct (Ascii.eqb c sep); [discriminate |].
  destruct (Str.split sep s); discriminate.
Qed.

Lemma split_zero_zero (s : string) :
  Str.split ":" ("00:" ++ s)%string = "00" :: Str.split ":" s.
Proof. reflexivity. Qed.

Section MoreParsing.
Context {RE : RegExpEngine} {CO : Collator}.

(** X8. [parseJobTime] always gives a time of three colon-separated
    fields: a time of three fields is kept, also with days in front, a time
    of two fields gets the hours [00], and anything else becomes
    [00:00:00].  Applying it again changes nothing. *)
Theorem parseJobTime_three_fields :
  forall timeStr : string,
    length (Str.split ":" (parseJobTime timeStr)) = 3%nat
    /\ parseJobTime (parseJobTime timeStr) = parseJobTime timeStr
    /\ (length (Str.split ":" timeStr) = 3%nat -> parseJobTime timeStr = timeStr)
    /\ (length (Str.split ":" timeStr) = 2%nat ->
        parseJobTime timeStr = ("00:" ++ timeStr)%string)
    /\ (length (Str.split ":" timeStr) <> 3%nat ->
        length (Str.split ":" timeStr) <> 2%nat ->
        parseJobTime timeStr = "00:00:00").
Proof.
  intros timeStr.
  assert (H3 : length (Str.split ":" (parseJobTime timeStr)) = 3%nat).
  { unfold parseJobTime.
    destruct (length (Str.split ":" timeStr)) as [|[|[|[|n]]]] eqn:Hn;
      try reflexivity.
    - rewrite split_zero_zero. cbn [length]. now rewrite Hn.
    - exact Hn. }
  split; [exact H3 |]. split.
  - unfold parseJobTime at 1. now rewrite H3.
  - unfold parseJobTime. repeat split.
    + now intros ->.
    + now intros ->.
    + intros Hn3 Hn2.
      destruct (length (Str.split ":" timeStr)) as [|[|[|[|n]]]]; congruence.
Qed.

Lemma parseLine_tidy (line key : string) (job : Job) :
  parseLine line = Some (key, job) -> tidy job /\ key = lineKey line.
Proof.
  unfold parseLine, lineKey.
  destruct (Str.split "|" line) as [|id [|nm [|st [|nodes [|running [|start rest]]]]]];
    try discriminate.
  intros H. injection H as <- <-. split; [| reflexivity].
  unfold tidy. cbn [name jobId status nodelist startTime runningTime].
  rewrite !trim_idem. repeat split.
  - destruct (Str.trim nodes =? "(None)"); [reflexivity | apply trim_idem].
  - destruct (String.eqb_spec (Str.trim nodes) "(None)") as [He | Hne];
      [discriminate | exact Hne].
  - apply parseJobTime_three_fields.
Qed.

Lemma parseLines_tidy (lines : list string) :
  forall (m : JsMap.t Job) (jobs : list Job) (cur : JsMap.t Job),
    parseLines lines m = Some (jobs, cur) ->
    Forall tidy (map snd m) ->
    Forall tidy jobs /\ Forall tidy (map snd cur).
Proof.
  induction lines as [|line lines IH]; intros m jobs cur H Hm; cbn in H.
  - injection H as <- <-. split; [constructor | exact Hm].
  - destruct (parseLine line) as [[k job]|] eqn:Hline; [| discriminate].
    destruct (parseLines lines (JsMap.set k job m)) as [[jobs' cur']|] eqn:Hrest;
      [| discriminate].
    injection H as <- <-.
    destruct (parseLine_tidy _ _ _ Hline) as [Hjob _].
    assert (Hset : Forall tidy (map snd (JsMap.set k job m))).
    { clear - Hjob Hm. induction m as [|[k' v'] m IHm]; cbn.
      - constructor; [exact Hjob | constructor].
      - cbn in Hm. apply Forall_cons_iff in Hm. destruct Hm as [Hv Hm].
        destruct (k =? k'); cbn; constructor; auto. }
    destruct (IH _ _ _ Hrest Hset) as [Hjobs Hcur].
    split; [constructor; assumption | exact Hcur].
Qed.

Lemma checkVanished_tidy (env : Slurm) (cur : JsMap.t Job)
  (acc : list Job * JsSet.t * list Effect) (entry : string * Job) :
  tidy (snd entry) -> Forall tidy (fst (fst acc)) ->
  Forall tidy (fst (fst (checkVanished env cur acc entry))).
Proof.
  destruct acc as [[jobs N] E], entry as [id lastJob]. cbn [fst snd].
  intros Hlast Hjobs. unfold checkVanished.
  destruct (negb (JsMap.has cur id) && negb (JsSet.has N id)); [| exact Hjobs].
  destruct ((status lastJob =? "RUNNING") || (status lastJob =? "PENDING")); [| exact Hjobs].
  destruct (sacct_out env id) as [out|]; [| exact Hjobs].
  destruct (Str.truthy out); [| exact Hjobs].
  cbn [fst]. apply Forall_app. split; [exact Hjobs |].
  constructor; [| constructor].
  unfold tidy in *. cbn [withStatus name jobId status nodelist startTime runningTime].
  rewrite trim_idem. tauto.
Qed.

Lemma vanished_loop_tidy (env : Slurm) (cur : JsMap.t Job) (l : list (string * Job)) :
  forall acc,
    Forall tidy (map snd l) -> Forall tidy (fst (fst acc)) ->
    Forall tidy (fst (fst (fold_left (checkVanished env cur) l acc))).
Proof.
  induction l as [|entry l IH]; intros acc Hl Hacc; [exact Hacc |].
  cbn [fold_left]. cbn in Hl. apply Forall_cons_iff in Hl. destruct Hl as [He Hl].
  apply IH; [exact Hl |]. now apply checkVanished_tidy.
Qed.


Lemma getSlurmJobs_tidy (env : Slurm) (p : SlurmJobProvider) :
  knownTidy p ->
  Forall tidy (valueOf (getSlurmJobs env p))
  /\ knownTidy (stateOf (getSlurmJobs env p)).
Proof.
  intros Hp. unfold getSlurmJobs.
  destruct (negb (Str.truthy (squeue_version env))); [split; [constructor | exact Hp] |].
  destruct (negb (Str.truthy (squeue_out env))); [split; [constructor | exact Hp] |].
  destruct (parseLines _ _) as [[jobs cur]|] eqn:Hparse;
    [| split; [constructor | exact Hp]].
  destruct (parseLines_tidy _ _ _ _ Hparse (Forall_nil _)) as [Hjobs Hcur].
  pose proof (vanished_loop_tidy env cur (JsMap.entries (lastKnownJobs p))
                (jobs, notifiedJobs p, []) Hp Hjobs) as Hloop.
  destruct (fold_left _ _ _) as [[jobs' N] E]. cbn [fst] in Hloop.
  split; [exact Hloop | exact Hcur].
Qed.

End MoreParsing.

(** ** What a poll remembers and reports *)

Lemma keeps_ret {S A : Type} (P : S -> Prop) (a : A) : keeps P (ret a).
Proof. intros s H. exact H. Qed.

Lemma keeps_get {S : Type} (P : S -> Prop) : keeps P get.
Proof. intros s H. exact H. Qed.

Lemma keeps_emit {S : Type} (P : S -> Prop) (e : Effect) : keeps P (emit e).
Proof. intros s H. exact H. Qed.

Lemma keeps_modify {S : Type} (P : S -> Prop) (g : S -> S) :
  (forall s, P s -> P (g s)) -> keeps P (modify g).
Proof. intros H s Hs. rewrite modify_state. now apply H. Qed.

Lemma keeps_bind {S A B : Type} (P : S -> Prop) (c : M S A) (k : A -> M S B) :
  keeps P c -> (forall a, keeps P (k a)) -> keeps P (bind c k).
Proof. intros Hc Hk s Hs. rewrite bind_state. apply Hk, Hc, Hs. Qed.

Ltac keeps_step :=
  first
    [ apply keeps_ret
    | apply keeps_get
    | apply keeps_emit
    | apply keeps_bind; [| intros ?]
    | apply keeps_modify; intros ? ?;
      repeat match goal with |- context [if ?b then _ else _] => destruct b end;
      assumption
    | match goal with
      | |- keeps _ (if ?b then _ else _) => destruct b
      | |- keeps _ (match ?x with _ => _ end) => destruct x
      end ].

Lemma map_has_set {V : Type} (k : string) (v : V) (m : JsMap.t V) (k' : string) :
  JsMap.has (JsMap.set k v m) k' = JsMap.has m k' || (k' =? k).
Proof.
  unfold JsMap.has. induction m as [|[k0 v0] m IH]; cbn.
  - now rewrite orb_false_r.
  - destruct (String.eqb_spec k k0) as [->|Hne]; cbn.
    + destruct (String.eqb_spec k' k0); cbn; [reflexivity |]. now rewrite orb_false_r.
    + rewrite IH. now rewrite orb_assoc.
Qed.

Lemma map_keys_set {V : Type} (k : string) (v : V) (m : JsMap.t V) :
  map fst (JsMap.set k v m)
  = if JsMap.has m k then map fst m else map fst m ++ [k].
Proof.
  unfold JsMap.has. induction m as [|[k0 v0] m IH]; cbn; [reflexivity |].
  destruct (String.eqb_spec k k0) as [->|Hne]; cbn; [reflexivity |].
  rewrite IH. now destruct (existsb _ m).
Qed.

Lemma map_has_In {V : Type} (m : JsMap.t V) (k : string) :
  JsMap.has m k = true <-> In k (map fst m).
Proof.
  unfold JsMap.has. rewrite existsb_exists, in_map_iff. split.
  - intros [kv [Hin He]]. apply String.eqb_eq in He. exists kv. now split.
  - intros [kv [He Hin]]. exists kv. split; [exact Hin |]. apply String.eqb_eq. now symmetry.
Qed.

Lemma map_keys_NoDup {V : Type} (k : string) (v : V) (m : JsMap.t V) :
  NoDup (map fst m) -> NoDup (map fst (JsMap.set k v m)).
Proof.
  intros Hm. rewrite map_keys_set. destruct (JsMap.has m k) eqn:Hk; [exact Hm |].
  apply NoDup_app_remove_l with (l := []). cbn.
  apply Permutation_NoDup with (l := k :: map fst m).
  - apply Permutation_cons_append.
  - constructor; [| exact Hm]. intros Hin. apply map_has_In in Hin. congruence.
Qed.

Section MorePolls.
Context {RE : RegExpEngine} {CO : Collator}.

Lemma parseLine_None (line : string) :
  parseLine line = None <-> (length (Str.split "|" line) < 6)%nat.
Proof.
  unfold parseLine.
  destruct (Str.split "|" line) as [|id [|nm [|st [|nodes [|running [|start rest]]]]]];
    cbn [length]; split; intros H; try reflexivity; try lia; discriminate.
Qed.

Lemma parseLines_None (lines : list string) :
  forall m : JsMap.t Job,
    parseLines lines m = None
    <-> exists line, In line lines /\ (length (Str.split "|" line) < 6)%nat.
Proof.
  induction lines as [|line lines IH]; intros m; cbn [parseLines].
  - split; [discriminate | intros [line [[] _]]].
  - destruct (parseLine line) as [[k job]|] eqn:Hline.
    + destruct (parseLines lines (JsMap.set k job m)) as [[jobs cur]|] eqn:Hrest.
      * split; [discriminate |]. intros [l [[<- | Hin] Hl]].
        -- apply parseLine_None in Hl. congruence.
        -- assert (Hn : parseLines lines (JsMap.set k job m) = None)
             by (apply IH; now exists l).
           congruence.
      * split; [| reflexivity]. intros _. apply IH in Hrest.
        destruct Hrest as [l [Hin Hl]]. exists l. split; [now right | exact Hl].
    + split; [| reflexivity]. intros _. exists line. split; [now left |].
      now apply parseLine_None.
Qed.

Lemma getSlurmJobs_listed (env : Slurm) (p : SlurmJobProvider) :
  getSlurmJobs env p
  = if negb (Str.truthy (squeue_version env)) then ([], p, [])
    else if negb (Str.truthy (squeue_out env)) then ([], p, [])
    else match parseLines (listedLines env) JsMap.empty with
         | None => ([], p, [])
         | Some (jobs, currentJobs) =>
             let r := fold_left (checkVanished env currentJobs)
                        (JsMap.entries (lastKnownJobs p)) (jobs, notifiedJobs p, []) in
             (fst (fst r),
              mkProvider (jobsToConfirm p) (filterRegex p) currentJobs (snd (fst r)),
              snd r)
         end.
Proof.
  unfold getSlurmJobs, listedLines.
  destruct (negb (Str.truthy (squeue_version env))); [reflexivity |].
  destruct (negb (Str.truthy (squeue_out env))); [reflexivity |].
  destruct (parseLines _ _) as [[jobs cur]|]; [| reflexivity].
  cbv zeta. now destruct (fold_left _ _ _) as [[jobs' N] E].
Qed.

Lemma truthy_empty (s : string) : Str.truthy s = false <-> s = "".
Proof.
  unfold Str.truthy. destruct (String.eqb_spec s ""); cbn; split; congruence.
Qed.

(** X9. When [squeue] is not there, lists nothing, or lists a line with
    fewer than six fields, the poll returns no job and changes nothing: the
    jobs last known stay last known, so the jobs that left the queue are
    neither reported nor forgotten by this poll, and nothing is shown. *)
Theorem failed_poll_changes_nothing :
  forall (env : Slurm) (p : SlurmJobProvider),
    squeue_version env = ""
    \/ squeue_out env = ""
    \/ (exists line, In line (listedLines env) /\ (length (Str.split "|" line) < 6)%nat) ->
    getSlurmJobs env p = ([], p, []).
Proof.
  intros env p H. rewrite getSlurmJobs_listed.
  destruct (Str.truthy (squeue_version env)) eqn:Hv; cbn [negb]; [| reflexivity].
  destruct (Str.truthy (squeue_out env)) eqn:Ho; cbn [negb]; [| reflexivity].
  destruct H as [H | [H | H]].
  - apply truthy_empty in H. congruence.
  - apply truthy_empty in H. congruence.
  - apply (parseLines_None _ JsMap.empty) in H. now rewrite H.
Qed.

Lemma parseLines_keys (lines : list string) :
  forall (m : JsMap.t Job) (jobs : list Job) (cur : JsMap.t Job),
    parseLines lines m = Some (jobs, cur) ->
    length jobs = length lines
    /\ (forall k, JsMap.has cur k = JsMap.has m k || JsSet.has (map lineKey lines) k)
    /\ (NoDup (map fst m) -> NoDup (map fst cur)).
Proof.
  induction lines as [|line lines IH]; intros m jobs cur H; cbn [parseLines] in H.
  - injection H as <- <-. repeat split; auto. intros k. cbn. now rewrite orb_false_r.
  - destruct (parseLine line) as [[k0 job]|] eqn:Hline; [| discriminate].
    destruct (parseLines lines (JsMap.set k0 job m)) as [[jobs' cur']|] eqn:Hrest;
      [| discriminate].
    injection H as <- <-.
    destruct (parseLine_tidy _ _ _ Hline) as [_ Hk].
    destruct (IH _ _ _ Hrest) as (Hlen & Hhas & Hnd).
    repeat split.
    + cbn. now rewrite Hlen.
    + intros k. rewrite Hhas, map_has_set. cbn [map JsSet.has existsb].
      fold (JsSet.has (map lineKey lines) k). rewrite <- Hk, orb_assoc. reflexivity.
    + intros Hm. apply Hnd. now apply map_keys_NoDup.
Qed.

(** X10. After a poll that parsed its listing, the provider remembers
    exactly the listed jobs, each once, under the first field of its line; the
    poll returns one job for every listed line, in the order of the listing,
    before the jobs it reports as gone. *)
Theorem poll_remembers_listing :
  forall (env : Slurm) (p : SlurmJobProvider) (jobs : list Job) (cur : JsMap.t Job),
    squeue_version env <> "" -> squeue_out env <> "" ->
    parseLines (listedLines env) JsMap.empty = Some (jobs, cur) ->
    let r := getSlurmJobs env p in
    lastKnownJobs (stateOf r) = cur
    /\ length jobs = length (listedLines env)
    /\ firstn (length jobs) (valueOf r) = jobs
    /\ NoDup (map fst (JsMap.entries (lastKnownJobs (stateOf r))))
    /\ (forall k, JsMap.has (lastKnownJobs (stateOf r)) k = true
                  <-> exists line, In line (listedLines env) /\ lineKey line = k).
Proof.
  intros env p jobs cur Hv Ho Hparse r. subst r.
  rewrite getSlurmJobs_listed, Hparse.
  apply truthy_nonempty in Hv. apply truthy_nonempty in Ho. rewrite Hv, Ho.
  cbn [negb]. cbv zeta. rewrite stateOf_triple. cbn [lastKnownJobs].
  destruct (parseLines_keys _ _ _ _ Hparse) as (Hlen & Hhas & Hnd).
  split; [reflexivity |]. split; [| split; [| split]].
  - exact Hlen.
  - unfold valueOf. cbn [fst].
    assert (G : forall l acc, exists more,
                 fst (fst (fold_left (checkVanished env cur) l acc)) = fst (fst acc) ++ more).
    { induction l as [|entry l IH]; intros acc.
      - exists []. cbn. now rewrite app_nil_r.
      - cbn [fold_left]. destruct (IH (checkVanished env cur acc entry)) as [more ->].
        destruct acc as [[js N] E], entry as [id lastJob]. unfold checkVanished.
        destruct (negb (JsMap.has cur id) && negb (JsSet.has N id));
          [| now exists more].
        destruct ((status lastJob =? "RUNNING") || (status lastJob =? "PENDING"));
          [| now exists more].
        destruct (sacct_out env id) as [out|]; [| now exists more].
        destruct (Str.truthy out); [| now exists more].
        cbn [fst]. eexists. rewrite <- app_assoc. reflexivity. }
    destruct (G (JsMap.entries (lastKnownJobs p)) (jobs, notifiedJobs p, [])) as [more ->].
    cbn [fst]. rewrite firstn_app, Nat.sub_diag, firstn_all. cbn. apply app_nil_r.
  - apply Hnd. constructor.
  - intros k. rewrite Hhas. cbn [JsMap.has JsMap.empty existsb orb].
    rewrite has_In, in_map_iff. split; intros [line H]; exists line; tauto.
Qed.

End MorePolls.

Lemma in_firstn {A : Type} (n : nat) (l : list A) (x : A) :
  In x (firstn n l) -> In x l.
Proof.
  intros H. rewrite <- (firstn_skipn n l). apply in_or_app. now left.
Qed.

Section MoreReports.
Context {RE : RegExpEngine} {CO : Collator}.


Lemma vanished_loop_reports (env : Slurm) (p : SlurmJobProvider) (cur : JsMap.t Job)
  (l : list (string * Job)) :
  forall (jobs : list Job) (N : JsSet.t) (E : list Effect),
    (forall x, In x l -> In x (JsMap.entries (lastKnownJobs p))) ->
    (forall x, JsSet.has (notifiedJobs p) x = true -> JsSet.has N x = true) ->
    exists appended shown,
      fst (fst (fold_left (checkVanished env cur) l (jobs, N, E))) = jobs ++ appended
      /\ snd (fold_left (checkVanished env cur) l (jobs, N, E)) = E ++ shown
      /\ Forall2 (reportedGone env p cur) appended shown.
Proof.
  induction l as [|[id last] l IH]; intros jobs N E Hl HN.
  - exists [], []. cbn. rewrite !app_nil_r. repeat split. constructor.
  - cbn [fold_left].
    assert (Hl' : forall x, In x l -> In x (JsMap.entries (lastKnownJobs p)))
      by (intros x Hx; apply Hl; now right).
    assert (Hskip : exists appended shown,
               fst (fst (fold_left (checkVanished env cur) l (jobs, N, E))) = jobs ++ appended
               /\ snd (fold_left (checkVanished env cur) l (jobs, N, E)) = E ++ shown
               /\ Forall2 (reportedGone env p cur) appended shown)
      by (apply IH; assumption).
    assert (HN' : forall x, JsSet.has (notifiedJobs p) x = true ->
                            JsSet.has (JsSet.add id N) x = true)
      by (intros x Hx; rewrite has_add, (HN x Hx); reflexivity).
    assert (Hadd : exists appended shown,
               fst (fst (fold_left (checkVanished env cur) l (jobs, JsSet.add id N, E)))
               = jobs ++ appended
               /\ snd (fold_left (checkVanished env cur) l (jobs, JsSet.add id N, E))
                  = E ++ shown
               /\ Forall2 (reportedGone env p cur) appended shown)
      by (apply IH; assumption).
    unfold checkVanished at 2 4.
    destruct (JsMap.has cur id) eqn:Hcur; [exact Hskip |].
    destruct (JsSet.has N id) eqn:HNid; [exact Hskip |]. cbn [negb andb].
    destruct ((status last =? "RUNNING") || (status last =? "PENDING")) eqn:Hst;
      [| exact Hskip].
    destruct (sacct_out env id) as [out|] eqn:Hout; [| exact Hadd].
    destruct (Str.truthy out) eqn:Htr; [| exact Hadd].
    destruct (IH (jobs ++ [withStatus last (Str.trim (hd "" (Str.split (ascii_of_nat 10) out)))])
                (JsSet.add id N)
                (E ++ [JobNotification id
                         (completionMessage last id
                            (Str.trim (hd "" (Str.split (ascii_of_nat 10) out))))])
                Hl' HN') as (appended & shown & Hj & He & Hrel).
    eexists (_ :: appended), (_ :: shown).
    rewrite Hj, He, <- !app_assoc. cbn [app]. repeat split.
    constructor; [| exact Hrel].
    exists id, last, out. repeat split; try assumption.
    + apply Hl. now left.
    + destruct (JsSet.has (notifiedJobs p) id) eqn:Hp; [| reflexivity].
      rewrite (HN id Hp) in HNid. discriminate.
    + apply orb_true_iff in Hst. rewrite !String.eqb_eq in Hst. exact Hst.
    + intros ->. discriminate Htr.
Qed.

(** X11. In a poll that parsed its listing, every job returned beyond the
    listed ones comes with its completion notice, and every notice with such a
    job: each pair is about a job last known that is not listed any more, was
    not notified before, was running or pending and for which [sacct] gave a
    final status; the job returned is the last known job with that status. *)
Theorem poll_reports_gone_jobs :
  forall (env : Slurm) (p : SlurmJobProvider) (jobs : list Job) (cur : JsMap.t Job),
    squeue_version env <> "" -> squeue_out env <> "" ->
    parseLines (listedLines env) JsMap.empty = Some (jobs, cur) ->
    let r := getSlurmJobs env p in
    exists appended,
      valueOf r = jobs ++ appended
      /\ Forall2 (reportedGone env p cur) appended (effectsOf r).
Proof.
  intros env p jobs cur Hv Ho Hparse r. subst r.
  rewrite getSlurmJobs_listed, Hparse.
  apply truthy_nonempty in Hv. apply truthy_nonempty in Ho. rewrite Hv, Ho.
  cbn [negb]. cbv zeta. unfold valueOf, effectsOf. cbn [fst snd].
  destruct (vanished_loop_reports env p cur (JsMap.entries (lastKnownJobs p))
              jobs (notifiedJobs p) [] (fun x H => H) (fun x H => H))
    as (appended & shown & Hj & He & Hrel).
  exists appended. rewrite Hj, He. split; [reflexivity | exact Hrel].
Qed.

Lemma keeps_onProvider {A : Type} (Q : SlurmJobProvider -> Prop)
  (c : M SlurmJobProvider A) :
  keeps Q c -> keeps (fun w => Q (slurmJobProvider w)) (onProvider c).
Proof. intros H w Hw. rewrite onProvider_state. cbn. now apply H. Qed.

Lemma keeps_getSlurmJobs (env : Slurm) : keeps knownTidy (getSlurmJobs env).
Proof. intros p Hp. now apply getSlurmJobs_tidy. Qed.

Lemma keeps_updateView (env : Env) (k : nat) :
  keeps (fun w => knownTidy (slurmJobProvider w)) (updateView env k).
Proof.
  unfold updateView. repeat keeps_step.
  apply (keeps_onProvider knownTidy), keeps_getSlurmJobs.
Qed.

Ltac keeps_tidy :=
  repeat first
    [ keeps_step
    | apply keeps_updateView
    | apply (keeps_onProvider knownTidy)
    | apply keeps_getSlurmJobs ].

Lemma keeps_handle (env : Env) (ev : Event) :
  keeps (fun w => knownTidy (slurmJobProvider w)) (handle env ev).
Proof.
  destruct ev as [ | data | | | | job | scancel job | job | pattern | element ];
    try destruct data;
    unfold handle, onDidReceiveMessage, resolveWebviewView, handleAction, viewFile,
      selectAll, clearSelection, refresh, killJobCommand, confirmKillCommand,
      cancelKillCommand, setFilter, getChildren, setJobToConfirm, clearJobToConfirm,
      refreshJob, refresh;
    keeps_tidy.
Qed.

Lemma keeps_handleAll (evs : list (Env * Event)) :
  keeps (fun w => knownTidy (slurmJobProvider w)) (handleAll evs).
Proof.
  induction evs as [|[env ev] evs IH]; cbn [handleAll].
  - apply keeps_ret.
  - apply keeps_bind; [apply keeps_handle | intros _; exact IH].
Qed.

(** X12. Over a whole life of the extension, every job the provider
    remembers, every job a poll returns and every job on a page has fields
    without white space around them, never the node list [(None)] (it is
    replaced by the empty string) and a running time of three fields. *)
Theorem jobs_are_tidy :
  forall (evs : list (Env * Event)) (env : Env) (k : nat),
    let w := stateOf (handleAll evs activated) in
    knownTidy (slurmJobProvider w)
    /\ Forall tidy (valueOf (getSlurmJobs (polls env k) (slurmJobProvider w)))
    /\ (forall v, In (SetHtml v) (effectsOf (updateView env k w)) ->
                  Forall (fun row => tidy (row_job row))
                    (runningJobs v ++ scheduledJobs v ++ pastJobs v)).
Proof.
  intros evs env k w.
  assert (Hw : knownTidy (slurmJobProvider w)).
  { apply (keeps_handleAll evs). constructor. }
  split; [exact Hw |]. split; [now apply getSlurmJobs_tidy |].
  intros v Hin. rewrite updateView_eq in Hin.
  destruct (negb (resolved w)); [destruct Hin |].
  cbv zeta in Hin. rewrite effectsOf_triple in Hin.
  apply in_app_or in Hin. destruct Hin as [Hin | [Hin | []]].
  - exfalso. revert Hin. apply notice_not_in; [apply getSlurmJobs_only_notices | reflexivity].
  - injection Hin as <-.
    destruct (getSlurmJobs_tidy (polls env k) (slurmJobProvider w) Hw) as [Hjobs _].
    set (jobs := valueOf (getSlurmJobs (polls env k) (slurmJobProvider w))) in *.
    assert (Hsorted : Forall tidy (sortedJobs jobs)).
    { apply (Permutation_Forall (Permutation_sym (sort_perm Job _ jobs))).
      exact Hjobs. }
    assert (Hrows : forall w0 l, Forall tidy l ->
                                 Forall (fun row => tidy (row_job row)) (generateJobsHtml w0 l)).
    { intros w0 l Hl. unfold generateJobsHtml. apply Forall_map. cbn [row_job]. exact Hl. }
    unfold viewOf. cbn [runningJobs scheduledJobs pastJobs].
    rewrite !Forall_app. repeat split; apply Hrows.
    + unfold runningSection. rewrite Forall_forall in *. intros x Hx.
      apply filter_In in Hx. now apply Hsorted.
    + unfold scheduledSection. rewrite Forall_forall in *. intros x Hx.
      apply filter_In in Hx. now apply Hsorted.
    + unfold pastSection, slice0. rewrite Forall_forall in *. intros x Hx.
      apply in_firstn in Hx. apply filter_In in Hx. now apply Hsorted.
Qed.

(** X13. [getChildren] gives no children to an item and does not poll for
    it.  For the root it polls and returns one item for each polled job whose
    name the filter matches, every polled job when there is no filter; each
    item carries whether its job waits for the confirmation of its kill. *)
Theorem getChildren_filters_by_name :
  forall (env : Slurm) (item : JobItem) (p : SlurmJobProvider),
    let r := getChildren env None p in
    let jobs := valueOf (getSlurmJobs env p) in
    getChildren env (Some item) p = ([], p, [])
    /\ stateOf r = stateOf (getSlurmJobs env p)
    /\ effectsOf r = effectsOf (getSlurmJobs env p)
    /\ Permutation (valueOf r)
         (map (fun job => mkJobItem (name job) (jobId job) (status job) (nodelist job)
                            (runningTime job) (isJobToConfirm p (jobId job)))
            (match filterRegex p with
             | Some regex => filter (fun job => RegExp_test regex (name job)) jobs
             | None => jobs
             end))
    /\ (forall regex it, filterRegex p = Some regex -> In it (valueOf r) ->
                         RegExp_test regex (label it) = true).
Proof.
  intros env item p r jobs. subst r jobs.
  pose proof (getSlurmJobs_jobsToConfirm env p) as Hc.
  assert (Hf : filterRegex (stateOf (getSlurmJobs env p)) = filterRegex p).
  { destruct (getSlurmJobs_cases env p) as [-> | (jobs & cur & ->)]; reflexivity. }
  unfold getChildren, bind, get, ret, stateOf, valueOf, effectsOf in *.
  destruct (getSlurmJobs env p) as [[jobs p'] e]. cbn [fst snd] in *.
  rewrite !app_nil_r. unfold isJobToConfirm. rewrite Hc, Hf.
  assert (Hperm : Permutation
            (sort (fun a b => sortOrder (compareItems a b))
               (map (fun job => mkJobItem (name job) (jobId job) (status job) (nodelist job)
                                  (runningTime job) (JsSet.has (jobsToConfirm p) (jobId job)))
                  match filterRegex p with
                  | Some r => filter (fun job => RegExp_test r (name job)) jobs
                  | None => jobs
                  end))
            (map (fun job => mkJobItem (name job) (jobId job) (status job) (nodelist job)
                               (runningTime job) (JsSet.has (jobsToConfirm p) (jobId job)))
               match filterRegex p with
               | Some r => filter (fun job => RegExp_test r (name job)) jobs
               | None => jobs
               end)) by apply sort_perm.
  repeat split; try exact Hperm.
  intros regex it Hre Hin. rewrite Hre in Hperm, Hin.
  apply (Permutation_in _ Hperm) in Hin. apply in_map_iff in Hin.
  destruct Hin as (job & <- & Hjob). apply filter_In in Hjob. cbn. tauto.
Qed.

End MoreReports.

Section MoreSizes.
Context {RE : RegExpEngine} {CO : Collator}.

Lemma rows_length (w : JobsWebviewProvider) (jobs : list Job) :
  length (generateJobsHtml w jobs) = length jobs.
Proof. unfold generateJobsHtml. apply length_map. Qed.

Lemma sorted_filter_length (f : Job -> bool) (jobs : list Job) :
  length (filter f (sortedJobs jobs)) = length (filter f jobs).
Proof. apply Permutation_length, filter_perm, sort_perm. Qed.

(** X14. The page shows every running, completing and pending job of the
    snapshot, whatever their number.  Of the other jobs it shows the first
    [jobHistorySize] when that size is not negative, so all of them when there
    are no more than that and none for a size of 0; a negative size does not
    hide them all but leaves out as many jobs from the end as it says. *)
Theorem page_sizes :
  forall (historySize : Z) (w : JobsWebviewProvider) (jobs : list Job),
    let v := viewOf historySize w jobs in
    let others := filter (fun job => negb (status job =? "RUNNING")
                                     && negb (status job =? "PENDING")
                                     && negb (status job =? "COMPLETING")) jobs in
    length (runningJobs v)
    = length (filter (fun job => (status job =? "RUNNING") || (status job =? "COMPLETING")) jobs)
    /\ length (scheduledJobs v) = length (filter (fun job => status job =? "PENDING") jobs)
    /\ ((0 <= historySize)%Z ->
        Z.of_nat (length (pastJobs v)) = Z.min historySize (Z.of_nat (length others)))
    /\ ((historySize < 0)%Z ->
        Z.of_nat (length (pastJobs v))
        = Z.max (Z.of_nat (length others) + historySize) 0).
Proof.
  intros historySize w jobs v others. subst v others.
  unfold viewOf. cbn [runningJobs scheduledJobs pastJobs]. rewrite !rows_length.
  unfold runningSection, scheduledSection, pastSection, slice0.
  rewrite length_firstn, !sorted_filter_length.
  repeat split.
  - intros H. destruct (Z.ltb_spec historySize 0); lia.
  - intros H. destruct (Z.ltb_spec historySize 0); lia.
Qed.

End MoreSizes.

(** ** The selection of the terminal manager *)

Lemma includes_cons (b : ascii) (hay needle : string) :
  Str.includes (String b hay) needle
  = String.prefix needle (String b hay) || Str.includes hay needle.
Proof.
  unfold Str.includes. cbn [String.index].
  destruct (String.prefix needle (String b hay)); [reflexivity |].
  now destruct (String.index 0 needle hay).
Qed.

Lemma includes_empty (c : ascii) (needle : string) :
  Str.includes "" (String c needle) = false.
Proof. reflexivity. Qed.

Lemma prefix_cons (a b : ascii) (s1 s2 : string) :
  String.prefix (String a s1) (String b s2)
  = Ascii.eqb a b && String.prefix s1 s2.
Proof.
  cbn [String.prefix]. destruct (ascii_dec a b) as [->|Hne].
  - now rewrite Ascii.eqb_refl.
  - apply Ascii.eqb_neq in Hne. now rewrite Hne.
Qed.

Lemma prefix_nil (s : string) : String.prefix "" s = true.
Proof. destruct s; cbn [String.prefix]; reflexivity. Qed.

Lemma prefix_of_empty (a : ascii) (s : string) : String.prefix (String a s) "" = false.
Proof. cbn [String.prefix]. reflexivity. Qed.

Lemma append_assoc (a b c : string) : ((a ++ b) ++ c = a ++ (b ++ c))%string.
Proof. induction a as [|x a IH]; cbn; [reflexivity | now rewrite IH]. Qed.

Lemma append_empty (a : string) : (a ++ "")%string = a.
Proof. induction a as [|x a IH]; cbn; [reflexivity | now rewrite IH]. Qed.


Lemma join_spaced (x : string) (sel : list string) :
  (Str.join " " (x :: sel) ++ " ")%string = spaced (x :: sel).
Proof.
  revert x. induction sel as [|y sel IH]; intros x.
  - reflexivity.
  - change (Str.join " " (x :: y :: sel)) with (x ++ " " ++ Str.join " " (y :: sel))%string.
    rewrite !append_assoc, IH. reflexivity.
Qed.

Lemma includes_skip (x rest : string) (needle : string) :
  spaceFree x = true ->
  Str.includes (x ++ rest) (String " " needle) = Str.includes rest (String " " needle).
Proof.
  induction x as [|a x IH]; cbn [append spaceFree]; intros H; [reflexivity |].
  apply andb_true_iff in H. destruct H as [Ha Hx].
  rewrite includes_cons, prefix_cons, IH by exact Hx.
  apply negb_true_iff in Ha. rewrite (Ascii.eqb_sym " " a), Ha. reflexivity.
Qed.

Lemma prefix_word (id x rest : string) :
  spaceFree id = true -> spaceFree x = true ->
  String.prefix (id ++ " ") (x ++ String " " rest) = (id =? x).
Proof.
  revert x. induction id as [|a id IH]; intros [|c x] Hid Hx; cbn [append spaceFree] in *.
  - rewrite prefix_cons, prefix_nil. reflexivity.
  - apply andb_true_iff in Hx. destruct Hx as [Hc _]. apply negb_true_iff in Hc.
    rewrite prefix_cons, (Ascii.eqb_sym " " c), Hc. reflexivity.
  - apply andb_true_iff in Hid. destruct Hid as [Ha _]. apply negb_true_iff in Ha.
    rewrite prefix_cons, Ha. reflexivity.
  - apply andb_true_iff in Hid. destruct Hid as [_ Hid].
    apply andb_true_iff in Hx. destruct Hx as [_ Hx].
    rewrite prefix_cons, IH by assumption. reflexivity.
Qed.

Lemma includes_spaced (id : string) (sel : list string) :
  spaceFree id = true -> forallb spaceFree sel = true ->
  Str.includes (String " " (spaced sel)) (" " ++ id ++ " ")%string = JsSet.has sel id.
Proof.
  intros Hid. induction sel as [|x sel IH]; intros Hsel.
  - cbn [spaced]. change (" " ++ id ++ " ")%string with (String " " (id ++ " ")).
    rewrite includes_cons, prefix_cons.
    destruct id; reflexivity.
  - cbn [forallb] in Hsel. apply andb_true_iff in Hsel. destruct Hsel as [Hx Hsel].
    cbn [spaced]. change (" " ++ id ++ " ")%string with (String " " (id ++ " ")).
    rewrite includes_cons, prefix_cons. cbn [Ascii.eqb andb].
    change (x ++ " " ++ spaced sel)%string with (x ++ String " " (spaced sel))%string.
    rewrite (prefix_word id x _ Hid Hx).
    rewrite (includes_skip x _ _ Hx).
    change (String " " (id ++ " ")) with (" " ++ id ++ " ")%string.
    rewrite (IH Hsel). reflexivity.
Qed.

Lemma is_selected_exact (sel : list string) (id : string) :
  plainId id -> forallb spaceFree sel = true ->
  is_selected sel id = JsSet.has sel id.
Proof.
  intros [Hne Hid] Hsel. unfold is_selected.
  destruct sel as [|x sel].
  - destruct id as [|a id]; [contradiction |].
    cbn [spaceFree] in Hid. apply andb_true_iff in Hid. destruct Hid as [Ha _].
    apply negb_true_iff in Ha.
    change (" " ++ Str.join " " [] ++ " ")%string with (String " " (String " " "")).
    change (" " ++ String a id ++ " ")%string with (String " " (String a (id ++ " "))).
    rewrite includes_cons, !prefix_cons, includes_cons, prefix_cons.
    rewrite Ha, prefix_of_empty. reflexivity.
  - change (" " ++ Str.join " " (x :: sel) ++ " ")%string
      with (String " " (Str.join " " (x :: sel) ++ " ")).
    rewrite join_spaced. now apply includes_spaced.
Qed.

Lemma includes_no_space (x needle : string) :
  spaceFree x = true -> Str.includes x (String " " needle) = false.
Proof.
  intros H. rewrite <- (append_empty x), includes_skip by exact H. reflexivity.
Qed.

Lemma prefix_word_end (id x : string) :
  spaceFree x = true -> String.prefix (id ++ " ") x = false.
Proof.
  revert x. induction id as [|a id IH]; intros [|c x] Hx; cbn [append spaceFree] in *.
  - apply prefix_of_empty.
  - apply andb_true_iff in Hx. destruct Hx as [Hc _]. apply negb_true_iff in Hc.
    rewrite prefix_cons, (Ascii.eqb_sym " " c), Hc. reflexivity.
  - apply prefix_of_empty.
  - apply andb_true_iff in Hx. destruct Hx as [_ Hx].
    rewrite prefix_cons, IH by exact Hx. apply andb_false_r.
Qed.

(** Between two spaces, an identifier is found in the space-joined list
    after a space only when it is an element other than the last. *)
Lemma includes_inner (id : string) (sel : list string) :
  spaceFree id = true -> forallb spaceFree sel = true ->
  Str.includes (String " " (Str.join " " sel)) (" " ++ id ++ " ")%string
  = JsSet.has (removelast sel) id.
Proof.
  intros Hid. change (" " ++ id ++ " ")%string with (String " " (id ++ " ")).
  induction sel as [|x sel IH]; intros Hsel.
  - change (Str.join " " []) with "". rewrite includes_cons, prefix_cons.
    destruct id; reflexivity.
  - cbn [forallb] in Hsel. apply andb_true_iff in Hsel. destruct Hsel as [Hx Hsel].
    destruct sel as [|y sel].
    + change (Str.join " " [x]) with x. cbn [removelast].
      rewrite includes_cons, prefix_cons.
      rewrite (prefix_word_end id x Hx), (includes_no_space x _ Hx). reflexivity.
    + change (Str.join " " (x :: y :: sel))
        with (x ++ String " " (Str.join " " (y :: sel)))%string.
      rewrite includes_cons, prefix_cons. cbn [Ascii.eqb andb].
      rewrite (prefix_word id x _ Hid Hx), (includes_skip x _ _ Hx), (IH Hsel).
      reflexivity.
Qed.

(** What [are_all_jobs_selected] looks for: the identifier is an element of
    the selection that is neither the first nor the last. *)
Lemma includes_join (id : string) (sel : list string) :
  spaceFree id = true -> forallb spaceFree sel = true ->
  Str.includes (Str.join " " sel) (" " ++ id ++ " ")%string
  = JsSet.has (removelast (tl sel)) id.
Proof.
  intros Hid Hsel. destruct sel as [|x sel].
  - reflexivity.
  - cbn [forallb] in Hsel. apply andb_true_iff in Hsel. destruct Hsel as [Hx Hsel].
    cbn [tl]. destruct sel as [|y sel].
    + change (Str.join " " [x]) with x. cbn [removelast].
      change (" " ++ id ++ " ")%string with (String " " (id ++ " ")).
      now rewrite includes_no_space.
    + change (Str.join " " (x :: y :: sel))
        with (x ++ String " " (Str.join " " (y :: sel)))%string.
      change (" " ++ id ++ " ")%string with (String " " (id ++ " ")).
      rewrite (includes_skip x _ _ Hx).
      change (String " " (id ++ " ")) with (" " ++ id ++ " ")%string.
      now apply includes_inner.
Qed.

Lemma in_removelast {A : Type} (x : A) (l : list A) : In x (removelast l) -> In x l.
Proof.
  induction l as [|a l IH]; [intros [] |].
  destruct l as [|b l]; [intros [] |].
  intros [H|H]; [now left | right; now apply IH].
Qed.

Lemma plain_spaceFree (l : list string) :
  Forall plainId l -> forallb spaceFree l = true.
Proof.
  intros H. apply forallb_forall. intros x Hx.
  rewrite Forall_forall in H. now apply H.
Qed.

Lemma has_false (l : list string) (x : string) : ~ In x l -> JsSet.has l x = false.
Proof.
  intros H. destruct (JsSet.has l x) eqn:E; [| reflexivity].
  exfalso. apply H. now apply has_In.
Qed.

Section MoreTerminal.
Context {BR : BashRegex}.

(** X15. [toggle_selection], slurm_manager.sh: for identifiers without a space
    that are not empty, toggling flips whether the identifier is drawn as
    selected, leaves every other identifier as it was and keeps the
    selection free of empty and spaced elements; toggling an unselected
    identifier twice gives back the selection itself. *)
Theorem toggle_selection_flips (t : Terminal) (id : string) :
  Forall plainId (selected_jobs t) -> plainId id ->
  is_selected (selected_jobs (toggle_selection id t)) id
  = negb (is_selected (selected_jobs t) id)
  /\ (forall id', plainId id' -> id' <> id ->
        is_selected (selected_jobs (toggle_selection id t)) id'
        = is_selected (selected_jobs t) id')
  /\ Forall plainId (selected_jobs (toggle_selection id t))
  /\ (is_selected (selected_jobs t) id = false ->
      toggle_selection id (toggle_selection id t) = t).
Proof.
  intros Hsel Hid.
  assert (Hafter : Forall plainId (selected_jobs (toggle_selection id t))).
  { unfold toggle_selection. destruct (is_selected (selected_jobs t) id); cbn.
    - apply Forall_forall. intros x Hx. apply filter_In in Hx.
      rewrite Forall_forall in Hsel. now apply Hsel.
    - apply Forall_app. split; [exact Hsel | now constructor]. }
  assert (Hkeep : filter (fun j => negb (j =? id) && negb (j =? "")) (selected_jobs t)
                  = JsSet.delete id (selected_jobs t)).
  { unfold JsSet.delete. apply filter_ext_in. intros j Hj.
    rewrite Forall_forall in Hsel. destruct (Hsel j Hj) as [Hne _].
    apply String.eqb_neq in Hne. rewrite Hne, andb_true_r, (String.eqb_sym id j).
    reflexivity. }
  split; [| split; [| split]].
  - rewrite (is_selected_exact _ id Hid (plain_spaceFree _ Hafter)).
    rewrite (is_selected_exact _ id Hid (plain_spaceFree _ Hsel)).
    unfold toggle_selection.
    rewrite (is_selected_exact _ id Hid (plain_spaceFree _ Hsel)).
    destruct (JsSet.has (selected_jobs t) id) eqn:E; cbn [setSelected selected_jobs].
    + rewrite Hkeep, has_delete_same. reflexivity.
    + rewrite has_app. cbn. rewrite String.eqb_refl. now rewrite orb_true_r.
  - intros id' Hid' Hne.
    rewrite (is_selected_exact _ id' Hid' (plain_spaceFree _ Hafter)).
    rewrite (is_selected_exact _ id' Hid' (plain_spaceFree _ Hsel)).
    unfold toggle_selection.
    apply String.eqb_neq in Hne.
    destruct (is_selected (selected_jobs t) id); cbn [setSelected selected_jobs].
    + rewrite Hkeep, has_delete, (String.eqb_sym id id'), Hne. apply andb_true_r.
    + rewrite has_app. cbn. rewrite Hne. now rewrite !orb_false_r.
  - exact Hafter.
  - intros Hno. unfold toggle_selection at 2. rewrite Hno.
    assert (Hin : is_selected (selected_jobs (setSelected (selected_jobs t ++ [id]) t)) id
                  = true).
    { cbn [setSelected selected_jobs].
      rewrite (is_selected_exact _ id Hid).
      - rewrite has_app. cbn. rewrite String.eqb_refl. now rewrite orb_true_r.
      - apply plain_spaceFree. apply Forall_app. split; [exact Hsel | now constructor]. }
    unfold toggle_selection. rewrite Hin. cbn [setSelected selected_jobs
      selected_index jobs_data filter_mode filter_text filtered_jobs cursor_pos
      entered_regex_with_down].
    rewrite filter_app. cbn [filter]. rewrite String.eqb_refl. cbn [negb andb].
    rewrite app_nil_r, Hkeep.
    rewrite (is_selected_exact _ id Hid (plain_spaceFree _ Hsel)) in Hno.
    assert (Hsame : JsSet.delete id (selected_jobs t) = selected_jobs t).
    { unfold JsSet.delete. clear - Hno. induction (selected_jobs t) as [|x l IH].
      - reflexivity.
      - cbn in Hno. apply orb_false_iff in Hno. destruct Hno as [Hx Hl].
        cbn. rewrite Hx. cbn. now rewrite IH. }
    rewrite Hsame. now destruct t.
Qed.

(** X16. [select_all] and [are_all_jobs_selected], slurm_manager.sh: with at
    least one row and rows of distinct plain identifiers, after [select_all]
    every row is drawn as selected, yet [are_all_jobs_selected] answers no,
    because it looks for each identifier between two spaces in a list that
    has no space at its ends; so Enter on the header line, pressed on a
    full selection, selects everything again and clears nothing. *)
Theorem select_all_not_recognised (t : Terminal) :
  plainRows (jobs_data t) -> jobs_data t <> [] ->
  (forall row, In row (jobs_data t) ->
     is_selected (selected_jobs (select_all t)) (row_jobid row) = true)
  /\ are_all_jobs_selected (select_all t) = false
  /\ (selected_index t = (-1)%Z ->
      normal_key NormalEnter (select_all t) = select_all t).
Proof.
  intros [Hplain Hnodup] Hne.
  assert (Hfree : forallb spaceFree (map row_jobid (jobs_data t)) = true)
    by now apply plain_spaceFree.
  assert (Hno : are_all_jobs_selected (select_all t) = false).
  { unfold are_all_jobs_selected, select_all.
    cbn [setSelected selected_jobs jobs_data].
    destruct (jobs_data t) as [|r rows] eqn:E; [contradiction |].
    cbn [map] in *. inversion Hnodup as [|? ? Hr Hrows]; subst.
    inversion Hplain as [|? ? [Hr1 Hr2] Hps]; subst.
    cbn [filter]. rewrite (includes_join _ _ Hr2 Hfree). cbn [tl].
    rewrite has_false by (intros Hin; apply Hr; now apply in_removelast).
    apply Nat.eqb_neq. cbn [length].
    pose proof (filter_length_le
      (fun job => Str.includes (Str.join " " (row_jobid r :: map row_jobid rows))
                    (" " ++ row_jobid job ++ " ")%string) rows).
    lia. }
  split; [| split].
  - intros row Hrow. unfold select_all. cbn [setSelected selected_jobs].
    rewrite is_selected_exact.
    + destruct (JsSet.has (map row_jobid (jobs_data t)) (row_jobid row)) eqn:E;
        [reflexivity |].
      exfalso. assert (Hin : In (row_jobid row) (map row_jobid (jobs_data t)))
        by now apply in_map.
      apply has_In in Hin. congruence.
    + rewrite Forall_forall in Hplain. apply Hplain. now apply in_map.
    + exact Hfree.
  - exact Hno.
  - intros Hidx. unfold normal_key.
    replace (selected_index (select_all t)) with (selected_index t) by reflexivity.
    rewrite Hidx. cbn [Z.eqb Pos.eqb]. rewrite Hno. reflexivity.
Qed.

Lemma select_matching_grows (pattern : string) (rows sel : list string) :
  exists added,
    fold_left (select_matching pattern) rows sel = sel ++ added
    /\ forall id, In id added ->
         exists row, In row rows /\ id = row_jobid row
                     /\ regex_match (row_name row) pattern = true.
Proof.
  revert sel. induction rows as [|r rows IH]; intros sel.
  - exists []. split; [now rewrite app_nil_r | intros ? []].
  - cbn [fold_left]. unfold select_matching at 2.
    destruct (regex_match (row_name r) pattern) eqn:Em.
    + destruct (is_selected sel (row_jobid r)); cbn [negb].
      * destruct (IH sel) as [added [H1 H2]]. exists added. split; [exact H1 |].
        intros id Hid. destruct (H2 id Hid) as [row [? ?]]. exists row.
        split; [now right | assumption].
      * destruct (IH (sel ++ [row_jobid r])) as [added [H1 H2]].
        exists (row_jobid r :: added). split.
        -- rewrite H1, <- app_assoc. reflexivity.
        -- intros id [<-|Hid].
           ++ exists r. split; [now left | now split].
           ++ destruct (H2 id Hid) as [row [? ?]]. exists row.
              split; [now right | assumption].
    + destruct (IH sel) as [added [H1 H2]]. exists added. split; [exact H1 |].
      intros id Hid. destruct (H2 id Hid) as [row [? ?]]. exists row.
      split; [now right | assumption].
Qed.

Lemma select_matching_has (pattern : string) (rows sel : list string) (id : string) :
  Forall plainId (map row_jobid rows) -> Forall plainId sel ->
  JsSet.has (fold_left (select_matching pattern) rows sel) id
  = JsSet.has sel id
    || existsb (fun row => (id =? row_jobid row) && regex_match (row_name row) pattern) rows.
Proof.
  revert sel. induction rows as [|r rows IH]; intros sel Hrows Hsel.
  - cbn. now rewrite orb_false_r.
  - cbn [map] in Hrows. inversion Hrows as [|? ? Hr Hrows']; subst.
    cbn [fold_left existsb]. unfold select_matching at 2.
    destruct (regex_match (row_name r) pattern) eqn:Em.
    + rewrite (is_selected_exact sel _ Hr (plain_spaceFree _ Hsel)).
      destruct (JsSet.has sel (row_jobid r)) eqn:Eh; cbn [negb].
      * rewrite (IH sel Hrows' Hsel). rewrite andb_true_r.
        destruct (String.eqb_spec id (row_jobid r)) as [->|Hne].
        -- rewrite Eh. reflexivity.
        -- reflexivity.
      * rewrite IH; [| exact Hrows' | apply Forall_app; split; [exact Hsel | now constructor]].
        rewrite has_app. cbn [JsSet.has existsb]. rewrite andb_true_r, orb_false_r.
        now rewrite orb_assoc.
    + rewrite (IH sel Hrows' Hsel). now rewrite andb_false_r.
Qed.

Lemma select_matching_NoDup (pattern : string) (rows sel : list string) :
  Forall plainId (map row_jobid rows) -> Forall plainId sel -> NoDup sel ->
  NoDup (fold_left (select_matching pattern) rows sel)
  /\ Forall plainId (fold_left (select_matching pattern) rows sel).
Proof.
  revert sel. induction rows as [|r rows IH]; intros sel Hrows Hsel Hnd.
  - now split.
  - cbn [map] in Hrows. inversion Hrows as [|? ? Hr Hrows']; subst.
    cbn [fold_left]. unfold select_matching at 2 4.
    destruct (regex_match (row_name r) pattern); [| now apply IH].
    rewrite (is_selected_exact sel _ Hr (plain_spaceFree _ Hsel)).
    destruct (JsSet.has sel (row_jobid r)) eqn:Eh; cbn [negb]; [now apply IH |].
    apply IH; [exact Hrows' | apply Forall_app; split; [exact Hsel | now constructor] |].
    apply NoDup_app; [exact Hnd | constructor; [intros [] | constructor] |].
    intros x Hx [<-|[]]. apply has_In in Hx. congruence.
Qed.

(** X17. The Enter key of regex mode, slurm_manager.sh: with a pattern that
    is not empty, plain identifiers in the rows and in the selection, the
    key leaves regex mode with an empty line on the first row, keeps the
    old selection as the beginning of the new one, and an identifier is
    selected afterwards exactly when it was selected before or is that of a
    row whose name the pattern matches; a selection without repetition
    stays so.  Nothing is ever deselected by the key. *)
Theorem filter_enter_adds_matching (t : Terminal) :
  filter_text t <> "" ->
  Forall plainId (map row_jobid (jobs_data t)) -> Forall plainId (selected_jobs t) ->
  let t' := filter_enter t in
  filter_mode t' = false /\ filter_text t' = "" /\ cursor_pos t' = 0%nat
  /\ selected_index t' = 0%Z /\ jobs_data t' = jobs_data t
  /\ (exists added, selected_jobs t' = selected_jobs t ++ added)
  /\ (forall id, plainId id ->
        is_selected (selected_jobs t') id
        = is_selected (selected_jobs t) id
          || existsb (fun row => (id =? row_jobid row)
                                 && regex_match (row_name row) (filter_text t))
               (jobs_data t))
  /\ (NoDup (selected_jobs t) -> NoDup (selected_jobs t')).
Proof.
  intros Hne Hrows Hsel t'. subst t'. unfold filter_enter.
  cbn [filter_mode filter_text cursor_pos selected_index jobs_data selected_jobs].
  apply String.eqb_neq in Hne. rewrite Hne. cbn [negb].
  repeat match goal with |- _ /\ _ => split; [reflexivity |] end.
  split; [| split].
  - destruct (select_matching_grows (filter_text t) (jobs_data t) (selected_jobs t))
      as [added [H _]]. now exists added.
  - intros id Hid.
    assert (Hafter : Forall plainId
              (fold_left (select_matching (filter_text t)) (jobs_data t) (selected_jobs t))).
    { destruct (select_matching_grows (filter_text t) (jobs_data t) (selected_jobs t))
        as [added [H1 H2]]. rewrite H1. apply Forall_app. split; [exact Hsel |].
      apply Forall_forall. intros x Hx. destruct (H2 x Hx) as [row [Hrow [-> _]]].
      rewrite Forall_forall in Hrows. apply Hrows. now apply in_map. }
    rewrite (is_selected_exact _ id Hid (plain_spaceFree _ Hafter)).
    rewrite (is_selected_exact _ id Hid (plain_spaceFree _ Hsel)).
    now apply select_matching_has.
  - intros Hnd. now apply select_matching_NoDup.
Qed.

End MoreTerminal.

(** ** The regex line of the terminal manager *)

Lemma length_append (a b : string) :
  String.length (a ++ b) = (String.length a + String.length b)%nat.
Proof. induction a as [|c a IH]; cbn; [reflexivity | now rewrite IH]. Qed.

Lemma substring_all (m : nat) (s : string) :
  (String.length s <= m)%nat -> String.substring 0 m s = s.
Proof.
  revert m. induction s as [|c s IH]; intros m H.
  - now destruct m.
  - destruct m as [|m]; cbn in H; [lia |]. cbn. rewrite IH by lia. reflexivity.
Qed.

Lemma substring_rest (n m m' : nat) (s : string) :
  (String.length s <= n + m)%nat -> (String.length s <= n + m')%nat ->
  String.substring n m s = String.substring n m' s.
Proof.
  revert n. induction s as [|c s IH]; intros n H H'.
  - destruct n, m, m'; reflexivity.
  - destruct n as [|n].
    + rewrite !substring_all by (cbn in *; lia). reflexivity.
    + cbn in *. apply IH; lia.
Qed.

Lemma substring_length (n m : nat) (s : string) :
  String.length (String.substring n m s) = Nat.min m (String.length s - n).
Proof.
  revert n m. induction s as [|c s IH]; intros n m.
  - destruct n, m; reflexivity.
  - destruct n as [|n].
    + destruct m as [|m]; [reflexivity |]. cbn. rewrite IH. now rewrite Nat.sub_0_r.
    + cbn. apply IH.
Qed.

Lemma from_pos_length (s : string) (n : nat) :
  String.length (from_pos s n) = (String.length s - n)%nat.
Proof. unfold from_pos. rewrite substring_length. lia. Qed.

(** [${text:0:$n}${text:$n}] is the text. *)
Lemma substring_split (n : nat) (s : string) :
  (String.substring 0 n s ++ from_pos s n)%string = s.
Proof.
  unfold from_pos. revert n. induction s as [|c s IH]; intros n.
  - now destruct n.
  - destruct n as [|n].
    + rewrite (substring_all (String.length (String c s))) by lia. reflexivity.
    + change (String c (String.substring 0 n s
                          ++ String.substring n (S (String.length s)) s)%string
              = String c s).
      rewrite (substring_rest n (S (String.length s)) (String.length s)) by lia.
      now rewrite IH.
Qed.

Lemma substring_front (a b : string) :
  String.substring 0 (String.length a) (a ++ b) = a.
Proof. induction a as [|c a IH]; cbn; [now destruct b | now rewrite IH]. Qed.

Lemma from_pos_back (a b : string) : from_pos (a ++ b) (String.length a) = b.
Proof.
  unfold from_pos. induction a as [|c a IH].
  - cbn [append String.length]. apply substring_all. lia.
  - cbn [append String.length String.substring].
    rewrite (substring_rest _ _ (String.length (a ++ b))) by lia. exact IH.
Qed.

Lemma append_cons (a : string) (c : ascii) (b : string) :
  (a ++ String c b)%string = ((a ++ String c "") ++ b)%string.
Proof. induction a as [|x a IH]; cbn; [reflexivity | now rewrite IH]. Qed.

Lemma setLine_same (t : Terminal) : setLine (filter_text t) (cursor_pos t) t = t.
Proof. now destruct t. Qed.

Lemma cursor_setLine (text : string) (pos : nat) (t : Terminal) :
  cursor_pos (setLine text pos t) = pos.
Proof. reflexivity. Qed.

Lemma text_setLine (text : string) (pos : nat) (t : Terminal) :
  filter_text (setLine text pos t) = text.
Proof. reflexivity. Qed.

Lemma setLine_setLine (text text' : string) (pos pos' : nat) (t : Terminal) :
  setLine text' pos' (setLine text pos t) = setLine text' pos' t.
Proof. reflexivity. Qed.

Section MoreLine.
Context {BR : BashRegex}.

Lemma front_length (t : Terminal) :
  cursorInText t ->
  String.length (String.substring 0 (cursor_pos t) (filter_text t)) = cursor_pos t.
Proof. unfold cursorInText. intros H. rewrite substring_length. lia. Qed.

(** The line after a visible character is typed. *)
Lemma char_line (c : ascii) (t : Terminal) :
  isGraph c = true ->
  filter_key (KeyChar c) t
  = setLine (String.substring 0 (cursor_pos t) (filter_text t)
               ++ String c (from_pos (filter_text t) (cursor_pos t)))%string
      (cursor_pos t + 1) t.
Proof.
  intros H. unfold filter_key, readsEmpty, isPrint. unfold isGraph in H. cbv zeta in *.
  apply andb_true_iff in H. destruct H as [H1 H2].
  apply Nat.leb_le in H1. apply Nat.leb_le in H2.
  repeat match goal with
         | |- context [(nat_of_ascii c =? ?k)%nat] =>
             replace (nat_of_ascii c =? k)%nat with false
               by (symmetry; apply Nat.eqb_neq; lia)
         end.
  cbn [orb].
  replace (32 <=? nat_of_ascii c)%nat with true by (symmetry; apply Nat.leb_le; lia).
  replace (nat_of_ascii c <=? 126)%nat with true by (symmetry; apply Nat.leb_le; lia).
  reflexivity.
Qed.


Lemma char_parts (c : ascii) (t : Terminal) :
  cursorInText t ->
  let a := String.substring 0 (cursor_pos t) (filter_text t) in
  let b := from_pos (filter_text t) (cursor_pos t) in
  String.substring 0 (cursor_pos t) (a ++ String c b) = a
  /\ String.substring 0 (cursor_pos t + 1) (a ++ String c b) = (a ++ String c "")%string
  /\ from_pos (a ++ String c b) (cursor_pos t + 1) = b
  /\ String.length (a ++ String c b) = (String.length (filter_text t) + 1)%nat.
Proof.
  intros Hin a b. pose proof (front_length t Hin) as Hlen. fold a in Hlen.
  assert (Hab : (a ++ b)%string = filter_text t) by apply substring_split.
  assert (Hlen' : String.length (a ++ String c "") = (cursor_pos t + 1)%nat)
    by (rewrite length_append, Hlen; reflexivity).
  split; [| split; [| split]].
  - rewrite <- Hlen at 1. apply substring_front.
  - rewrite append_cons, <- Hlen'. apply substring_front.
  - rewrite append_cons, <- Hlen'. apply from_pos_back.
  - rewrite length_append, <- Hab, length_append. cbn. lia.
Qed.

(** X18. The regex line of slurm_manager.sh: with the cursor within the text,
    a visible character, printable and not the space, is inserted at the
    cursor and the cursor moves behind it; Backspace then gives back the
    state before the character, and so do Left and Delete.  A space is not
    inserted: it is read as the empty key and does what Enter does. *)
Theorem typed_character_undone (c : ascii) (t : Terminal) :
  cursorInText t -> isGraph c = true ->
  let t' := filter_key (KeyChar c) t in
  filter_text t'
  = (String.substring 0 (cursor_pos t) (filter_text t)
       ++ String c (from_pos (filter_text t) (cursor_pos t)))%string
  /\ cursor_pos t' = (cursor_pos t + 1)%nat
  /\ String.length (filter_text t') = (String.length (filter_text t) + 1)%nat
  /\ filter_key KeyBackspace t' = t
  /\ filter_key KeyDelete (filter_key KeyLeft t') = t
  /\ filter_key (KeyChar " ") t = filter_key KeyEnter t.
Proof.
  intros Hin Hc t'. subst t'. rewrite (char_line c t Hc).
  destruct (char_parts c t Hin) as [Hfront [_ [Hback Hlen]]].
  assert (Hab := substring_split (cursor_pos t) (filter_text t)).
  assert (Hpos : (0 <? cursor_pos t + 1)%nat = true) by (apply Nat.ltb_lt; lia).
  split; [reflexivity |]. split; [reflexivity |]. split; [exact Hlen |].
  split; [| split; [| reflexivity]].
  - unfold filter_key, backspace. rewrite !cursor_setLine, !text_setLine, Hpos.
    replace (cursor_pos t + 1 - 1)%nat with (cursor_pos t) by lia.
    rewrite Hfront, Hback, Hab, setLine_setLine. apply setLine_same.
  - unfold filter_key. rewrite !cursor_setLine, !text_setLine, Hpos.
    rewrite !cursor_setLine, !text_setLine.
    replace (cursor_pos t + 1 - 1)%nat with (cursor_pos t) by lia.
    assert (Hlt : (cursor_pos t
                   <? String.length
                        (String.substring 0 (cursor_pos t) (filter_text t)
                           ++ String c (from_pos (filter_text t) (cursor_pos t))))%nat
                  = true).
    { apply Nat.ltb_lt. unfold cursorInText in Hin. lia. }
    rewrite Hlt, Hfront, Hback, Hab, !setLine_setLine. apply setLine_same.
Qed.


End MoreLine.

(** ** The loop of the terminal manager *)


Lemma sameLine_refl (t : Terminal) : sameLine t t.
Proof. repeat split. Qed.

Lemma sameLine_trans (t1 t2 t3 : Terminal) :
  sameLine t1 t2 -> sameLine t2 t3 -> sameLine t1 t3.
Proof. unfold sameLine. intuition congruence. Qed.

Lemma sameLine_invariant (t t' : Terminal) :
  sameLine t t' -> managerInvariant t -> managerInvariant t'.
Proof.
  unfold sameLine, managerInvariant, cursorInText.
  intros [H1 [H2 [H3 [H4 [H5 H6]]]]]. rewrite H1, H2, H3, H5, H6. tauto.
Qed.

Section MoreLoop.
Context {BR : BashRegex}.

Lemma get_jobs_sameLine (new_jobs : list string) (t : Terminal) :
  sameLine t (fst (get_jobs new_jobs t))
  /\ selected_jobs (fst (get_jobs new_jobs t)) = selected_jobs t.
Proof.
  unfold get_jobs.
  destruct (negb (length new_jobs =? length (jobs_data t))%nat
            || negb (Str.join " " new_jobs =? Str.join " " (jobs_data t)));
    split; try reflexivity; repeat split.
Qed.

Lemma toggle_selection_sameLine (id : string) (t : Terminal) :
  sameLine t (toggle_selection id t).
Proof.
  unfold toggle_selection. destruct (is_selected (selected_jobs t) id); repeat split.
Qed.

Lemma cancel_fold (refresh : string -> list string) (ids : list string)
  (t : Terminal) (cmds : list string) :
  snd (fold_left (cancel_step refresh) ids (t, cmds))
  = cmds ++ map (fun id => ("scancel " ++ id)%string) ids
  /\ sameLine t (fst (fold_left (cancel_step refresh) ids (t, cmds)))
  /\ selected_jobs (fst (fold_left (cancel_step refresh) ids (t, cmds)))
     = selected_jobs t.
Proof.
  revert t cmds. induction ids as [|id ids IH]; intros t cmds.
  - cbn. rewrite app_nil_r. split; [reflexivity |]. split; [apply sameLine_refl | reflexivity].
  - cbn [fold_left map]. unfold cancel_step at 2 4 6. cbn [fst snd].
    destruct (IH (fst (get_jobs (refresh id) t)) (cmds ++ [("scancel " ++ id)%string]))
      as [H1 [H2 H3]].
    destruct (get_jobs_sameLine (refresh id) t) as [G1 G2].
    split; [| split].
    + rewrite H1, <- app_assoc. reflexivity.
    + exact (sameLine_trans _ _ _ G1 H2).
    + now rewrite H3.
Qed.

Lemma cancel_key_sameLine (confirmed : bool) (refresh : string -> list string)
  (t : Terminal) : sameLine t (fst (cancel_key confirmed refresh t)).
Proof.
  unfold cancel_key.
  destruct (0 <? length (selected_jobs t))%nat.
  - destruct confirmed; [| apply sameLine_refl]. cbv zeta. cbn [fst].
    destruct (cancel_fold refresh (selected_jobs t) t []) as [_ [H _]].
    destruct H as [H1 [H2 [H3 [H4 [H5 H6]]]]]. repeat split; assumption.
  - destruct (0 <? length (jobs_data t))%nat; [| apply sameLine_refl].
    destruct confirmed; [| apply sameLine_refl].
    unfold cancel_step. cbn [fst]. apply get_jobs_sameLine.
Qed.

(** X20. The key [1] of slurm_manager.sh: answered with no, it runs nothing
    and changes nothing; answered with yes on a selection, it hands
    [run_command] one [scancel] for each selected identifier, in the order
    of the selection as it was when the key was pressed, whatever the
    refreshes in between bring, and ends with an empty selection, the job
    under the cursor not being touched; with no selection it hands over one
    [scancel], for the row under the cursor.  The cursor, the mode and the
    regex line stay. *)
Theorem cancel_key_commands (confirmed : bool) (refresh : string -> list string)
  (t : Terminal) :
  (cancel_key false refresh t = (t, []))
  /\ (selected_jobs t <> [] ->
      snd (cancel_key true refresh t)
      = map (fun id => ("scancel " ++ id)%string) (selected_jobs t)
      /\ selected_jobs (fst (cancel_key true refresh t)) = [])
  /\ (selected_jobs t = [] -> jobs_data t <> [] ->
      snd (cancel_key true refresh t)
      = [("scancel " ++ row_jobid (row_at t (selected_index t)))%string]
      /\ selected_jobs (fst (cancel_key true refresh t)) = [])
  /\ (selected_jobs t = [] -> jobs_data t = [] -> cancel_key true refresh t = (t, []))
  /\ sameLine t (fst (cancel_key confirmed refresh t)).
Proof.
  split; [| split; [| split; [| split]]].
  - unfold cancel_key.
    destruct (0 <? length (selected_jobs t))%nat; [reflexivity |].
    destruct (0 <? length (jobs_data t))%nat; reflexivity.
  - intros Hne. unfold cancel_key.
    destruct (selected_jobs t) as [|x sel] eqn:E; [contradiction |].
    cbn [length Nat.ltb Nat.leb]. cbv zeta. cbn [fst snd].
    destruct (cancel_fold refresh (x :: sel) t []) as [H _].
    rewrite H. split; reflexivity.
  - intros He Hne. unfold cancel_key. rewrite He.
    destruct (jobs_data t) as [|r rows] eqn:E; [contradiction |].
    cbn [length Nat.ltb Nat.leb]. unfold cancel_step. cbn [fst snd app].
    split; [reflexivity |].
    destruct (get_jobs_sameLine (refresh (row_jobid (row_at t (selected_index t)))) t)
      as [_ G]. now rewrite G.
  - intros He Hr. unfold cancel_key. now rewrite He, Hr.
  - apply cancel_key_sameLine.
Qed.

Lemma normal_key_invariant (k : NormalKey) (t : Terminal) :
  filter_mode t = false -> managerInvariant t -> managerInvariant (normal_key k t).
Proof.
  intros Hmode [Hidx [Hcur Hline]]. destruct (Hline Hmode) as [Htext [Hpos Hflag]].
  destruct k; unfold normal_key.
  - destruct (-1 <? selected_index t)%Z eqn:E; [| now repeat split].
    apply Z.ltb_lt in E. split; [cbn; lia |]. split; [exact Hcur | exact Hline].
  - destruct (selected_index t <? Z.of_nat (length (jobs_data t)) - 1)%Z.
    + split; [cbn; lia |]. split; [exact Hcur | exact Hline].
    + split; [cbn; lia |]. split; [exact Hcur | cbn; discriminate].
  - destruct (selected_index t =? -1)%Z.
    + destruct (are_all_jobs_selected t); (split; [exact Hidx |]);
        (split; [exact Hcur | exact Hline]).
    + destruct (0 <? length (jobs_data t))%nat; [| now repeat split].
      apply (sameLine_invariant t); [apply toggle_selection_sameLine | now repeat split].
  - split; [cbn; lia |]. split; [exact Hcur | cbn; discriminate].
Qed.

Lemma filter_key_invariant (k : FilterKey) (t : Terminal) :
  filter_mode t = true -> managerInvariant t -> managerInvariant (filter_key k t).
Proof.
  intros Hmode [Hidx [Hcur Hline]].
  assert (Hleft : managerInvariant (leave_filter t)).
  { unfold leave_filter, managerInvariant, cursorInText. cbn. repeat split; lia. }
  assert (Hsame : managerInvariant t) by (split; [exact Hidx |]; split; assumption).
  assert (Hstay : forall text pos,
             filter_mode (setLine text pos t) = false ->
             filter_text (setLine text pos t) = ""
             /\ cursor_pos (setLine text pos t) = 0%nat
             /\ entered_regex_with_down (setLine text pos t) = false).
  { intros text pos Hm. cbn in Hm. congruence. }
  unfold cursorInText in Hcur.
  assert (Hback : managerInvariant (backspace t)).
  { unfold backspace. destruct (0 <? cursor_pos t)%nat eqn:E; [| exact Hsame].
    apply Nat.ltb_lt in E. split; [exact Hidx |]. split; [| apply Hstay].
    unfold cursorInText. rewrite cursor_setLine, text_setLine.
    rewrite length_append, substring_length, from_pos_length. lia. }
  assert (Henter : managerInvariant (filter_enter t)).
  { unfold filter_enter, managerInvariant, cursorInText. cbn. repeat split; lia. }
  destruct k; unfold filter_key; try exact Hleft; try exact Hsame; try exact Hback;
    try exact Henter.
  - destruct (0 <? cursor_pos t)%nat eqn:E; [| exact Hsame].
    apply Nat.ltb_lt in E. split; [exact Hidx |]. split; [| apply Hstay].
    unfold cursorInText. rewrite cursor_setLine, text_setLine. lia.
  - destruct (cursor_pos t <? String.length (filter_text t))%nat eqn:E; [| exact Hsame].
    apply Nat.ltb_lt in E. split; [exact Hidx |]. split; [| apply Hstay].
    unfold cursorInText. rewrite cursor_setLine, text_setLine. lia.
  - destruct (entered_regex_with_down t); [| exact Hsame].
    unfold managerInvariant, cursorInText. cbn. repeat split; lia.
  - destruct (cursor_pos t <? String.length (filter_text t))%nat eqn:E; [| exact Hsame].
    apply Nat.ltb_lt in E. split; [exact Hidx |]. split; [| apply Hstay].
    unfold cursorInText. rewrite cursor_setLine, text_setLine.
    rewrite length_append, substring_length, from_pos_length. lia.
  - cbv zeta.
    destruct (readsEmpty c || (nat_of_ascii c =? 13)%nat); [exact Henter |].
    destruct ((nat_of_ascii c =? 27) || (nat_of_ascii c =? 3)
              || (nat_of_ascii c =? 23))%nat; [exact Hleft |].
    destruct (nat_of_ascii c =? 127)%nat; [exact Hback |].
    destruct (isPrint c); [| exact Hsame].
    split; [exact Hidx |]. split; [| apply Hstay].
    unfold cursorInText. rewrite cursor_setLine, text_setLine.
    rewrite length_append, substring_length. cbn [String.length].
    rewrite from_pos_length. lia.
Qed.

(** X21. The loop of [main], slurm_manager.sh: at every turn the cursor is on
    the header line or below it, the cursor of the regex line is within
    its text, and in normal mode the regex line is empty and the mark of
    an entry with Down is cleared; so regex mode always begins with an
    empty pattern. *)
Theorem manager_invariant (t : Terminal) : reachable t -> managerInvariant t.
Proof.
  induction 1 as [|t t' Hreach IH Hstep].
  - unfold managerInvariant, cursorInText. cbn. repeat split; lia.
  - destruct Hstep as [new_jobs t|k t Hmode|k t Hmode|confirmed refresh t Hmode].
    + apply (sameLine_invariant t); [apply get_jobs_sameLine | exact IH].
    + now apply normal_key_invariant.
    + now apply filter_key_invariant.
    + apply (sameLine_invariant t); [| exact IH].
      apply (cancel_key_sameLine confirmed refresh t).
Qed.

End MoreLoop.

(** ** The properties above on the runs *)

Section MoreRuns.
Import Run Cases.
Local Existing Instance Frag.js.
Local Existing Instance Frag.bytes.
Local Existing Instance Frag.bash.

Lemma looking_actions_change_nothing_witness :
  looksOnly attach = true
  /\ stateOf (handleAction twoRunning attach "1" ready)
     = stateOf (onProvider (getSlurmJobs (polls twoRunning 0)) ready)
  /\ forall v, ~ In (SetHtml v) (effectsOf (handleAction twoRunning attach "1" ready)).
Proof.
  split; [reflexivity |].
  pose proof (looking_actions_change_nothing twoRunning attach "1" ready eq_refl) as H.
  cbv zeta in H. split; apply H.
Defined.

Lemma failed_poll_changes_nothing_witness :
  (exists line, In line (listedLines shortListing)
                /\ (length (Str.split "|" line) < 6)%nat)
  /\ getSlurmJobs shortListing after42 = ([], after42, []).
Proof.
  assert (H : exists line, In line (listedLines shortListing)
                           /\ (length (Str.split "|" line) < 6)%nat).
  { exists "1|train|RUNNING". split; [vm_compute; left; reflexivity | cbn; lia]. }
  split; [exact H |].
  apply (failed_poll_changes_nothing shortListing after42). right. right. exact H.
Defined.

Lemma poll_remembers_listing_witness :
  squeue_version (polls twoRunning 0) <> ""
  /\ squeue_out (polls twoRunning 0) <> ""
  /\ NoDup (map fst (JsMap.entries
                       (lastKnownJobs (stateOf (getSlurmJobs (polls twoRunning 0) after42))))).
Proof.
  assert (H1 : squeue_version (polls twoRunning 0) <> "") by discriminate.
  assert (H2 : squeue_out (polls twoRunning 0) <> "")
    by (intros H; vm_compute in H; discriminate H).
  split; [exact H1 |]. split; [exact H2 |].
  pose proof (poll_remembers_listing (polls twoRunning 0) after42 _ _ H1 H2 eq_refl) as H.
  cbv zeta in H. apply H.
Defined.

Lemma poll_reports_gone_jobs_witness :
  squeue_version (polls without42 0) <> ""
  /\ squeue_out (polls without42 0) <> ""
  /\ parseLines (listedLines (polls without42 0)) JsMap.empty = Some (listed43, known43)
  /\ exists appended,
       valueOf (getSlurmJobs (polls without42 0) after42) = listed43 ++ appended
       /\ Forall2 (reportedGone (polls without42 0) after42 known43) appended
            (effectsOf (getSlurmJobs (polls without42 0) after42)).
Proof.
  assert (H1 : squeue_version (polls without42 0) <> "") by discriminate.
  assert (H2 : squeue_out (polls without42 0) <> "") by discriminate.
  assert (Hp : parseLines (listedLines (polls without42 0)) JsMap.empty
               = Some (listed43, known43)) by reflexivity.
  split; [exact H1 |]. split; [exact H2 |]. split; [exact Hp |].
  exact (poll_reports_gone_jobs (polls without42 0) after42 listed43 known43 H1 H2 Hp).
Defined.

Lemma toggle_selection_flips_witness :
  Forall plainId (selected_jobs onHeader) /\ plainId "1"
  /\ is_selected (selected_jobs (toggle_selection "1" onHeader)) "1" = true
  /\ toggle_selection "1" (toggle_selection "1" onHeader) = onHeader.
Proof.
  assert (H1 : Forall plainId (selected_jobs onHeader)).
  { repeat constructor. discriminate. }
  assert (H2 : plainId "1") by (split; [discriminate | reflexivity]).
  split; [exact H1 |]. split; [exact H2 |].
  destruct (toggle_selection_flips onHeader "1" H1 H2) as [Ha [_ [_ Hb]]].
  split; [exact Ha | exact (Hb eq_refl)].
Defined.

Lemma select_all_not_recognised_witness :
  plainRows (jobs_data onHeader) /\ jobs_data onHeader <> []
  /\ are_all_jobs_selected (select_all onHeader) = false
  /\ normal_key NormalEnter (select_all onHeader) = select_all onHeader.
Proof.
  assert (H1 : plainRows (jobs_data onHeader)).
  { split.
    - change (map row_jobid (jobs_data onHeader)) with ["1"; "2"].
      repeat constructor; discriminate.
    - change (map row_jobid (jobs_data onHeader)) with ["1"; "2"].
      constructor; [intros [H|[]]; discriminate H |].
      constructor; [intros [] | constructor]. }
  assert (H2 : jobs_data onHeader <> []) by discriminate.
  split; [exact H1 |]. split; [exact H2 |].
  destruct (select_all_not_recognised onHeader H1 H2) as [_ [Ha Hb]].
  split; [exact Ha | exact (Hb eq_refl)].
Defined.

Lemma filter_enter_adds_matching_witness :
  filter_text (terminalWith "train") <> ""
  /\ Forall plainId (map row_jobid (jobs_data (terminalWith "train")))
  /\ Forall plainId (selected_jobs (terminalWith "train"))
  /\ is_selected (selected_jobs (filter_enter (terminalWith "train"))) "1"
     = is_selected (selected_jobs (terminalWith "train")) "1"
       || existsb (fun row => ("1" =? row_jobid row)
                              && regex_match (row_name row) (filter_text (terminalWith "train")))
            (jobs_data (terminalWith "train")).
Proof.
  assert (H1 : filter_text (terminalWith "train") <> "") by discriminate.
  assert (H2 : Forall plainId (map row_jobid (jobs_data (terminalWith "train")))).
  { change (map row_jobid (jobs_data (terminalWith "train"))) with ["1"; "2"].
    repeat constructor; discriminate. }
  assert (H3 : Forall plainId (selected_jobs (terminalWith "train"))) by constructor.
  split; [exact H1 |]. split; [exact H2 |]. split; [exact H3 |].
  pose proof (filter_enter_adds_matching (terminalWith "train") H1 H2 H3) as H.
  cbv zeta in H. destruct H as [_ [_ [_ [_ [_ [_ [H _]]]]]]].
  apply H. split; [discriminate | reflexivity].
Defined.

Lemma typed_character_undone_witness :
  cursorInText (terminalWith "train") /\ isGraph "x" = true
  /\ filter_text (filter_key (KeyChar "x") (terminalWith "train")) = "xtrain"
  /\ filter_key KeyBackspace (filter_key (KeyChar "x") (terminalWith "train"))
     = terminalWith "train".
Proof.
  assert (H1 : cursorInText (terminalWith "train")) by (unfold cursorInText; cbn; lia).
  split; [exact H1 |]. split; [reflexivity |].
  pose proof (typed_character_undone "x" (terminalWith "train") H1 eq_refl) as H.
  cbv zeta in H. destruct H as [Ha [_ [_ [Hb _]]]].
  split; [exact Ha | exact Hb].
Defined.


Lemma manager_invariant_witness :
  reachable afterDownAndChar /\ managerInvariant afterDownAndChar.
Proof.
  assert (H : reachable afterDownAndChar).
  { unfold afterDownAndChar.
    apply (reachable_step (normal_key NormalDown terminal_start)).
    - apply (reachable_step terminal_start); [apply reachable_start |].
      apply step_normal. reflexivity.
    - apply step_filter. reflexivity. }
  split; [exact H | exact (manager_invariant afterDownAndChar H)].
Defined.

End MoreRuns.
